(** * Cosmic121 ("Mythos Engine"): the generation pipeline, verified

    A shallow embedding of the admission controller (rate limiter), the
    rule-based safety and quality evaluators, the provider adapter with its
    mock mode, and the script-stage request handler, followed by the
    properties the specification states about them.

    Modelling conventions.
    - A JavaScript string is a [string]: a sequence of 8-bit characters.
      Case mapping, the word class [\w] and the white-space class [\s] are
      those of JavaScript on the ASCII range; characters above 127 have no
      case, are not word characters and are not white space.
    - Integer-valued numbers (counters, timestamps, rule scores) are [Z].
      The weighted aggregate of the quality evaluator is computed on IEEE
      binary64 numbers ([float]), as the source does.
    - [Date.now()] is an explicit argument [now].
    - Code that can throw returns an [outcome]; code that reads or writes the
      shared limiter or talks to the provider runs in the monad [M]. *)

From Stdlib Require Import ZArith List Bool Ascii String Lia.
From Stdlib Require Import Floats.PrimFloat Floats.FloatOps Floats.SpecFloat.
From Stdlib Require Import Numbers.Cyclic.Int63.Uint63.
From stdpp Require Import base option gmap strings list fin_maps.

Local Open Scope string_scope.
Local Open Scope Z_scope.

(** ** JavaScript strings *)

Module JsString.

Definition code (c : ascii) : nat := nat_of_ascii c.

Definition isUpper (c : ascii) : bool :=
  (Nat.leb 65 (code c) && Nat.leb (code c) 90)%nat.

Definition isLower (c : ascii) : bool :=
  (Nat.leb 97 (code c) && Nat.leb (code c) 122)%nat.

Definition isDigit (c : ascii) : bool :=
  (Nat.leb 48 (code c) && Nat.leb (code c) 57)%nat.

(** [\w] is [[A-Za-z0-9_]]. *)
Definition isWordChar (c : ascii) : bool :=
  isUpper c || isLower c || isDigit c || Nat.eqb (code c) 95.

(** [\s] on the ASCII range: TAB, LF, VT, FF, CR and SPACE. *)
Definition isSpace (c : ascii) : bool :=
  (Nat.leb 9 (code c) && Nat.leb (code c) 13)%nat || Nat.eqb (code c) 32.

Definition lowerChar (c : ascii) : ascii :=
  if isUpper c then ascii_of_nat (code c + 32) else c.

(** [s.toLowerCase()] *)
Fixpoint toLowerCase (s : string) : string :=
  match s with
  | EmptyString => EmptyString
  | String c s' => String (lowerChar c) (toLowerCase s')
  end.

(** [s.startsWith(p)] *)
Fixpoint startsWith (s p : string) {struct p} : bool :=
  match p, s with
  | EmptyString, _ => true
  | String _ _, EmptyString => false
  | String a p', String b s' => Ascii.eqb a b && startsWith s' p'
  end.

(** [s.includes(search)] *)
Fixpoint includes (s search : string) : bool :=
  startsWith s search ||
  match s with
  | EmptyString => false
  | String _ s' => includes s' search
  end.

(** [s.endsWith(".")], for a one-character suffix *)
Fixpoint endsWithChar (s : string) (c : ascii) : bool :=
  match s with
  | EmptyString => false
  | String a EmptyString => Ascii.eqb a c
  | String _ s' => endsWithChar s' c
  end.

Fixpoint trimStart (s : string) : string :=
  match s with
  | EmptyString => EmptyString
  | String c s' => if isSpace c then trimStart s' else s
  end.

Fixpoint trimEnd (s : string) : string :=
  match s with
  | EmptyString => EmptyString
  | String c s' =>
      match trimEnd s' with
      | EmptyString => if isSpace c then EmptyString else String c EmptyString
      | t => String c t
      end
  end.

(** [s.trim()] *)
Definition trim (s : string) : string := trimEnd (trimStart s).

(** The pieces of [s.split(/\s+/)]: the text between maximal runs of white
    space, with an empty piece before a leading run and after a trailing
    one.  [inws] tells that the previous character was white space. *)
Fixpoint splitWs (inws : bool) (s : string) : list string :=
  match s with
  | EmptyString => [EmptyString]
  | String c s' =>
      if isSpace c then
        (if inws then splitWs true s' else EmptyString :: splitWs true s')
      else
        match splitWs false s' with
        | w :: ws => String c w :: ws
        | [] => [String c EmptyString]
        end
  end.

Definition split_whitespace (s : string) : list string := splitWs false s.

(** The pieces of [s.split(sep)] for a one-character separator. *)
Fixpoint splitChar (sep : ascii) (s : string) : list string :=
  match s with
  | EmptyString => [EmptyString]
  | String c s' =>
      if Ascii.eqb c sep then EmptyString :: splitChar sep s'
      else
        match splitChar sep s' with
        | w :: ws => String c w :: ws
        | [] => [String c EmptyString]
        end
  end.

(** [parts.join(sep)] *)
Fixpoint join (sep : string) (parts : list string) : string :=
  match parts with
  | [] => EmptyString
  | [p] => p
  | p :: rest => p ++ sep ++ join sep rest
  end.

Definition len (s : string) : Z := Z.of_nat (String.length s).

Definition isEmpty (s : string) : bool :=
  match s with EmptyString => true | _ => false end.

End JsString.

Import JsString.

(** ** The admission controller (src/unnamed/part_001: [RateLimiter]) *)

Module RateLimiter.

Record RateLimitEntry := mkEntry { count : Z; resetTime : Z }.

Record t := mk {
  limits : gmap string RateLimitEntry;
  maxRequests : Z;
  windowMs : Z
}.

Record Decision := mkDecision {
  allowed : bool;
  remaining : Z;
  resetAt : Z
}.

(** [constructor(maxRequests = 10, windowMs = 60000)] *)
Definition create (maxReq window : Z) : t :=
  {| limits := ∅; maxRequests := maxReq; windowMs := window |}.

Definition withLimits (rl : t) (m : gmap string RateLimitEntry) : t :=
  {| limits := m; maxRequests := maxRequests rl; windowMs := windowMs rl |}.

(** [isAllowed(identifier)], with [now] the value of [Date.now()]. *)
Definition isAllowed (now : Z) (identifier : string) (rl : t) : Decision * t :=
  match limits rl !! identifier with
  | Some entry =>
      if now >? resetTime entry then
        (mkDecision true (maxRequests rl - 1) (now + windowMs rl),
         withLimits rl (<[identifier := mkEntry 1 (now + windowMs rl)]> (limits rl)))
      else if count entry >=? maxRequests rl then
        (mkDecision false 0 (resetTime entry), rl)
      else
        let entry' := mkEntry (count entry + 1) (resetTime entry) in
        (mkDecision true (maxRequests rl - count entry') (resetTime entry'),
         withLimits rl (<[identifier := entry']> (limits rl)))
  | None =>
      (mkDecision true (maxRequests rl - 1) (now + windowMs rl),
       withLimits rl (<[identifier := mkEntry 1 (now + windowMs rl)]> (limits rl)))
  end.

(** [cleanup()]: every expired entry is deleted. *)
Definition cleanup (now : Z) (rl : t) : t :=
  withLimits rl (filter (fun kv => ¬ (now > resetTime kv.2)) (limits rl)).

(** [getCurrentLimit(identifier)] *)
Definition getCurrentLimit (now : Z) (identifier : string) (rl : t)
  : option RateLimitEntry * t :=
  match limits rl !! identifier with
  | None => (None, rl)
  | Some entry =>
      if now >? resetTime entry
      then (None, withLimits rl (delete identifier (limits rl)))
      else (Some entry, rl)
  end.

(** [resetLimits()] *)
Definition resetLimits (rl : t) : t := withLimits rl ∅.

(** The operations of the class, as a client can issue them. *)
Inductive op :=
| OpIsAllowed (now : Z) (identifier : string)
| OpCleanup (now : Z)
| OpGetCurrentLimit (now : Z) (identifier : string)
| OpResetLimits.

Definition step (o : op) (rl : t) : t :=
  match o with
  | OpIsAllowed now id => (isAllowed now id rl).2
  | OpCleanup now => cleanup now rl
  | OpGetCurrentLimit now id => (getCurrentLimit now id rl).2
  | OpResetLimits => resetLimits rl
  end.

Definition run (ops : list op) (rl : t) : t := fold_left (fun s o => step o s) ops rl.

(** Consecutive checks of one identity, at the given times. *)
Fixpoint checks (times : list Z) (identifier : string) (rl : t)
  : list Decision * t :=
  match times with
  | [] => ([], rl)
  | now :: rest =>
      let '(d, rl1) := isAllowed now identifier rl in
      let '(ds, rl2) := checks rest identifier rl1 in
      (d :: ds, rl2)
  end.

(** Every stored entry has a count between 1 and the ceiling. *)
Definition counts_in_range (rl : t) : Prop :=
  ∀ id e, limits rl !! id = Some e → (1 ≤ count e ≤ maxRequests rl)%Z.

(** No entry for the identity, or its window has elapsed at [now]. *)
Definition fresh (now : Z) (id : string) (rl : t) : Prop :=
  limits rl !! id = None ∨ ∃ e, limits rl !! id = Some e ∧ now > resetTime e.

End RateLimiter.

(** ** The safety evaluator (src/unnamed/part_002) *)

Module ContentSafety.

(** A matcher of the form [/\b(w1|w2|...)\b/i]. *)
Record WordPattern := mkPattern { alternatives : list string }.

Definition eqCI (a b : ascii) : bool := Ascii.eqb (lowerChar a) (lowerChar b).

Definition headIsWord (s : string) : bool :=
  match s with
  | EmptyString => false
  | String c _ => isWordChar c
  end.

(** [\b]: exactly one of the characters around the position is a word
    character; [prev] tells whether the character before it is one. *)
Definition isBoundary (prev : bool) (s : string) : bool := xorb prev (headIsWord s).

(** The alternative [w], then [\b], at the head of [s]. *)
Fixpoint matchAlt (prev : bool) (w s : string) : bool :=
  match w with
  | EmptyString => isBoundary prev s
  | String a w' =>
      match s with
      | EmptyString => false
      | String b s' => eqCI a b && matchAlt (isWordChar b) w' s'
      end
  end.

Definition matchHere (p : WordPattern) (prev : bool) (s : string) : bool :=
  isBoundary prev s && existsb (fun w => matchAlt prev w s) (alternatives p).

(** A match of the pattern at some position of [s]. *)
Fixpoint scanFrom (p : WordPattern) (prev : bool) (s : string) : bool :=
  matchHere p prev s ||
  match s with
  | EmptyString => false
  | String c s' => scanFrom p (isWordChar c) s'
  end.

(** [pattern.test(content)] *)
Definition test (p : WordPattern) (content : string) : bool := scanFrom p false content.

Definition INAPPROPRIATE_PATTERNS : list (string * list WordPattern) :=
  [ ("violence",
      [ mkPattern ["kill"; "murder"; "death"; "blood"; "gore"; "torture"; "pain"; "suffering"];
        mkPattern ["war"; "battle"; "fight"; "attack"; "destroy"; "crush"; "smash"; "burn"] ]);
    ("sexual",
      [ mkPattern ["sex"; "sexual"; "nude"; "naked"; "intimate"; "romance"; "love"; "kiss"] ]);
    ("hate",
      [ mkPattern ["hate"; "racist"; "discriminate"; "insult"; "curse"; "swear"] ]);
    ("inappropriate",
      [ mkPattern ["drug"; "alcohol"; "smoke"; "drunk"; "high"] ]) ].

Record SafetyCheckResult := mkResult {
  safe : bool;
  flagged : bool;
  categories : list (string * bool);
  score : Z;
  issues : list string;
  suggestions : list string
}.

(** The running state of [checkContentSafety]. *)
Record Acc := mkAcc {
  a_flagged : bool;
  a_score : Z;
  a_issues : list string;
  a_suggestions : list string
}.

(** The [switch (category)] of the inner loop. *)
Definition suggestionFor (category : string) : list string :=
  if String.eqb category "violence" then
    ["Consider using more peaceful language or focusing on the spiritual aspects"]
  else if String.eqb category "sexual" then
    ["Focus on the divine and spiritual aspects of the story"]
  else if String.eqb category "hate" then
    ["Use respectful and inclusive language"]
  else if String.eqb category "inappropriate" then
    ["Keep content family-friendly and appropriate"]
  else [].

Definition issueFor (category : string) : string :=
  "Contains " ++ category ++ " content".

(** The body of [for (const pattern of patterns)]. *)
Definition onPattern (content category : string) (acc : Acc) (p : WordPattern) : Acc :=
  if test p content then
    mkAcc true (a_score acc - 20)
          (a_issues acc ++ [issueFor category])
          (a_suggestions acc ++ suggestionFor category)
  else acc.

(** The body of [for (const [category, patterns] of Object.entries(...))]. *)
Definition onCategory (content : string) (acc : Acc) (entry : string * list WordPattern) : Acc :=
  fold_left (onPattern content entry.1) entry.2 acc.

Definition mythologicalKeywords : list string :=
  [ "krishna"; "rama"; "hanuman"; "shiva"; "durga"; "ganesha";
    "mahabharata"; "ramayana"; "bhagavad gita"; "vedas"; "upanishads";
    "temple"; "ashram"; "guru"; "yoga"; "meditation"; "dharma";
    "karma"; "moksha"; "bhakti"; "deva"; "asura"; "avatar" ].

Definition checkMythologicalRelevance (content : string) : bool :=
  existsb (fun keyword => includes content keyword) mythologicalKeywords.

(** [content.split(/\s+/).length] *)
Definition wordCount (content : string) : Z :=
  Z.of_nat (length (split_whitespace content)).

Definition onLength (content : string) (acc : Acc) : Acc :=
  let wc := wordCount content in
  if wc <? 3 then
    mkAcc (a_flagged acc) (a_score acc - 10)
          (a_issues acc ++ ["Content too short"])
          (a_suggestions acc ++ ["Provide more descriptive content for better results"])
  else if wc >? 50 then
    mkAcc (a_flagged acc) (a_score acc - 15)
          (a_issues acc ++ ["Content too long"])
          (a_suggestions acc ++ ["Keep descriptions concise and focused"])
  else acc.

Definition onRelevance (lowerContent : string) (acc : Acc) : Acc :=
  if negb (checkMythologicalRelevance lowerContent) then
    mkAcc (a_flagged acc) (a_score acc - 25)
          (a_issues acc ++ ["Content lacks mythological elements"])
          (a_suggestions acc ++ ["Include references to Indian mythology, characters, or concepts"])
  else acc.

(** The score before the final [Math.max(0, score)]. *)
Definition finalAcc (content : string) : Acc :=
  let lowerContent := toLowerCase content in
  let acc0 := mkAcc false 100 [] [] in
  let acc1 := fold_left (onCategory content) INAPPROPRIATE_PATTERNS acc0 in
  let acc2 := onLength content acc1 in
  onRelevance lowerContent acc2.

Definition checkContentSafety (content : string) : SafetyCheckResult :=
  let acc := finalAcc content in
  let lower := toLowerCase content in
  {| safe := a_score acc >=? 70;
     flagged := a_flagged acc;
     categories :=
       [ ("violence", includes lower "violence");
         ("sexual", includes lower "sexual");
         ("hate", includes lower "hate");
         ("inappropriate", includes lower "inappropriate") ];
     score := Z.max 0 (a_score acc);
     issues := a_issues acc;
     suggestions := a_suggestions acc |}.

(** The matchers of all categories, in the order the loops visit them. *)
Definition allMatchers : list (string * WordPattern) :=
  flat_map (fun entry : string * list WordPattern =>
              map (fun p => (entry.1, p)) entry.2) INAPPROPRIATE_PATTERNS.

(** The matchers that [content] matches. *)
Definition hits (content : string) : list (string * WordPattern) :=
  List.filter (fun cp => test cp.2 content) allMatchers.

(** The matchers of one category that [content] matches. *)
Definition hitsOf (category content : string) : list (string * WordPattern) :=
  List.filter (fun cp => String.eqb cp.1 category) (hits content).

Definition lengthPenalty (content : string) : Z :=
  if wordCount content <? 3 then 10 else if wordCount content >? 50 then 15 else 0.

Definition relevancePenalty (content : string) : Z :=
  if checkMythologicalRelevance (toLowerCase content) then 0 else 25.

(** The issue and the suggestion of the length rule and of the relevance
    rule, when they apply. *)
Definition lengthIssues (content : string) : list string * list string :=
  if wordCount content <? 3 then
    (["Content too short"], ["Provide more descriptive content for better results"])
  else if wordCount content >? 50 then
    (["Content too long"], ["Keep descriptions concise and focused"])
  else ([], []).

Definition relevanceIssues (content : string) : list string * list string :=
  if checkMythologicalRelevance (toLowerCase content) then ([], [])
  else (["Content lacks mythological elements"],
        ["Include references to Indian mythology, characters, or concepts"]).

(** The specification's reading of the category loop: a category that the
    text matches costs 20 points once, however many of its matchers match. *)
Definition categoryMatches (content : string) (entry : string * list WordPattern) : bool :=
  existsb (fun p => test p content) entry.2.

Definition perCategoryScore (content : string) : Z :=
  Z.max 0 (100
           - 20 * Z.of_nat (length (List.filter (categoryMatches content)
                                                INAPPROPRIATE_PATTERNS))
           - lengthPenalty content - relevancePenalty content).

Definition perCategoryIssues (content : string) : list string :=
  map (fun e : string * list WordPattern => issueFor e.1)
      (List.filter (categoryMatches content) INAPPROPRIATE_PATTERNS).

(** What the matchers [ms] that [content] matches add to the running
    state: 20 points, one issue and one suggestion each. *)
Definition after (content : string) (acc : Acc) (ms : list (string * WordPattern)) : Acc :=
  let hs := List.filter (fun cp => test cp.2 content) ms in
  mkAcc (a_flagged acc || negb (Nat.eqb (length hs) 0))
        (a_score acc - 20 * Z.of_nat (length hs))
        (a_issues acc ++ map (fun cp : string * WordPattern => issueFor cp.1) hs)%list
        (a_suggestions acc
         ++ flat_map (fun cp : string * WordPattern => suggestionFor cp.1) hs)%list.

(** The phrase matches a matcher of some unsafe category. *)
Definition matchesUnsafe (phrase : string) : bool :=
  existsb (fun cp : string * WordPattern => test cp.2 phrase) allMatchers.

(** The specification's monotonicity property, as it is worded. *)
Definition monotonicUnderAppend : Prop :=
  ∀ text phrase : string,
    70 ≤ score (checkContentSafety text) →
    matchesUnsafe phrase = true →
    score (checkContentSafety (text ++ phrase)) ≤ score (checkContentSafety text).

End ContentSafety.

(** ** JavaScript values, as far as the pipeline inspects them *)

Module Js.

#[warnings="-register-all"]
Inductive jsval :=
| JUndefined
| JNull
| JBool (b : bool)
| JNum (z : Z)                       (* only its being zero is observed *)
| JStr (s : string)
| JArr (items : list jsval)
| JObj (fields : list (string * jsval))
| JFun.

(** Truthiness, as [!v], [v && ...] and [v || ...] see it. *)
Definition truthy (v : jsval) : bool :=
  match v with
  | JUndefined | JNull => false
  | JBool b => b
  | JNum z => negb (z =? 0)
  | JStr s => negb (isEmpty s)
  | JArr _ | JObj _ | JFun => true
  end.

(** [typeof v === 'string'] *)
Definition typeofIsString (v : jsval) : bool :=
  match v with JStr _ => true | _ => false end.

(** The property names every object inherits from [Object.prototype]. *)
Definition objectPrototypeNames : list string :=
  [ "constructor"; "toString"; "toLocaleString"; "valueOf"; "hasOwnProperty";
    "isPrototypeOf"; "propertyIsEnumerable"; "__proto__";
    "__defineGetter__"; "__defineSetter__"; "__lookupGetter__"; "__lookupSetter__" ].

(** What a plain object yields for a name it does not own: a built-in
    function for the inherited methods, the prototype object for
    [__proto__], [undefined] otherwise. *)
Definition inherited (key : string) : jsval :=
  if String.eqb key "__proto__" then JObj []
  else if existsb (String.eqb key) objectPrototypeNames then JFun
  else JUndefined.

Fixpoint ownProperty (fields : list (string * jsval)) (key : string) : option jsval :=
  match fields with
  | [] => None
  | (k, v) :: rest => if String.eqb k key then Some v else ownProperty rest key
  end.

(** [v[key]] for a value that is neither [null] nor [undefined].  The keys
    the program reads on values that are not plain objects
    ([narrator_caption], [dialogue], [image_description]) name no built-in
    property of a string, number, boolean, array or function. *)
Definition getProp (v : jsval) (key : string) : jsval :=
  match v with
  | JObj fields =>
      match ownProperty fields key with
      | Some x => x
      | None => inherited key
      end
  | _ => JUndefined
  end.

(** [v.length] of a string value *)
Definition strLength (v : jsval) : Z :=
  match v with JStr s => len s | _ => 0 end.

(** [v.trim().length] of a string value *)
Definition trimmedLength (v : jsval) : Z :=
  match v with JStr s => len (trim s) | _ => 0 end.

(** [a || b] *)
Definition jsOr (a b : jsval) : jsval := if truthy a then a else b.

(** The script object: three string fields. *)
Record Script := mkScript {
  narrator_caption : string;
  dialogue : string;
  image_description : string
}.

Definition scriptVal (s : Script) : jsval :=
  JObj [ ("narrator_caption", JStr (narrator_caption s));
         ("dialogue", JStr (dialogue s));
         ("image_description", JStr (image_description s)) ].

End Js.

Import Js.

(** ** The quality evaluator (src/unnamed/part_000) *)

Module Quality.

Record ValidationResult := mkVR {
  passed : bool;
  score : Z;
  issues : list string;
  suggestions : list string
}.

Record Acc := mkAcc {
  a_score : Z;
  a_issues : list string;
  a_suggestions : list string
}.

Definition start : Acc := mkAcc 100 [] [].

(** [if (cond) { score -= pts; issues.push(...iss); suggestions.push(...sgs) }] *)
Definition deduct (cond : bool) (pts : Z) (iss sgs : list string) (acc : Acc) : Acc :=
  if cond then mkAcc (a_score acc - pts) (a_issues acc ++ iss) (a_suggestions acc ++ sgs)
  else acc.

Definition finish (acc : Acc) : ValidationResult :=
  {| passed := a_score acc >=? 70;
     score := Z.max 0 (a_score acc);
     issues := a_issues acc;
     suggestions := a_suggestions acc |}.

(** *** Helper functions *)

Definition characterKeywords : list string :=
  [ "krishna"; "rama"; "hanuman"; "shiva"; "durga"; "ganesha";
    "arjuna"; "sita"; "lakshmana"; "bharata"; "radha"; "parvati" ].

Definition extractCharacterNames (scene : string) : list string :=
  List.filter (fun keyword => includes (toLowerCase scene) keyword) characterKeywords.

Record CharacterAccuracy := mkCA {
  accurate : bool;
  ca_issues : list string;
  ca_suggestions : list string
}.

Definition checkCharacterAccuracy (character : string) (script : Script) : CharacterAccuracy :=
  let hit := String.eqb character "krishna" && includes (image_description script) "evil" in
  let iss := if hit then ["Krishna should not be portrayed as evil"] else [] in
  let sgs := if hit then ["Focus on Krishna's divine and protective nature"] else [] in
  {| accurate := Nat.eqb (length iss) 0; ca_issues := iss; ca_suggestions := sgs |}.

(** [`${script.narrator_caption} ${script.image_description}`.toLowerCase()] *)
Definition loweredContent (script : Script) : string :=
  toLowerCase (narrator_caption script ++ " " ++ image_description script).

Definition checkMythologicalElements (script : Script) : bool :=
  existsb (fun keyword => includes (loweredContent script) keyword)
    [ "divine"; "sacred"; "cosmic"; "spiritual"; "temple"; "ashram";
      "guru"; "yoga"; "meditation"; "dharma"; "karma"; "moksha" ].

(** [checkCulturalContext]: no rule is implemented; both lists are empty. *)
Definition checkCulturalContext (script : Script) : list string * list string := ([], []).

(** ['x' && 'y'] on string literals *)
Definition andStr (a b : string) : string := if isEmpty a then a else b.

(** The array-destructuring pattern [[a, b]] applied to a string: its first
    two characters, each [undefined] when the string is too short. *)
Definition firstTwo (s : string) : option string * option string :=
  match s with
  | EmptyString => (None, None)
  | String a EmptyString => (Some (String a EmptyString), None)
  | String a (String b _) => (Some (String a EmptyString), Some (String b EmptyString))
  end.

(** [s.includes(x)] for an [x] that may be [undefined], which is searched
    for as the text "undefined". *)
Definition includesArg (s : string) (x : option string) : bool :=
  includes s (match x with Some t => t | None => "undefined" end).

Definition inconsistencies : list string :=
  [ andStr "day" "stars"; andStr "indoor" "mountain"; andStr "underwater" "fire" ].

Definition hasLogicalInconsistencies (imageDesc : string) : bool :=
  existsb (fun item =>
             let '(a, b) := firstTwo item in
             includesArg (toLowerCase imageDesc) a && includesArg (toLowerCase imageDesc) b)
          inconsistencies.

Definition hasCulturalStereotypes (script : Script) : bool :=
  existsb (fun stereotype => includes (loweredContent script) stereotype)
    [ "mystical east"; "exotic"; "oriental"; "primitive" ].

Definition checkAuthenticCulturalElements (script : Script) : bool :=
  existsb (fun element => includes (loweredContent script) element)
    [ "temple"; "ashram"; "guru"; "yoga"; "meditation";
      "bhakti"; "dharma"; "karma"; "moksha" ].

Definition hasNarrativeStructure (caption : string) : bool :=
  (Z.of_nat (length (splitChar " " caption)) >=? 10)
  && includes caption "," && endsWithChar caption ".".

(** *** The four rule evaluators *)

Definition validateMythologicalAccuracy (script : Script) (scene : string) : ValidationResult :=
  let acc1 :=
    fold_left (fun acc character =>
                 let accuracy := checkCharacterAccuracy character script in
                 deduct (negb (accurate accuracy)) 15
                        (ca_issues accuracy) (ca_suggestions accuracy) acc)
              (extractCharacterNames scene) start in
  let acc2 :=
    deduct (negb (checkMythologicalElements script)) 20
           ["Missing core mythological elements"]
           ["Include references to divine powers, sacred places, or spiritual concepts"]
           acc1 in
  let culturalContext := checkCulturalContext script in
  let acc3 :=
    deduct (Z.of_nat (length culturalContext.1) >? 0) 10
           culturalContext.1 culturalContext.2 acc2 in
  finish acc3.

Definition visualElements : list string :=
  [ "character"; "pose"; "expression"; "setting"; "lighting";
    "clothing"; "weapons"; "background"; "atmosphere" ].

Definition validateVisualCoherence (script : Script) : ValidationResult :=
  let imageDesc := image_description script in
  let acc1 :=
    deduct (len imageDesc <? 30) 15
           ["Image description too short"]
           ["Provide more detailed visual description"] start in
  let acc2 :=
    deduct (len imageDesc >? 100) 10
           ["Image description too long"]
           ["Keep description concise but detailed"] acc1 in
  let missingElements :=
    List.filter (fun element => negb (includes (toLowerCase imageDesc) element))
                visualElements in
  let acc3 :=
    deduct (Z.of_nat (length missingElements) >? 3) 20
           ["Missing key visual elements: " ++ join ", " (firstn 3 missingElements)]
           ["Include character appearance, setting, and atmosphere details"] acc2 in
  let acc4 :=
    deduct (hasLogicalInconsistencies imageDesc) 15
           ["Visual elements have logical inconsistencies"]
           ["Ensure all visual elements work together logically"] acc3 in
  finish acc4.

Definition validateCulturalAuthenticity (script : Script) : ValidationResult :=
  let hasDisrespectfulTerms :=
    existsb (fun term =>
               includes (toLowerCase (narrator_caption script)) term
               || includes (toLowerCase (image_description script)) term)
            [ "idol"; "pagan"; "primitive"; "superstitious" ] in
  let acc1 :=
    deduct hasDisrespectfulTerms 25
           ["Contains disrespectful language"]
           ["Use respectful and culturally appropriate terminology"] start in
  let acc2 :=
    deduct (hasCulturalStereotypes script) 20
           ["Contains cultural stereotypes"]
           ["Avoid oversimplified cultural representations"] acc1 in
  let acc3 :=
    deduct (negb (checkAuthenticCulturalElements script)) 15
           ["Missing authentic cultural elements"]
           ["Include specific cultural details and traditions"] acc2 in
  finish acc3.

Definition validateStorytellingQuality (script : Script) : ValidationResult :=
  let caption := narrator_caption script in
  let acc1 :=
    deduct (len caption <? 15) 15
           ["Narrator caption too short"]
           ["Provide more descriptive narration"] start in
  let acc2 :=
    deduct (len caption >? 35) 10
           ["Narrator caption too long"]
           ["Keep narration concise but impactful"] acc1 in
  let dialogue := dialogue script in
  let acc3 :=
    deduct (negb (isEmpty dialogue) && (len dialogue >? 20)) 10
           ["Dialogue too long"]
           ["Keep dialogue short and impactful"] acc2 in
  let hasEmotionalImpact :=
    existsb (fun word =>
               includes (toLowerCase caption) word || includes (toLowerCase dialogue) word)
            [ "divine"; "sacred"; "majestic"; "powerful"; "beautiful"; "awe-inspiring" ] in
  let acc4 :=
    deduct (negb hasEmotionalImpact) 15
           ["Lacks emotional impact"]
           ["Include words that convey mythological grandeur"] acc3 in
  let acc5 :=
    deduct (negb (hasNarrativeStructure caption)) 10
           ["Poor narrative structure"]
           ["Create a clear beginning, middle, and end in the narration"] acc4 in
  finish acc5.

(** *** The rule table and the aggregate *)

Record ValidationRule := mkRule {
  name : string;
  description : string;
  weight : float;
  validator : Script -> string -> ValidationResult
}.

Definition VALIDATION_RULES : list ValidationRule :=
  [ mkRule "Mythological Accuracy"
           "Ensures content aligns with traditional Indian mythology"
           0x1.3333333333333p-2%float (* 0.3 *)
           validateMythologicalAccuracy;
    mkRule "Visual Coherence"
           "Checks if visual elements work together logically"
           0.25%float
           (fun script _ => validateVisualCoherence script);
    mkRule "Cultural Authenticity"
           "Verifies cultural elements are respectful and accurate"
           0.25%float
           (fun script _ => validateCulturalAuthenticity script);
    mkRule "Storytelling Quality"
           "Assesses narrative structure and emotional impact"
           0x1.999999999999ap-3%float (* 0.2 *)
           (fun script _ => validateStorytellingQuality script) ].

(** An integer score as a binary64 number (exact below 2^53). *)
Definition toNumber (z : Z) : float := PrimFloat.of_uint63 (Uint63.of_Z z).

(** The loop of [validateQuality]: results, [totalScore] and [totalWeight]. *)
Definition runRules (script : Script) (scene : string)
  : list ValidationResult * float * float :=
  fold_left (fun (st : list ValidationResult * float * float) rule =>
               let '(results, totalScore, totalWeight) := st in
               let result := validator rule script scene in
               let weightedScore := PrimFloat.mul (toNumber (score result)) (weight rule) in
               ((results ++ [result])%list,
                PrimFloat.add totalScore weightedScore,
                PrimFloat.add totalWeight (weight rule)))
            VALIDATION_RULES ([], 0%float, 0%float).

(** [totalWeight > 0 ? totalScore / totalWeight : 0] *)
Definition finalScore (script : Script) (scene : string) : float :=
  let '(_, totalScore, totalWeight) := runRules script scene in
  if PrimFloat.ltb 0%float totalWeight
  then PrimFloat.div totalScore totalWeight
  else 0%float.

(** [Math.round] on a finite number: the nearest integer, a tie going up.
    A finite binary64 number is [±m·2^e]; [0] stands for the cases that are
    not finite, which [finalScore] never reaches. *)
Definition Math_round (x : float) : Z :=
  match Prim2SF x with
  | S754_finite s m e =>
      let n := if s then Z.neg m else Z.pos m in
      if 0 <=? e then n * 2 ^ e
      else (2 * n + 2 ^ (- e)) / 2 ^ (- e + 1)
  | _ => 0
  end.

(** [x] is the binary64 number nearest to [num/den]: a normal number
    [m·2^e] at most half a unit in the last place away from it. *)
Definition isNearestDouble (num den : Z) (x : float) : bool :=
  match Prim2SF x with
  | S754_finite false m e =>
      (e <? 0) && (2 ^ 52 <=? Z.pos m) && (Z.pos m <? 2 ^ 53)
      && (2 * Z.abs (den * Z.pos m - num * 2 ^ (- e)) <=? den)
  | _ => false
  end.

Definition isFinite (x : float) : bool :=
  match Prim2SF x with
  | S754_finite _ _ _ | S754_zero _ => true
  | _ => false
  end.

Record Metadata := mkMeta {
  mythologicalAccuracy : Z;
  visualCoherence : Z;
  culturalAuthenticity : Z;
  storytellingQuality : Z
}.

Record QualityValidationResult := mkQVR {
  valid : bool;
  q_score : Z;
  q_issues : list string;
  q_suggestions : list string;
  strengths : list string;
  metadata : Metadata
}.

(** [results[i]?.score || 0] *)
Definition scoreAt (results : list ValidationResult) (i : nat) : Z :=
  match nth_error results i with
  | Some r => if score r =? 0 then 0 else score r
  | None => 0
  end.

Definition strengthOf (result : ValidationResult) : list string :=
  if score result >=? 80 then
    ["Strong " ++ (if score result >=? 90 then "excellent" else "good") ++ " quality"]
  else [].

Definition validateQuality (script : Script) (scene : string) : QualityValidationResult :=
  let results := (runRules script scene).1.1 in
  let final := finalScore script scene in
  {| valid := PrimFloat.leb 70%float final;
     q_score := Math_round final;
     q_issues := flat_map issues results;
     q_suggestions := flat_map suggestions results;
     strengths := flat_map strengthOf results;
     metadata :=
       {| mythologicalAccuracy := scoreAt results 0;
          visualCoherence := scoreAt results 1;
          culturalAuthenticity := scoreAt results 2;
          storytellingQuality := scoreAt results 3 |} |}.

(** The weighted sum with the decimal weights 0.30, 0.25, 0.25 and 0.20, in
    hundredths of a point. *)
Definition weightedSum100 (m v c s : Z) : Z := 30 * m + 25 * v + 25 * c + 20 * s.


(** The scores a rule can produce: [base] less any selection of its
    deductions. *)
Fixpoint reachable (base : Z) (deductions : list Z) : list Z :=
  match deductions with
  | [] => [base]
  | d :: rest => (reachable base rest ++ reachable (base - d) rest)%list
  end.

(** The aggregate that [finalScore] computes from four rule scores. *)
Definition aggregate (m v c s : Z) : float :=
  let totalScore :=
    fold_left (fun acc (sw : Z * float) => PrimFloat.add acc (PrimFloat.mul (toNumber sw.1) sw.2))
              (combine [m; v; c; s] (map weight VALIDATION_RULES)) 0%float in
  let totalWeight := fold_left PrimFloat.add (map weight VALIDATION_RULES) 0%float in
  if PrimFloat.ltb 0%float totalWeight then PrimFloat.div totalScore totalWeight else 0%float.

(** The aggregate is finite, [Math.round] takes it to the weighted sum
    rounded half up, and it reaches 70 exactly when the weighted sum does. *)
Definition exactOn (m v c s : Z) : bool :=
  isFinite (aggregate m v c s)
  && (Math_round (aggregate m v c s) =? (weightedSum100 m v c s + 50) / 100)
  && Bool.eqb (PrimFloat.leb 70%float (aggregate m v c s)) (7000 <=? weightedSum100 m v c s).

Definition exactOnAll (ms vs cs ss : list Z) : bool :=
  forallb (fun m => forallb (fun v => forallb (fun c => forallb (exactOn m v c) ss) cs) vs) ms.

(** The specification's reading of the verdict: valid exactly when the
    reported aggregate score is at least 70. *)
Definition validIsScoreAtLeast70 : Prop :=
  ∀ (script : Script) (scene : string),
    valid (validateQuality script scene) = (70 <=? q_score (validateQuality script scene)).

(** Both terms occur in the lowered description. *)
Definition bothOccur (imageDesc a b : string) : bool :=
  includes (toLowerCase imageDesc) a && includes (toLowerCase imageDesc) b.

(** The specification's reading of the detector: one fixed pair of terms,
    reported exactly when both of them occur in the description. *)
Definition singleFixedPair : Prop :=
  ∃ a b : string, ∀ imageDesc : string,
    hasLogicalInconsistencies imageDesc = true ↔ bothOccur imageDesc a b = true.

End Quality.

(** ** Exceptions, the shared world and the monad of the handlers *)

Module Effects.

(** A thrown value: an [Error] with its message, and the [error.code] that
    the provider's client library attaches to the failures it reports. *)
Record exn := mkExn { exn_code : option string; exn_message : string }.

Definition newError (message : string) : exn := mkExn None message.
Definition typeError (message : string) : exn := mkExn None message.

Inductive outcome (A : Type) :=
| Returned (a : A)
| Thrown (e : exn).
Arguments Returned {A} a.
Arguments Thrown {A} e.

(** What is asked of the chat endpoint: the prompt is a function of these. *)
Inductive ChatRequest :=
| ScriptPrompt (scene sceneType : string)
| QualityPrompt (script : jsval) (scene : string).

(** A call that leaves the process for the external provider. *)
Inductive ProviderCall :=
| Moderation (input : string)
| ChatCompletion (model : string) (request : ChatRequest)
| ImageGeneration (prompt styleType : string).

(** The state shared by all requests: the two limiters of
    src/unnamed/part_001 and the history of provider calls. *)
Record World := mkWorld {
  scriptRateLimiter : RateLimiter.t;
  imageRateLimiter : RateLimiter.t;
  providerCalls : list ProviderCall
}.

Definition M (A : Type) : Type := World -> outcome A * World.

Definition ret {A} (a : A) : M A := fun w => (Returned a, w).

Definition throw {A} (e : exn) : M A := fun w => (Thrown e, w).

Definition bind {A B} (m : M A) (k : A -> M B) : M B :=
  fun w =>
    match m w with
    | (Returned a, w') => k a w'
    | (Thrown e, w') => (Thrown e, w')
    end.

(** [try { m } catch (error) { handler(error) }] *)
Definition tryCatch {A} (m : M A) (handler : exn -> M A) : M A :=
  fun w =>
    match m w with
    | (Returned a, w') => (Returned a, w')
    | (Thrown e, w') => handler e w'
    end.

Definition liftOutcome {A} (o : outcome A) : M A := fun w => (o, w).

Definition isThrown {A} (o : outcome A) : bool :=
  match o with Thrown _ => true | Returned _ => false end.

End Effects.

Import Effects.

Notation "'let*' x ':=' m 'in' k" := (bind m (fun x => k))
  (at level 10, x name, m at level 100, k at level 200, only parsing).

(** ** The provider adapter (src/lib/ai-client.ts: [AIClient]) *)

Module AIClient.

(** One entry of [response.results] of the moderation endpoint. *)
Record ModerationResult := mkModeration {
  m_flagged : bool;
  m_categories : list (string * bool)
}.

(** What the chat endpoint answers: [choices[0]?.message?.content] is
    missing or empty, or it is a text, given by what [JSON.parse] makes of
    it (a value, or the syntax error it throws). *)
Inductive ChatReply :=
| NoContent
| Content (parsed : outcome jsval).

(** The provider's client object.  Its answers may depend on the calls made
    before. *)
Record OpenAI := mkOpenAI {
  moderations_create : list ProviderCall -> string -> outcome (list ModerationResult);
  chat_completions_create : list ProviderCall -> string -> ChatRequest -> outcome ChatReply;
  images_generate : list ProviderCall -> string -> string -> outcome (option string)
}.

Record t := mk {
  openai : option OpenAI;
  maxRetries : Z;
  contentSafetyEnabled : bool;
  useMockMode : bool;
  OPENAI_MODEL : option string      (* process.env.OPENAI_MODEL *)
}.

(** The constructor: mock mode in a browser, or without a usable API key. *)
Definition create (isBrowser : bool) (apiKey : option string)
    (connect : string -> OpenAI) (model : option string) : t :=
  let usable :=
    match apiKey with
    | Some key => if isEmpty key || String.eqb key "your_openai_api_key_here"
                  then None else Some key
    | None => None
    end in
  match isBrowser, usable with
  | false, Some key => mk (Some (connect key)) 3 false false model
  | _, _ => mk None 3 false true model
  end.

Record SafetyVerdict := mkVerdict {
  safe : bool;
  flagged : bool;
  categories : list (string * bool)
}.

(** [this.openai!.<endpoint>(...)]: the call is recorded; without a client
    object the property access throws. *)
Definition callProvider {A} (c : t) (call : ProviderCall)
    (endpoint : OpenAI -> list ProviderCall -> outcome A) : M A :=
  fun w =>
    match openai c with
    | None => (Thrown (typeError "Cannot read properties of null"), w)
    | Some api =>
        (endpoint api (providerCalls w),
         mkWorld (scriptRateLimiter w) (imageRateLimiter w) (providerCalls w ++ [call]))
    end.

Definition unsafeCategories : list string :=
  [ "hate"; "hate/threatening"; "self-harm"; "sexual"; "sexual/minors";
    "violence"; "violence/graphic" ].

(** [categories[category] === true] *)
Fixpoint categoryIsTrue (cats : list (string * bool)) (category : string) : bool :=
  match cats with
  | [] => false
  | (k, v) :: rest => if String.eqb k category then v else categoryIsTrue rest category
  end.

Definition checkContentSafety (c : t) (content : string) : M SafetyVerdict :=
  if useMockMode c then ret (mkVerdict true false [])
  else
    tryCatch
      (let* results := callProvider c (Moderation content)
                    (fun api history => moderations_create api history content) in
       match results with
       | [] => throw (typeError "Cannot read properties of undefined")
       | result :: _ =>
           let hasUnsafeContent :=
             existsb (categoryIsTrue (m_categories result)) unsafeCategories in
           ret (mkVerdict (negb hasUnsafeContent) (m_flagged result) (m_categories result))
       end)
      (fun _ => ret (mkVerdict true false [])).

Definition validateScriptStructure (script : jsval) : bool :=
  truthy script
  && typeofIsString (getProp script "narrator_caption")
  && typeofIsString (getProp script "dialogue")
  && typeofIsString (getProp script "image_description")
  && (strLength (getProp script "narrator_caption") >? 0)
  && (strLength (getProp script "image_description") >? 0).

Definition warriorScript : Script :=
  mkScript
    "With divine fury coursing through his veins, the warrior stands resolute against the demonic horde."
    "I shall not yield!"
    "A muscular warrior in traditional Indian armor stands defiantly, wielding a glowing divine weapon. His face shows determination and divine radiance. Behind him, a dark demonic army approaches. The scene is bathed in golden light with dramatic shadows.".

Definition seekerScript : Script :=
  mkScript
    "In the sacred grove, the seeker's soul transcends mortal boundaries, touched by divine wisdom."
    "I see the truth now..."
    "A serene figure in white robes sits in meditation pose within a mystical forest. Divine light streams down from above, illuminating their peaceful expression. Sacred symbols float in the air around them, and ancient trees form a natural temple.".

Definition mockScripts : jsval :=
  JObj [ ("action", scriptVal warriorScript);
         ("spiritual", scriptVal seekerScript);
         ("default", scriptVal (mkScript
            "The ancient tale unfolds as destiny weaves its intricate pattern through the fabric of time."
            "So it begins..."
            "A majestic figure in traditional Indian attire stands before a grand temple. Their pose conveys wisdom and authority. The background shows intricate architectural details and mystical symbols. Soft lighting creates an atmosphere of reverence.")) ].

Definition anyIncluded (s : string) (words : list string) : bool :=
  existsb (fun w => includes s w) words.

Definition generateMockScript (scene sceneType : string) : jsval :=
  let lowerScene := toLowerCase scene in
  if anyIncluded lowerScene ["krishna"; "flute"; "govardhan"] then
    if anyIncluded lowerScene ["govardhan"; "lift"] then
      scriptVal (mkScript
        "With divine strength, Lord Krishna lifts the mighty Govardhan Hill to protect his devotees."
        "Fear not, my children!"
        "Krishna in his blue form holds up the massive Govardhan Hill with one finger, while villagers and animals shelter beneath. His face radiates divine protection and love. The scene shows the contrast between the massive mountain and the small figure beneath it.")
    else
      scriptVal (mkScript
        "Lord Krishna's divine flute calls forth the magic of creation itself."
        "Come, let us dance!"
        "Krishna in his characteristic blue form plays a golden flute, surrounded by mesmerized devotees and animals. His peacock feather crown gleams, and the scene is filled with divine music notes and ethereal light.")
  else if anyIncluded lowerScene ["ram"; "bow"; "arrow"; "sita"] then
    if anyIncluded lowerScene ["bow"; "break"] then
      scriptVal (mkScript
        "Prince Rama's mighty strength shatters the divine bow, proving his worthiness."
        "For Sita's hand!"
        "Rama in royal attire stands before the broken pieces of Shiva's divine bow. His face shows determination and divine power. The scene includes amazed onlookers and Sita watching with admiration. Golden light surrounds the moment of triumph.")
    else
      scriptVal (mkScript
        "Prince Rama's arrow flies true, guided by dharma and divine purpose."
        "For justice and truth!"
        "Rama in royal attire draws his mighty bow, aiming with perfect focus. His face shows determination and righteousness. The arrow glows with divine energy, and the background shows a forest setting with his loyal companions.")
  else if anyIncluded lowerScene ["hanuman"; "leap"; "mountain"] then
    scriptVal (mkScript
      "Hanuman's mighty leap carries him across the vast ocean, mountain in hand."
      "For Lord Rama!"
      "Hanuman in his orange form leaps dramatically across the ocean, carrying the Dronagiri mountain. His face shows determination and devotion. The scene captures the dynamic movement with wind effects and ocean waves below.")
  else if anyIncluded lowerScene ["shiva"; "third eye"; "cosmic"] then
    scriptVal (mkScript
      "Shiva's third eye opens, unleashing cosmic destruction upon the universe."
      "Enough!"
      "Shiva with his third eye open, radiating destructive cosmic energy. His face shows divine fury and power. The scene includes ash-covered body, serpents, and cosmic destruction effects. The background shows the universe being consumed by divine fire.")
  else if anyIncluded lowerScene ["durga"; "battle"; "demon"] then
    scriptVal (mkScript
      "Goddess Durga's divine weapons strike down the buffalo demon Mahishasura."
      "Evil shall not prevail!"
      "Durga with multiple arms wielding various divine weapons, riding her lion mount. Her face shows divine fury and determination. The scene shows the demon Mahishasura being defeated, with divine light and weapon effects.")
  else if anyIncluded lowerScene ["ganesha"; "writing"; "mahabharata"] then
    scriptVal (mkScript
      "Ganesha's wisdom flows as he writes the great epic, guided by Vyasa's words."
      "The story unfolds..."
      "Ganesha with his elephant head sits writing, while Vyasa dictates the Mahabharata. His mouse companion sits nearby. The scene shows ancient scrolls, divine wisdom, and the sacred act of preserving knowledge.")
  else if anyIncluded lowerScene ["meditation"; "spiritual"; "enlighten"] then
    scriptVal seekerScript
  else if anyIncluded lowerScene ["battle"; "fight"; "war"] then
    scriptVal warriorScript
  else
    jsOr (getProp mockScripts sceneType) (getProp mockScripts "default").

Definition unsplashA : string :=
  "https://images.unsplash.com/photo-1578662996442-48f60103fc96?w=800&h=600&fit=crop&crop=center&q=80".
Definition unsplashB : string :=
  "https://images.unsplash.com/photo-1506905925346-21bda4d32df4?w=800&h=600&fit=crop&crop=center&q=80".
Definition unsplashC : string :=
  "https://images.unsplash.com/photo-1541961017774-22349e4a1262?w=800&h=600&fit=crop&crop=center&q=80".

Definition styleImages : jsval :=
  JObj [ ("vibrant", JStr unsplashA); ("earth", JStr unsplashC); ("divine", JStr unsplashB) ].

Definition generateMockImage (prompt styleType : string) : jsval :=
  let lowerPrompt := toLowerCase prompt in
  if anyIncluded lowerPrompt ["krishna"; "flute"; "govardhan"] then JStr unsplashA
  else if anyIncluded lowerPrompt ["ram"; "bow"; "arrow"; "sita"] then JStr unsplashB
  else if anyIncluded lowerPrompt ["hanuman"; "monkey"; "leap"; "mountain"] then JStr unsplashC
  else if anyIncluded lowerPrompt ["shiva"; "meditation"; "third eye"; "cosmic"] then JStr unsplashB
  else if anyIncluded lowerPrompt ["durga"; "battle"; "demon"; "weapon"] then JStr unsplashA
  else if anyIncluded lowerPrompt ["ganesha"; "wisdom"; "writing"; "elephant"] then JStr unsplashC
  else if anyIncluded lowerPrompt ["temple"; "spiritual"; "divine"; "sacred"] then JStr unsplashB
  else if anyIncluded lowerPrompt ["battle"; "fight"; "war"; "attack"] then JStr unsplashA
  else jsOr (getProp styleImages styleType) (getProp styleImages "vibrant").

Definition defaultScript : Script :=
  mkScript
    "The ancient tale unfolds as destiny weaves its intricate pattern."
    "So it begins..."
    "A majestic figure in traditional Indian attire stands before a grand temple with intricate architectural details and mystical symbols.".

Definition primaryModel (c : t) : string :=
  match OPENAI_MODEL c with
  | Some m => if isEmpty m then "gpt-4o-mini" else m
  | None => "gpt-4o-mini"
  end.

(** One attempt against [model]: the completion, [JSON.parse] and the
    structural check, each of which may throw. *)
Definition completeScript (c : t) (model scene sceneType : string) (noContent invalid : string)
  : M jsval :=
  let* reply := callProvider c (ChatCompletion model (ScriptPrompt scene sceneType))
             (fun api history =>
                chat_completions_create api history model (ScriptPrompt scene sceneType)) in
  match reply with
  | NoContent => throw (newError noContent)
  | Content (Thrown syntaxError) => throw syntaxError
  | Content (Returned script) =>
      if negb (validateScriptStructure script) then throw (newError invalid)
      else ret script
  end.

(** [error?.error?.code === 'model_not_found' || error.message.includes('model_not_found')] *)
Definition isModelNotFound (e : exn) : bool :=
  match exn_code e with
  | Some code => String.eqb code "model_not_found"
  | None => false
  end
  || includes (exn_message e) "model_not_found".

Definition generateScript (c : t) (scene sceneType : string) : M jsval :=
  if useMockMode c then
    tryCatch
      (let mockScript := generateMockScript scene sceneType in
       if negb (validateScriptStructure mockScript)
       then throw (newError "Invalid mock script structure: Missing required fields or empty required values")
       else ret mockScript)
      (fun _ =>
         if negb (validateScriptStructure (scriptVal defaultScript))
         then throw (newError "Failed to generate script: Default script structure is invalid")
         else ret (scriptVal defaultScript))
  else
    tryCatch
      (completeScript c (primaryModel c) scene sceneType
         "No response content from AI" "Invalid script structure from AI")
      (fun error =>
         if negb (isModelNotFound error)
         then throw (newError "Failed to generate script. Please try again.")
         else
           tryCatch
             (completeScript c "gpt-3.5-turbo" scene sceneType
                "No response content from fallback model"
                "Invalid script structure from fallback model")
             (fun _ => throw (newError "Failed to generate script. Please try again."))).

Definition generateImage (c : t) (prompt styleType : string) : M jsval :=
  if useMockMode c then ret (generateMockImage prompt styleType)
  else
    tryCatch
      (let* _ :=
         (if contentSafetyEnabled c then
            let* safetyCheck := checkContentSafety c prompt in
            if negb (safe safetyCheck)
            then throw (newError "Image prompt contains inappropriate content")
            else ret tt
          else ret tt) in
       let* imageUrl := callProvider c (ImageGeneration prompt styleType)
                          (fun api history => images_generate api history prompt styleType) in
       match imageUrl with
       | Some url => if isEmpty url then throw (newError "No image URL returned from DALL-E")
                     else ret (JStr url)
       | None => throw (newError "No image URL returned from DALL-E")
       end)
      (fun _ => throw (newError "Failed to generate image. Please try again.")).

(** [validateQuality]: what the reviewing model answers, parsed. *)
Definition validateQuality (c : t) (script : jsval) (scene : string) : M jsval :=
  let neutral (suggestions : list jsval) :=
    JObj [("valid", JBool true); ("issues", JArr []); ("suggestions", JArr suggestions)] in
  if useMockMode c then
    ret (neutral [JStr "Consider adding more cultural details for authenticity"])
  else
    tryCatch
      (let* reply := callProvider c (ChatCompletion (primaryModel c) (QualityPrompt script scene))
                  (fun api history =>
                     chat_completions_create api history (primaryModel c)
                                             (QualityPrompt script scene)) in
       match reply with
       | NoContent => ret (neutral [])
       | Content (Thrown syntaxError) => throw syntaxError
       | Content (Returned v) => ret v
       end)
      (fun _ => ret (neutral [])).


(** The specification's reading of the structural check: the spoken line
    is optional. *)
Definition dialogueIsOptional : Prop :=
  ∀ (script : jsval) (n v : string),
    getProp script "narrator_caption" = JStr n →
    getProp script "image_description" = JStr v →
    n ≠ "" → v ≠ "" →
    validateScriptStructure script = true.

(** A provider that cannot be reached. *)
Definition offline : OpenAI :=
  mkOpenAI (fun _ _ => Thrown (newError "connection refused"))
           (fun _ _ _ => Thrown (newError "connection refused"))
           (fun _ _ _ => Thrown (newError "connection refused")).

(** The client of a process without an API key. *)
Definition unconfigured : t := create false None (fun _ => offline) None.

End AIClient.

(** ** The request handlers (src/app/api) *)

Module Route.

(** What a handler uses of the client object. *)
Record ClientOps := mkOps {
  checkContentSafety : string -> M AIClient.SafetyVerdict;
  generateScript : string -> string -> M jsval;
  validateQuality : jsval -> string -> M jsval
}.

(** The exported singleton [aiClient]. *)
Definition aiClient (c : AIClient.t) : ClientOps :=
  {| checkContentSafety := AIClient.checkContentSafety c;
     generateScript := AIClient.generateScript c;
     validateQuality := AIClient.validateQuality c |}.

Record Request := mkRequest {
  scene : jsval;                    (* body.scene *)
  sceneType : option string;        (* body.sceneType, when present *)
  ip : option string;               (* request.ip *)
  forwardedFor : option string      (* the x-forwarded-for header *)
}.

(** The JSON body of a response; the [timestamp] of the success body is
    left out. *)
Inductive Body :=
| ErrorBody (error : string) (resetTime : option Z)
| ScriptBody (script : jsval) (scene sceneType : string) (wordCount : Z)
             (remaining resetTime : Z).

Record Response := mkResponse { status : Z; body : Body }.

Definition requiredError : Response :=
  mkResponse 400 (ErrorBody "Scene description is required" None).
Definition wordCountError : Response :=
  mkResponse 400 (ErrorBody "Scene description should be 3-20 words for optimal results" None).
Definition rateLimitError (resetTime : Z) : Response :=
  mkResponse 429 (ErrorBody "Rate limit exceeded. Please try again later." (Some resetTime)).
Definition unsafeInputError : Response :=
  mkResponse 400 (ErrorBody "Scene description contains inappropriate content. Please modify your request." None).
Definition generationError : Response :=
  mkResponse 500 (ErrorBody "Failed to generate script. Please try again." None).

(** [a || b] on header values that may be missing *)
Definition orElse (a b : option string) : option string :=
  match a with
  | Some x => if isEmpty x then b else a
  | None => b
  end.

(** [request.ip || request.headers.get('x-forwarded-for') || 'unknown'] *)
Definition clientIP (req : Request) : string :=
  match orElse (orElse (ip req) (forwardedFor req)) (Some "unknown") with
  | Some x => x
  | None => "unknown"
  end.

(** [scene.trim().split(/\s+/).length] *)
Definition sceneWordCount (sceneText : string) : Z :=
  Z.of_nat (length (split_whitespace (trim sceneText))).

(** [scriptRateLimiter.isAllowed(clientIP)] *)
Definition admitScript (now : Z) (identity : string) : M RateLimiter.Decision :=
  fun w =>
    let '(d, rl) := RateLimiter.isAllowed now identity (scriptRateLimiter w) in
    (Returned d, mkWorld rl (imageRateLimiter w) (providerCalls w)).

(** The safety block: [Some r] when the handler returns [r] from it. *)
Definition safetyGate (ops : ClientOps) (sceneText : string) : M (option Response) :=
  tryCatch
    (let* safetyCheck := checkContentSafety ops sceneText in
     if negb (AIClient.safe safetyCheck) then ret (Some unsafeInputError) else ret None)
    (fun _ => ret None).

(** The quality block: the verdict is only logged. *)
Definition qualityGate (ops : ClientOps) (script : jsval) (sceneText : string) : M unit :=
  tryCatch
    (let* qualityCheck := validateQuality ops script sceneText in
     match qualityCheck with
     | JUndefined | JNull => throw (typeError "Cannot read properties of null")
     | _ => ret tt
     end)
    (fun _ => ret tt).

(** The handler from the generation step on. *)
Definition generationStage (ops : ClientOps) (sceneText sceneTy : string) (wordCount : Z)
    (rateLimit : RateLimiter.Decision) : M Response :=
  let* script := generateScript ops sceneText sceneTy in
  let* _ := qualityGate ops script sceneText in
  ret (mkResponse 200
         (ScriptBody script sceneText sceneTy wordCount
                     (RateLimiter.remaining rateLimit) (RateLimiter.resetAt rateLimit))).

(** The body of the outer [try] of [POST]. *)
Definition handle (ops : ClientOps) (now : Z) (req : Request) : M Response :=
  let sceneTy := match sceneType req with Some t => t | None => "general" end in
  if negb (truthy (scene req)) then ret requiredError
  else
    match scene req with
    | JStr sceneText =>
        if len (trim sceneText) =? 0 then ret requiredError
        else
          let wordCount := sceneWordCount sceneText in
          if (wordCount <? 3) || (wordCount >? 20) then ret wordCountError
          else
            let* rateLimit := admitScript now (clientIP req) in
            if negb (RateLimiter.allowed rateLimit)
            then ret (rateLimitError (RateLimiter.resetAt rateLimit))
            else
              let* gate := safetyGate ops sceneText in
              match gate with
              | Some response => ret response
              | None => generationStage ops sceneText sceneTy wordCount rateLimit
              end
    | _ => throw (typeError "scene.trim is not a function")
    end.

(** [POST] of src/app/api/generate-script/route.ts *)
Definition POST (ops : ClientOps) (now : Z) (req : Request) (w : World) : Response * World :=
  match handle ops now req w with
  | (Returned response, w') => (response, w')
  | (Thrown _, w') => (generationError, w')
  end.

(** The inline check of the combined handler
    (src/app/api/generate-image/route.ts, second file): [true] when it does
    not throw. *)
Definition inlineScriptCheck (script : jsval) : bool :=
  negb (negb (truthy script)
        || negb (typeofIsString (getProp script "narrator_caption"))
        || negb (typeofIsString (getProp script "dialogue"))
        || negb (typeofIsString (getProp script "image_description"))
        || (trimmedLength (getProp script "narrator_caption") =? 0)
        || (trimmedLength (getProp script "image_description") =? 0)).


(** A client whose safety check answers "safe" whenever that of [ops]
    throws, and is [ops] otherwise. *)
Definition failOpen (ops : ClientOps) : ClientOps :=
  {| checkContentSafety := fun sceneText =>
       tryCatch (checkContentSafety ops sceneText)
                (fun _ => ret (AIClient.mkVerdict true false []));
     generateScript := generateScript ops;
     validateQuality := validateQuality ops |}.

Definition outOfRange (sceneText : string) : Prop :=
  sceneWordCount sceneText < 3 ∨ 20 < sceneWordCount sceneText.

Definition inRange (sceneText : string) : Prop :=
  3 ≤ sceneWordCount sceneText ≤ 20.

(** The specification's reading: every scene whose trimmed text has a word
    count outside 3..20 is answered with the word-count error. *)
Definition alwaysWordCountError : Prop :=
  ∀ ops now req w sceneText,
    scene req = JStr sceneText → outOfRange sceneText →
    (POST ops now req w).1 = wordCountError.

(** The mock client behind a moderation step that always throws. *)
Definition faultyModeration : ClientOps :=
  {| checkContentSafety := fun _ => throw (newError "moderation unavailable");
     generateScript := AIClient.generateScript AIClient.unconfigured;
     validateQuality := AIClient.validateQuality AIClient.unconfigured |}.

(** The world of a process that has served no request yet (production
    ceilings). *)
Definition initialWorld : World :=
  mkWorld (RateLimiter.create 10 60000) (RateLimiter.create 5 60000) [].

End Route.

(** ** Accuracy checks and suggestions (src/unnamed/part_002, second half) *)

Module ContentAccuracy.

Record MythologyAccuracyCheck := mkCheck {
  accurate : bool;
  issues : list string;
  suggestions : list string;
  culturalContext : list string
}.

Definition start : MythologyAccuracyCheck := mkCheck true [] [] [].

(** The double-quote character, for the one message that quotes words. *)
Definition dquote : string := String (ascii_of_nat 34) EmptyString.

(** [accurate = false; issues.push(issue); suggestions.push(suggestion)] *)
Definition violate (issue suggestion : string) (r : MythologyAccuracyCheck)
  : MythologyAccuracyCheck :=
  mkCheck false (issues r ++ [issue])%list (suggestions r ++ [suggestion])%list
          (culturalContext r).

Definition addContext (context : list string) (r : MythologyAccuracyCheck)
  : MythologyAccuracyCheck :=
  mkCheck (accurate r) (issues r) (suggestions r) (culturalContext r ++ context)%list.

Definition idolSuggestion : string :=
  ("Use " ++ dquote ++ "deity" ++ dquote ++ " or " ++ dquote ++ "divine image"
   ++ dquote ++ " instead of " ++ dquote ++ "idol" ++ dquote)%string.

(** One [if (charLower.includes(name)) { ... }] block. *)
Definition characterBlock (charLower lowerContent name word1 word2 issue suggestion : string)
    (context : list string) (r : MythologyAccuracyCheck) : MythologyAccuracyCheck :=
  if includes charLower name then
    addContext context
      (if includes lowerContent word1 || includes lowerContent word2
       then violate issue suggestion r else r)
  else r.

Definition checkMythologyAccuracy (content : string) (character : option string)
  : MythologyAccuracyCheck :=
  let lowerContent := toLowerCase content in
  let r1 :=
    match character with
    | Some ch =>
        if isEmpty ch then start
        else
          let charLower := toLowerCase ch in
          let k :=
            characterBlock charLower lowerContent "krishna" "evil" "destructive"
              "Krishna is typically portrayed as benevolent and protective"
              "Focus on Krishna's divine nature and protective qualities"
              ["Vaishnavism"; "Bhagavad Gita"; "Bhakti tradition"] start in
          let h :=
            characterBlock charLower lowerContent "hanuman" "disloyal" "corrupt"
              "Hanuman is known for his unwavering loyalty and devotion"
              "Emphasize Hanuman's loyalty and devotion to Rama"
              ["Ramayana"; "Bhakti"; "Devotion"] k in
          characterBlock charLower lowerContent "shiva" "evil" "corrupt"
            "Shiva is a complex deity, not inherently evil"
            "Focus on Shiva's role as destroyer of ignorance and ego"
            ["Shaivism"; "Yoga"; "Meditation"] h
    | None => start
    end in
  let r2 :=
    if includes lowerContent "caste" || includes lowerContent "untouchable"
    then violate "Avoid references to caste discrimination"
                 "Focus on universal spiritual values and divine qualities" r1
    else r1 in
  if includes lowerContent "idol" || includes lowerContent "idol worship"
  then mkCheck (accurate r2) (issues r2)
         (suggestions r2 ++ [idolSuggestion])%list
         (culturalContext r2)
  else r2.

(** [if (cond) suggestions.push(text)] *)
Definition suggestWhen (cond : bool) (text : string) (acc : list string) : list string :=
  if cond then (acc ++ [text])%list else acc.

Definition getContentEnhancementSuggestions (content : string) : list string :=
  let lowerContent := toLowerCase content in
  let s1 := suggestWhen (negb (includes lowerContent "divine") && negb (includes lowerContent "sacred"))
              "Add divine or sacred elements to enhance mythological significance" [] in
  let s2 := suggestWhen (negb (includes lowerContent "ancient") && negb (includes lowerContent "traditional"))
              "Include references to ancient or traditional aspects" s1 in
  let s3 := suggestWhen (negb (includes lowerContent "spiritual") && negb (includes lowerContent "cosmic"))
              "Add spiritual or cosmic elements for deeper meaning" s2 in
  let s4 := suggestWhen (includes lowerContent "krishna")
              "Mention Krishna's divine nature and protective qualities" s3 in
  let s5 := suggestWhen (includes lowerContent "hanuman")
              "Emphasize Hanuman's devotion and strength" s4 in
  suggestWhen (includes lowerContent "shiva")
    "Include Shiva's yogic and cosmic aspects" s5.

Record ContentValidation := mkValidation {
  valid : bool;
  safety : ContentSafety.SafetyCheckResult;
  accuracy : MythologyAccuracyCheck;
  allSuggestions : list string
}.

Definition validateContent (content : string) : ContentValidation :=
  let safety := ContentSafety.checkContentSafety content in
  let accuracy := checkMythologyAccuracy content None in
  let enhancementSuggestions := getContentEnhancementSuggestions content in
  {| valid := ContentSafety.safe safety && accurate accuracy;
     safety := safety;
     accuracy := accuracy;
     allSuggestions :=
       (ContentSafety.suggestions safety ++ suggestions accuracy ++ enhancementSuggestions)%list |}.

End ContentAccuracy.

(** ** Image prompts (src/app/api/generate-image/route.ts and
       [enhanceImagePrompt] of src/lib/ai-client.ts) *)

Module Prompts.

(** The text a template literal makes of a value looked up in an object
    literal of strings: the string itself, or the text of the inherited
    built-in ([function toString() { [native code] }], as Node prints it). *)
Definition lookupText (table : jsval) (key : string) : jsval * string :=
  let v := getProp table key in
  (v,
   match v with
   | JStr s => s
   | JFun => "function " ++ (if String.eqb key "constructor" then "Object" else key)
             ++ "() { [native code] }"
   | JObj _ => "[object Object]"
   | _ => "undefined"
   end).

(** [table[key] || table[fallback]], as text *)
Definition textOr (table : jsval) (key fallback : string) : string :=
  if truthy (lookupText table key).1 then (lookupText table key).2
  else (lookupText table fallback).2.

Definition STYLE_core : string :=
  "classic Indian comic book art, Amar Chitra Katha inspired, vintage mythological illustration".
Definition STYLE_visual : string :=
  "bold black outlines, flat color areas, dramatic composition, heroic proportions, decorative borders, traditional Indian art elements".
Definition STYLE_technical : string :=
  "high detail, sharp focus, professional illustration, clean vector-style art, print-ready quality".

Definition COLOR_PALETTES : jsval :=
  JObj [ ("vibrant", JStr "rich jewel tones, golden highlights, deep saturated colors");
         ("earth", JStr "warm earth tones, ochre and vermillion, natural pigment colors");
         ("divine", JStr "ethereal blues and golds, divine radiance, celestial color palette") ].

Definition SCENE_ENHANCEMENTS : jsval :=
  JObj [ ("action", JStr "dynamic action lines, impact effects, heroic proportions");
         ("spiritual", JStr "divine radiance, ethereal lighting, cosmic background");
         ("general", JStr "mythological grandeur, cultural authenticity, emotional depth") ].

Definition CHARACTER_STYLES : list (string * string) :=
  [ ("krishna", "dark blue skin, peacock feather crown, yellow silk garments");
    ("hanuman", "orange fur, muscular build, devotional expression");
    ("shiva", "ash-covered skin, third eye, serpents, tiger skin");
    ("durga", "multiple arms, various weapons, riding a tiger/lion");
    ("rama", "noble bearing, bow and arrows, royal garments");
    ("ganesha", "elephant head, rotund belly, mouse companion") ].

(** The loop with its [break]: the style of the first character named. *)
Fixpoint characterStyle (lowerDescription : string) (table : list (string * string)) : string :=
  match table with
  | [] => EmptyString
  | (character, style) :: rest =>
      if includes lowerDescription character then ", " ++ style
      else characterStyle lowerDescription rest
  end.

Definition constructImagePrompt (imageDescription styleType sceneType : string) : string :=
  let lowerDescription := toLowerCase imageDescription in
  let colorPalette := textOr COLOR_PALETTES styleType "vibrant" in
  let sceneEnhancement := textOr SCENE_ENHANCEMENTS sceneType "general" in
  imageDescription ++ characterStyle lowerDescription CHARACTER_STYLES
  ++ ", " ++ STYLE_core ++ ", " ++ STYLE_visual ++ ", " ++ colorPalette
  ++ ", " ++ sceneEnhancement ++ ", " ++ STYLE_technical.


End Prompts.


(** ** Character recognition and style (src/unnamed/part_000, second half) *)

Module Characters.

Record CharacterProfile := mkProfile {
  name : string;
  aliases : list string;
  appearance : list string;
  weapons : list string;
  vehicles : list string;
  companions : list string;
  styleKeywords : list string;
  colorPreferences : list string;
  culturalContext : list string
}.

(** The entries of [CHARACTER_DATABASE], in the order of the object literal. *)
Definition CHARACTER_DATABASE : list (string * CharacterProfile) :=
  [ ("krishna",
      mkProfile "Krishna"
        ["krishna"; "krishn"; "kanha"; "gopal"; "madhava"; "govinda"]
        ["dark blue skin"; "peacock feather crown"; "yellow silk garments"; "golden ornaments";
         "lotus flower"; "flute"; "cowherd attire"; "divine aura"; "youthful appearance"]
        ["sudarshana chakra"; "kaumodaki mace"; "sharanga bow"; "nandaka sword"]
        ["garuda"; "eagle"]
        ["radha"; "gopis"; "cows"; "peacocks"]
        ["divine"; "youthful"; "playful"; "majestic"; "pastoral"]
        ["blue"; "yellow"; "gold"; "green"; "white"]
        ["vaishnavism"; "bhakti"; "gita"; "mathura"; "vrindavan"]);
    ("hanuman",
      mkProfile "Hanuman"
        ["hanuman"; "hanumant"; "anjani"; "maruti"; "pavanasuta"]
        ["orange fur"; "muscular build"; "long tail"; "devotional expression";
         "rudraksha beads"; "sacred thread"; "monkey form"; "divine strength"]
        ["gada"; "mace"; "divine power"]
        ["clouds"; "wind"]
        ["rama"; "lakshmana"; "sita"; "vanaras"]
        ["devotional"; "powerful"; "loyal"; "monkey"; "strength"]
        ["orange"; "red"; "saffron"; "gold"]
        ["ramayana"; "vaishnavism"; "bhakti"; "devotion"]);
    ("shiva",
      mkProfile "Shiva"
        ["shiva"; "mahadeva"; "rudra"; "bholenath"; "shankar"; "trilokinath"]
        ["ash-covered skin"; "third eye"; "serpents around neck"; "tiger skin";
         "matted hair"; "crescent moon"; "trident"; "damru"; "blue throat"]
        ["trishula"; "damru"; "pinaka bow"; "parashu axe"]
        ["nandi"; "bull"]
        ["parvati"; "ganesha"; "kartikeya"; "nandi"]
        ["ascetic"; "destroyer"; "yogi"; "cosmic"; "mystical"]
        ["ash"; "white"; "blue"; "red"; "orange"]
        ["shaivism"; "yoga"; "meditation"; "kailash"; "destruction"]);
    ("durga",
      mkProfile "Durga"
        ["durga"; "devi"; "shakti"; "parvati"; "ambika"; "chandi"]
        ["multiple arms"; "various weapons"; "riding tiger/lion"; "beautiful form";
         "divine radiance"; "warrior goddess"; "protective mother"; "fierce expression"]
        ["trishula"; "sword"; "bow"; "arrow"; "chakra"; "conch"]
        ["tiger"; "lion"]
        ["goddesses"; "demons"; "devotees"]
        ["warrior"; "protective"; "fierce"; "beautiful"; "divine"]
        ["red"; "gold"; "orange"; "yellow"; "white"]
        ["shaktism"; "navratri"; "protection"; "feminine power"]);
    ("rama",
      mkProfile "Rama"
        ["rama"; "ram"; "ramachandra"; "maryada purushottam"; "ayodhya"]
        ["noble bearing"; "bow and arrows"; "royal garments"; "crown";
         "divine aura"; "righteous king"; "blue skin"; "lotus eyes"]
        ["kodanda bow"; "arrows"; "sword"]
        ["pushpaka vimana"; "chariot"]
        ["sita"; "lakshmana"; "hanuman"; "bharata"]
        ["noble"; "righteous"; "royal"; "warrior"; "ideal"]
        ["blue"; "gold"; "white"; "red"]
        ["ramayana"; "dharma"; "righteousness"; "ayodhya"]);
    ("ganesha",
      mkProfile "Ganesha"
        ["ganesha"; "ganesh"; "ganapati"; "vighnaharta"; "ekadanta"]
        ["elephant head"; "rotund belly"; "mouse companion"; "modak sweets";
         "broken tusk"; "trunk"; "large ears"; "auspicious form"]
        ["axe"; "noose"; "goad"]
        ["mouse"; "rat"]
        ["mouse"; "modak"; "lotus"]
        ["auspicious"; "wise"; "remover of obstacles"; "elephant"; "beloved"]
        ["red"; "orange"; "yellow"; "gold"]
        ["ganesh chaturthi"; "auspicious beginnings"; "wisdom"; "success"]);
    ("arjuna",
      mkProfile "Arjuna"
        ["arjuna"; "arjun"; "phalguna"; "kiriti"; "savyasachi"]
        ["handsome warrior"; "bow and arrows"; "armor"; "crown";
         "divine chariot"; "krishna as charioteer"; "white horses"]
        ["gandiva bow"; "celestial arrows"; "sword"; "mace"]
        ["divine chariot"]
        ["krishna"; "draupadi"; "pandavas"]
        ["warrior"; "archer"; "noble"; "skilled"; "divine"]
        ["white"; "gold"; "blue"; "red"]
        ["mahabharata"; "kurukshetra"; "gita"; "archery"]);
    ("sita",
      mkProfile "Sita"
        ["sita"; "janaki"; "vaidehi"; "rama's wife"; "earth's daughter"]
        ["beautiful form"; "golden complexion"; "lotus eyes"; "royal garments";
         "divine beauty"; "lotus flower"; "golden ornaments"]
        ["divine power"; "chastity"]
        ["pushpaka vimana"]
        ["rama"; "lakshmana"; "hanuman"]
        ["beautiful"; "virtuous"; "royal"; "divine"; "feminine"]
        ["gold"; "yellow"; "white"; "red"; "orange"]
        ["ramayana"; "virtue"; "chastity"; "ayodhya"; "feminine power"]) ].

Definition hasAlias (lowerScene : string) (profile : CharacterProfile) : bool :=
  existsb (fun alias => includes lowerScene (toLowerCase alias)) (aliases profile).

(** The loop of [recognizeCharacter] over a part of the database. *)
Fixpoint firstWithAlias (lowerScene : string) (entries : list (string * CharacterProfile))
  : option CharacterProfile :=
  match entries with
  | [] => None
  | (_, profile) :: rest =>
      if hasAlias lowerScene profile then Some profile
      else firstWithAlias lowerScene rest
  end.

Definition recognizeCharacter (scene : string) : option CharacterProfile :=
  firstWithAlias (toLowerCase scene) CHARACTER_DATABASE.








End Characters.

(** ** The client-side helpers (src/lib/api-client.ts) *)

Module ApiClient.

Definition detectSceneType (scene : string) : string :=
  let lowerScene := toLowerCase scene in
  if existsb (fun keyword => includes lowerScene keyword)
       ["battle"; "fight"; "leap"; "lift"; "destroy"; "attack"; "war"; "defeat"; "strike"; "throw"]
  then "action"
  else if existsb (fun keyword => includes lowerScene keyword)
       ["meditate"; "enlighten"; "divine"; "cosmic"; "third eye"; "blessing"; "prayer";
        "wisdom"; "transcend"]
  then "spiritual"
  else "general".

Definition detectStyleType (scene : string) : string :=
  let lowerScene := toLowerCase scene in
  if existsb (fun keyword => includes lowerScene keyword)
       ["cosmic"; "divine"; "celestial"; "third eye"; "enlighten"; "transcend"; "heaven"; "gods"]
  then "divine"
  else if existsb (fun keyword => includes lowerScene keyword)
       ["mountain"; "forest"; "earth"; "nature"; "village"; "ground"; "tree"; "river"]
  then "earth"
  else "vibrant".

Record SceneValidation := mkSceneValidation { isValid : bool; error : option string }.

Definition validateSceneInput (scene : string) : SceneValidation :=
  if isEmpty scene || (len (trim scene) =? 0) then
    mkSceneValidation false (Some "Scene description cannot be empty")
  else
    let wordCount := Z.of_nat (length (split_whitespace (trim scene))) in
    if wordCount <? 3 then
      mkSceneValidation false
        (Some "Scene description is too short. Please provide at least 3 words.")
    else if wordCount >? 20 then
      mkSceneValidation false
        (Some "Scene description is too long. Please keep it under 20 words for best results.")
    else mkSceneValidation true None.

(** What [fetch] resolves to: [response.ok] and what [response.json()] gives. *)
Record HttpResponse := mkHttp { ok : bool; json : outcome jsval }.

Inductive PanelResult :=
| Panel (body : jsval)
| Failure (error details errorType : string).

(** The message of the [Error] thrown for a response that is not [ok]:
    [errorData.error] when [errorData] is an object with a string [error]. *)
Definition panelErrorMessage (errorData : jsval) : string :=
  match errorData with
  | JObj fields =>
      match ownProperty fields "error" with
      | Some (JStr message) => message
      | _ => "Failed to generate complete comic panel"
      end
  | _ => "Failed to generate complete comic panel"
  end.

(** The [catch] block of [generateCompleteComicPanel] (the stack is left out). *)
Definition classify (errorMessage : string) : PanelResult :=
  if includes errorMessage "script" || includes errorMessage "Script" then
    Failure "Failed to generate script. Please try again with a different scene description."
            errorMessage "script_generation_error"
  else if includes errorMessage "image" || includes errorMessage "Image" then
    Failure "Failed to generate image. Please try again with a different scene description."
            errorMessage "image_generation_error"
  else
    Failure "Failed to generate complete comic panel. Please try again."
            errorMessage "general_error".

(** [generateCompleteComicPanel], given what the [fetch] of
    [/api/complete-comic-panel] does. *)
Definition generateCompleteComicPanel (fetched : outcome HttpResponse) : PanelResult :=
  match fetched with
  | Thrown e => classify (exn_message e)
  | Returned response =>
      match json response with
      | Thrown e => classify (exn_message e)
      | Returned data =>
          if negb (ok response) then classify (panelErrorMessage data)
          else Panel data
      end
  end.

End ApiClient.


(** ** The image-stage, combined and reset handlers (src/app/api) *)

Module Handlers.
Import Route.

(** The client object with the image capability the other handlers use. *)
Record FullOps := mkFull {
  base : ClientOps;
  generateImage : string -> string -> M jsval
}.

Definition fullClient (c : AIClient.t) : FullOps :=
  {| base := aiClient c; generateImage := AIClient.generateImage c |}.

(** [imageRateLimiter.isAllowed(clientIP)] *)
Definition admitImage (now : Z) (identity : string) : M RateLimiter.Decision :=
  fun w =>
    let '(d, rl) := RateLimiter.isAllowed now identity (imageRateLimiter w) in
    (Returned d, mkWorld (scriptRateLimiter w) rl (providerCalls w)).

(** *** [POST] of src/app/api/generate-image/route.ts *)

Record ImageRequest := mkImageRequest {
  imageDescription : jsval;
  i_styleType : option string;
  i_sceneType : option string;
  i_ip : option string;
  i_forwardedFor : option string
}.

Inductive ImageBody :=
| ImageError (error : string) (resetTime : option Z)
| ImageOk (imageUrl : jsval) (prompt styleType sceneType : string) (remaining resetTime : Z).

Record ImageResponse := mkImageResponse { i_status : Z; i_body : ImageBody }.

Definition imageRequired : ImageResponse :=
  mkImageResponse 400 (ImageError "Image description is required" None).
Definition imageRateLimited (resetTime : Z) : ImageResponse :=
  mkImageResponse 429 (ImageError "Rate limit exceeded. Please try again later." (Some resetTime)).
Definition imageUnsafe : ImageResponse :=
  mkImageResponse 400
    (ImageError "Image description contains inappropriate content. Please modify your request." None).
Definition imageFailed : ImageResponse :=
  mkImageResponse 500 (ImageError "Failed to generate image. Please try again." None).

Definition imageClientIP (req : ImageRequest) : string :=
  match orElse (orElse (i_ip req) (i_forwardedFor req)) (Some "unknown") with
  | Some x => x
  | None => "unknown"
  end.

Definition imageSafetyGate (ops : FullOps) (description : string) : M (option ImageResponse) :=
  tryCatch
    (let* safetyCheck := checkContentSafety (base ops) description in
     if negb (AIClient.safe safetyCheck) then ret (Some imageUnsafe) else ret None)
    (fun _ => ret None).

Definition handleImage (ops : FullOps) (now : Z) (req : ImageRequest) : M ImageResponse :=
  let styleTy := match i_styleType req with Some t => t | None => "vibrant" end in
  let sceneTy := match i_sceneType req with Some t => t | None => "general" end in
  if negb (truthy (imageDescription req)) then ret imageRequired
  else
    match imageDescription req with
    | JStr description =>
        if len (trim description) =? 0 then ret imageRequired
        else
          let* rateLimit := admitImage now (imageClientIP req) in
          if negb (RateLimiter.allowed rateLimit)
          then ret (imageRateLimited (RateLimiter.resetAt rateLimit))
          else
            let* gate := imageSafetyGate ops description in
            match gate with
            | Some response => ret response
            | None =>
                let* imageUrl := generateImage ops description styleTy in
                let fullPrompt := Prompts.constructImagePrompt description styleTy sceneTy in
                ret (mkImageResponse 200
                       (ImageOk imageUrl fullPrompt styleTy sceneTy
                                (RateLimiter.remaining rateLimit)
                                (RateLimiter.resetAt rateLimit)))
            end
    | _ => throw (typeError "imageDescription.trim is not a function")
    end.

Definition imagePOST (ops : FullOps) (now : Z) (req : ImageRequest) (w : World)
  : ImageResponse * World :=
  match handleImage ops now req w with
  | (Returned response, w') => (response, w')
  | (Thrown _, w') => (imageFailed, w')
  end.

(** *** [POST] of the combined handler (second file of
        src/app/api/generate-image/route.ts) *)

Record PanelRequest := mkPanelRequest {
  p_scene : jsval;
  p_sceneType : option string;
  p_styleType : option string;
  p_forwardedFor : option string
}.

Inductive PanelBody :=
| PanelError (error : string) (resetTime : option Z)
| PanelFailure (error : string) (successFalse : bool)     (* [details] is left out *)
| PanelOk (script imageUrl : jsval) (scene sceneType styleType : string)
          (scriptRemaining imageRemaining resetTime : Z).

Record PanelResponse := mkPanelResponse { p_status : Z; p_body : PanelBody }.

Definition panelRequired : PanelResponse :=
  mkPanelResponse 400 (PanelError "Scene description is required" None).
Definition panelWordCount : PanelResponse :=
  mkPanelResponse 400
    (PanelError "Scene description should be 3-20 words for optimal results" None).
Definition panelScriptLimited (resetTime : Z) : PanelResponse :=
  mkPanelResponse 429
    (PanelError "Script generation rate limit exceeded. Please try again later." (Some resetTime)).
Definition panelUnsafe : PanelResponse :=
  mkPanelResponse 400
    (PanelError "Scene description contains inappropriate content. Please modify your request." None).
Definition panelImageLimited (resetTime : Z) : PanelResponse :=
  mkPanelResponse 429
    (PanelError "Image generation rate limit exceeded. Please try again later." (Some resetTime)).

(** [request.headers.get('x-forwarded-for') || 'unknown'] *)
Definition panelClientIP (req : PanelRequest) : string :=
  match orElse (p_forwardedFor req) (Some "unknown") with
  | Some x => x
  | None => "unknown"
  end.

Definition panelSafetyGate (ops : FullOps) (sceneText : string) : M (option PanelResponse) :=
  tryCatch
    (let* safetyCheck := checkContentSafety (base ops) sceneText in
     if negb (AIClient.safe safetyCheck) then ret (Some panelUnsafe) else ret None)
    (fun _ => ret None).

(** The inner [try]: the script, or the response of its [catch]. *)
Definition panelScript (ops : FullOps) (sceneText sceneTy : string)
  : M (jsval + PanelResponse) :=
  tryCatch
    (let* script := generateScript (base ops) sceneText sceneTy in
     if negb (inlineScriptCheck script)
     then throw (newError "Generated script is incomplete or invalid: Missing required fields or empty required values")
     else ret (inl script))
    (fun error => ret (inr (mkPanelResponse 500 (PanelFailure (exn_message error) true)))).

(** [script.image_description] of a script that passed the inline check *)
Definition imageDescriptionOf (script : jsval) : string :=
  match getProp script "image_description" with
  | JStr d => d
  | _ => "undefined"
  end.

(** The handler reads the clock twice, once inside each limiter's check,
    with the awaited calls of the provider in between: [now] is the time of
    the script limiter's check, [later] that of the image limiter's. *)
Definition handlePanel (ops : FullOps) (now later : Z) (req : PanelRequest) : M PanelResponse :=
  let sceneTy := match p_sceneType req with Some t => t | None => "general" end in
  let styleTy := match p_styleType req with Some t => t | None => "vibrant" end in
  if negb (truthy (p_scene req)) then ret panelRequired
  else
    match p_scene req with
    | JStr sceneText =>
        if len (trim sceneText) =? 0 then ret panelRequired
        else
          let wordCount := sceneWordCount sceneText in
          if (wordCount <? 3) || (wordCount >? 20) then ret panelWordCount
          else
            let* scriptRateLimit := admitScript now (panelClientIP req) in
            if negb (RateLimiter.allowed scriptRateLimit)
            then ret (panelScriptLimited (RateLimiter.resetAt scriptRateLimit))
            else
              let* gate := panelSafetyGate ops sceneText in
              match gate with
              | Some response => ret response
              | None =>
                  let* generated := panelScript ops sceneText sceneTy in
                  match generated with
                  | inr response => ret response
                  | inl script =>
                      let* _ := qualityGate (base ops) script sceneText in
                      let* imageRateLimit := admitImage later (panelClientIP req) in
                      if negb (RateLimiter.allowed imageRateLimit)
                      then ret (panelImageLimited (RateLimiter.resetAt imageRateLimit))
                      else
                        let* imageUrl :=
                          generateImage ops (imageDescriptionOf script) styleTy in
                        ret (mkPanelResponse 200
                               (PanelOk script imageUrl sceneText sceneTy styleTy
                                  (RateLimiter.remaining scriptRateLimit)
                                  (RateLimiter.remaining imageRateLimit)
                                  (Z.max (RateLimiter.resetAt scriptRateLimit)
                                         (RateLimiter.resetAt imageRateLimit))))
                  end
              end
    | _ => throw (typeError "scene.trim is not a function")
    end.

Definition panelPOST (ops : FullOps) (now later : Z) (req : PanelRequest) (w : World)
  : PanelResponse * World :=
  match handlePanel ops now later req w with
  | (Returned response, w') => (response, w')
  | (Thrown error, w') => (mkPanelResponse 500 (PanelFailure (exn_message error) false), w')
  end.

(** *** [POST] of the reset handler (src/unnamed/part_004) *)

Inductive ResetResponse :=
| ResetForbidden          (* 403 *)
| ResetDone.              (* 200, with the time of the reset *)

Definition resetPOST (NODE_ENV : option string) (w : World) : ResetResponse * World :=
  match NODE_ENV with
  | Some env =>
      if String.eqb env "development" then
        (ResetDone,
         mkWorld (RateLimiter.resetLimits (scriptRateLimiter w))
                 (RateLimiter.resetLimits (imageRateLimiter w))
                 (providerCalls w))
      else (ResetForbidden, w)
  | None => (ResetForbidden, w)
  end.

(** *** What the browser receives *)

Definition errorJson (error : string) (resetTime : option Z) : jsval :=
  JObj (("error", JStr error)
        :: match resetTime with
           | Some t => [("resetTime", JNum t)]
           | None => []
           end).

(** What [JSON.parse(JSON.stringify(v))] gives, [None] where [stringify]
    gives [undefined]: a property holding [undefined] or a function is left
    out, such an item of an array becomes [null].  [seen] holds the names
    already met, whose later bindings are shadowed. *)
Fixpoint jsonOf (v : jsval) : option jsval :=
  match v with
  | JUndefined | JFun => None
  | JArr items =>
      Some (JArr (List.map (fun item => match jsonOf item with
                                        | Some j => j
                                        | None => JNull
                                        end) items))
  | JObj fields =>
      Some (JObj ((fix props (fs : list (string * jsval)) (seen : list string) :=
                     match fs with
                     | [] => []
                     | (k, x) :: rest =>
                         if existsb (String.eqb k) seen then props rest seen
                         else match jsonOf x with
                              | Some j => (k, j) :: props rest (k :: seen)
                              | None => props rest (k :: seen)
                              end
                     end) fields []))
  | _ => Some v
  end.

Definition jsonField (key : string) (v : jsval) : list (string * jsval) :=
  match jsonOf v with
  | Some j => [(key, j)]
  | None => []
  end.

(** The body of a combined response as [response.json()] returns it (the
    [details] of a failure and the [metadata] of a success are left out). *)
Definition panelJson (body : PanelBody) : jsval :=
  match body with
  | PanelError error resetTime => errorJson error resetTime
  | PanelFailure error true => JObj [("error", JStr error); ("success", JBool false)]
  | PanelFailure error false => JObj [("error", JStr error)]
  | PanelOk script imageUrl _ _ _ _ _ _ =>
      JObj (("success", JBool true) :: jsonField "script" script ++ jsonField "imageUrl" imageUrl)%list
  end.

(** The HTTP exchange with a server that answers [r]. *)
Definition delivered (r : PanelResponse) : outcome ApiClient.HttpResponse :=
  Returned (ApiClient.mkHttp ((200 <=? p_status r) && (p_status r <=? 299))
                             (Returned (panelJson (p_body r)))).

(** The failures of the combined handler at the script and image steps. *)
Definition panelScriptFailed : PanelResponse :=
  mkPanelResponse 500 (PanelFailure "Failed to generate script. Please try again." true).
Definition panelScriptIncomplete : PanelResponse :=
  mkPanelResponse 500
    (PanelFailure "Generated script is incomplete or invalid: Missing required fields or empty required values" true).
Definition panelImageFailed : PanelResponse :=
  mkPanelResponse 500 (PanelFailure "Failed to generate image. Please try again." false).


End Handlers.

(** ** Vocabulary of the further properties *)

Module Observations.

(** The world after the provider calls [calls] were made in [w]. *)
Definition logged (w : World) (calls : list ProviderCall) : World :=
  mkWorld (scriptRateLimiter w) (imageRateLimiter w) (providerCalls w ++ calls).

Definition scriptFailure : exn := newError "Failed to generate script. Please try again.".
Definition imageFailure : exn := newError "Failed to generate image. Please try again.".

(** The outcome of one completion attempt, from the reply of the provider. *)
Definition attempt (reply : outcome AIClient.ChatReply) : outcome jsval :=
  match reply with
  | Returned (AIClient.Content (Returned script)) =>
      if AIClient.validateScriptStructure script then Returned script else Thrown scriptFailure
  | _ => Thrown scriptFailure
  end.

(** The reply to a call is itself a failure carrying [model_not_found]. *)
Definition modelNotFound (reply : outcome AIClient.ChatReply) : bool :=
  match reply with
  | Thrown e => AIClient.isModelNotFound e
  | Returned (AIClient.Content (Thrown e)) => AIClient.isModelNotFound e
  | _ => false
  end.

(** Every character of the text is in the ASCII range, where the case
    mapping and the character classes of [JsString] are those of JavaScript. *)
Fixpoint isAsciiText (s : string) : bool :=
  match s with
  | EmptyString => true
  | String c rest => Nat.ltb (nat_of_ascii c) 128 && isAsciiText rest
  end.

(** [m] only talks to the provider: it leaves both limiters as they are
    and appends to the history of calls. *)
Definition onlyLogs {A} (m : M A) : Prop :=
  ∀ w, ∃ calls, (m w).2 = logged w calls.

(** [ops] with another quality review in its place. *)
Definition withQuality (ops : Route.ClientOps) (review : jsval -> string -> M jsval)
  : Route.ClientOps :=
  {| Route.checkContentSafety := Route.checkContentSafety ops;
     Route.generateScript := Route.generateScript ops;
     Route.validateQuality := review |}.

(** The world after the script limiter admitted or denied [identity]. *)
Definition afterScriptCheck (now : Z) (identity : string) (w : World) : World :=
  mkWorld (RateLimiter.isAllowed now identity (scriptRateLimiter w)).2
          (imageRateLimiter w) (providerCalls w).

(** The world after the image limiter admitted or denied [identity]. *)
Definition afterImageCheck (now : Z) (identity : string) (w : World) : World :=
  mkWorld (scriptRateLimiter w)
          (RateLimiter.isAllowed now identity (imageRateLimiter w)).2
          (providerCalls w).

(** What mock mode returns for a scene: the canned script, or the default
    script when the lookup yields something that is not a script. *)
Definition mockScript (scene sceneType : string) : jsval :=
  if AIClient.validateScriptStructure (AIClient.generateMockScript scene sceneType)
  then AIClient.generateMockScript scene sceneType
  else scriptVal AIClient.defaultScript.

(** A client as the constructor builds it for a server with a usable key. *)
Definition liveClient (api : AIClient.OpenAI) (model : option string) : AIClient.t :=
  AIClient.create false (Some "sk-live") (fun _ => api) model.

(** A provider whose primary model is unknown and whose fallback answers
    with a well-formed script. *)
Definition fallbackOnly : AIClient.OpenAI :=
  AIClient.mkOpenAI
    (fun _ _ => Returned [])
    (fun _ model _ =>
       if String.eqb model "gpt-3.5-turbo"
       then Returned (AIClient.Content (Returned (scriptVal AIClient.defaultScript)))
       else Thrown (mkExn (Some "model_not_found") "The model does not exist"))
    (fun _ _ _ => Returned (Some "https://example.org/panel.png")).

End Observations.

(** * Properties *)

Local Open Scope list_scope.

(** ** The admission controller *)

Module RateLimiterFacts.
Import RateLimiter.

Lemma isAllowed_config now id rl :
  maxRequests (isAllowed now id rl).2 = maxRequests rl
  ∧ windowMs (isAllowed now id rl).2 = windowMs rl.
Proof.
  unfold isAllowed.
  destruct (limits rl !! id) as [e|]; [|done].
  destruct (now >? resetTime e); [done|].
  destruct (count e >=? maxRequests rl); done.
Qed.

Lemma isAllowed_fresh now id rl :
  fresh now id rl →
  isAllowed now id rl =
    (mkDecision true (maxRequests rl - 1) (now + windowMs rl),
     withLimits rl (<[id := mkEntry 1 (now + windowMs rl)]> (limits rl))).
Proof.
  intros [Hnone | (e & He & Hlate)]; unfold isAllowed.
  - by rewrite Hnone.
  - rewrite He. destruct (Z.gtb_spec now (resetTime e)); [done | lia].
Qed.

Lemma isAllowed_inside now id rl c r :
  limits rl !! id = Some (mkEntry c r) → now ≤ r → c < maxRequests rl →
  isAllowed now id rl =
    (mkDecision true (maxRequests rl - (c + 1)) r,
     withLimits rl (<[id := mkEntry (c + 1) r]> (limits rl))).
Proof.
  intros He Hin Hc. unfold isAllowed. rewrite He. simpl.
  destruct (Z.gtb_spec now r); [lia|].
  destruct (Z.geb_spec c (maxRequests rl)); [lia | done].
Qed.

Lemma isAllowed_full now id rl c r :
  limits rl !! id = Some (mkEntry c r) → now ≤ r → maxRequests rl ≤ c →
  isAllowed now id rl = (mkDecision false 0 r, rl).
Proof.
  intros He Hin Hc. unfold isAllowed. rewrite He. simpl.
  destruct (Z.gtb_spec now r); [lia|].
  destruct (Z.geb_spec c (maxRequests rl)); [done | lia].
Qed.

(** A check of one identity leaves the entries of the others alone. *)
Lemma isAllowed_other now id id' rl :
  id ≠ id' → limits (isAllowed now id rl).2 !! id' = limits rl !! id'.
Proof.
  intros Hne. unfold isAllowed.
  destruct (limits rl !! id) as [e|]; simpl.
  - destruct (now >? resetTime e); simpl; [by rewrite lookup_insert_ne|].
    destruct (count e >=? maxRequests rl); simpl; [done | by rewrite lookup_insert_ne].
  - by rewrite lookup_insert_ne.
Qed.

(** Checks inside the window of an entry that still has room. *)
Lemma checks_inside ts : ∀ id rl c r,
  limits rl !! id = Some (mkEntry c r) →
  Forall (fun now => now ≤ r) ts →
  c + Z.of_nat (length ts) ≤ maxRequests rl →
  Forall (fun d => allowed d = true ∧ resetAt d = r ∧ 0 ≤ remaining d) (checks ts id rl).1
  ∧ length (checks ts id rl).1 = length ts
  ∧ limits (checks ts id rl).2 !! id = Some (mkEntry (c + Z.of_nat (length ts)) r)
  ∧ maxRequests (checks ts id rl).2 = maxRequests rl
  ∧ windowMs (checks ts id rl).2 = windowMs rl.
Proof.
  induction ts as [|now ts IH]; intros id rl c r He Hin Hroom; simpl.
  - split; [constructor|]. repeat split; try done.
    rewrite He. do 2 f_equal. lia.
  - inversion Hin as [|? ? Hnow Hrest]; subst.
    simpl in Hroom.
    rewrite (isAllowed_inside now id rl c r) by (done || lia).
    set (rl1 := withLimits rl _).
    assert (H1 : limits rl1 !! id = Some (mkEntry (c + 1) r))
      by (subst rl1; simpl; apply lookup_insert_eq).
    destruct (IH id rl1 (c + 1) r H1 Hrest) as (Hall & Hlen & Hent & Hmax & Hwin);
      [subst rl1; simpl; lia|].
    destruct (checks ts id rl1) as [ds rl2] eqn:Hrun. simpl in *.
    split; [constructor; [simpl; repeat split; try done; lia | done]|].
    repeat split; try done.
    + by rewrite Hlen.
    + rewrite Hent. do 2 f_equal. lia.
Qed.

Lemma step_config o rl :
  maxRequests (step o rl) = maxRequests rl ∧ windowMs (step o rl) = windowMs rl.
Proof.
  destruct o as [now id | now | now id | ]; simpl; try done.
  - apply isAllowed_config.
  - unfold getCurrentLimit. destruct (limits rl !! id) as [e|]; [|done].
    destruct (now >? resetTime e); done.
Qed.

Lemma isAllowed_counts now id rl :
  1 ≤ maxRequests rl → counts_in_range rl → counts_in_range (isAllowed now id rl).2.
Proof.
  intros Hmax Hinv. unfold isAllowed.
  destruct (limits rl !! id) as [e|] eqn:He; simpl.
  - destruct (now >? resetTime e); simpl.
    + intros k x. simpl. rewrite lookup_insert.
      case_decide; [intros [= <-]; simpl; lia | apply Hinv].
    + destruct (Z.geb_spec (count e) (maxRequests rl)); simpl; [done|].
      intros k x. simpl. rewrite lookup_insert.
      case_decide; [|apply Hinv].
      intros [= <-]; simpl. specialize (Hinv _ _ He). lia.
  - intros k x. simpl. rewrite lookup_insert.
    case_decide; [intros [= <-]; simpl; lia | apply Hinv].
Qed.

Lemma step_counts o rl :
  1 ≤ maxRequests rl → counts_in_range rl → counts_in_range (step o rl).
Proof.
  intros Hmax Hinv.
  destruct o as [now id | now | now id | ]; simpl.
  - by apply isAllowed_counts.
  - intros k x. simpl. rewrite map_lookup_filter_Some. intros [Hk _]. exact (Hinv _ _ Hk).
  - unfold getCurrentLimit. destruct (limits rl !! id) as [e|]; [|done].
    destruct (now >? resetTime e); [|done].
    intros k x. simpl. rewrite lookup_delete_Some. intros [_ Hk]. exact (Hinv _ _ Hk).
  - intros k x. simpl. by rewrite lookup_empty.
Qed.

Lemma run_counts ops : ∀ rl,
  1 ≤ maxRequests rl → counts_in_range rl →
  counts_in_range (run ops rl) ∧ maxRequests (run ops rl) = maxRequests rl.
Proof.
  induction ops as [|o ops IH]; intros rl Hmax Hinv; [done|].
  simpl. destruct (step_config o rl) as [Hm _].
  destruct (IH (step o rl)) as [H1 H2].
  - by rewrite Hm.
  - by apply step_counts.
  - unfold run in *. split; [done | by rewrite H2].
Qed.

Lemma isAllowed_remaining now id rl :
  1 ≤ maxRequests rl → counts_in_range rl → 0 ≤ remaining (isAllowed now id rl).1.
Proof.
  intros Hmax Hinv. unfold isAllowed.
  destruct (limits rl !! id) as [e|] eqn:He; simpl; [|lia].
  destruct (now >? resetTime e); simpl; [lia|].
  destruct (Z.geb_spec (count e) (maxRequests rl)); simpl; lia.
Qed.

(** C1. For every identity and every ceiling of at least 1: a check at [t0]
    that finds no entry, or an entry whose [resetTime] has passed, is
    allowed with [remaining = ceiling - 1] and stores count 1 and
    [resetTime = t0 + windowMs]; the further checks inside that window are
    allowed until [ceiling] checks have been admitted, and the next check
    inside the window is denied with [remaining = 0], the entry (count
    [ceiling], the same [resetTime]) and the whole table unchanged. *)
Theorem fixed_window_admits_ceiling_then_denies
    (rl : t) (id : string) (t0 : Z) (ts : list Z) (t : Z) :
  1 ≤ maxRequests rl →
  fresh t0 id rl →
  length ts = Z.to_nat (maxRequests rl - 1) →
  Forall (fun now => now ≤ t0 + windowMs rl) ts →
  t ≤ t0 + windowMs rl →
  let first := isAllowed t0 id rl in
  let admitted := checks (t0 :: ts) id rl in
  let last := isAllowed t id admitted.2 in
  first.1 = mkDecision true (maxRequests rl - 1) (t0 + windowMs rl)
  ∧ limits first.2 !! id = Some (mkEntry 1 (t0 + windowMs rl))
  ∧ Z.of_nat (length admitted.1) = maxRequests rl
  ∧ Forall (fun d => allowed d = true) admitted.1
  ∧ limits admitted.2 !! id = Some (mkEntry (maxRequests rl) (t0 + windowMs rl))
  ∧ last.1 = mkDecision false 0 (t0 + windowMs rl)
  ∧ last.2 = admitted.2.
Proof.
  intros Hmax Hfresh Hlen Hin Ht. simpl.
  rewrite (isAllowed_fresh _ _ _ Hfresh). simpl.
  set (rl1 := withLimits rl _).
  assert (H1 : limits rl1 !! id = Some (mkEntry 1 (t0 + windowMs rl)))
    by (subst rl1; simpl; apply lookup_insert_eq).
  destruct (checks_inside ts id rl1 1 (t0 + windowMs rl) H1 Hin)
    as (Hall & Hl & Hent & Hm & Hw); [subst rl1; simpl; lia|].
  destruct (checks ts id rl1) as [ds rl2] eqn:Hrun. simpl in *.
  assert (Hcount : 1 + Z.of_nat (length ts) = maxRequests rl) by lia.
  rewrite Hcount in Hent.
  rewrite (isAllowed_full t id rl2 (maxRequests rl) (t0 + windowMs rl))
    by (done || (rewrite Hm; subst rl1; simpl; lia)).
  repeat split; try done.
  - lia.
  - constructor; [done|]. eapply Forall_impl; [exact Hall|]. by intros d (? & _).
Qed.

Lemma fixed_window_witness :
  let rl := create 2 1000 in
  (1 ≤ maxRequests rl ∧ fresh 0 "client" rl
   ∧ length [5] = Z.to_nat (maxRequests rl - 1)
   ∧ Forall (fun now => now ≤ 0 + windowMs rl) [5] ∧ 7 ≤ 0 + windowMs rl)
  ∧ (isAllowed 7 "client" (checks [0; 5] "client" rl).2).1 = mkDecision false 0 1000.
Proof.
  simpl.
  assert (Hfresh : fresh 0 "client" (create 2 1000)) by (left; reflexivity).
  assert (Hin : Forall (fun now => now ≤ 0 + windowMs (create 2 1000)) [5])
    by (repeat constructor; simpl; lia).
  split.
  - repeat split; [simpl; lia | exact Hfresh | exact Hin | simpl; lia].
  - refine (proj1 (proj2 (proj2 (proj2 (proj2 (proj2
      (fixed_window_admits_ceiling_then_denies (create 2 1000) "client" 0 [5] 7
         _ Hfresh _ Hin _))))))); simpl; (lia || reflexivity).
Defined.

(** C10. With a ceiling of at least 1, the table of a limiter that starts
    empty satisfies [1 <= count <= ceiling] for every stored entry after any
    sequence of [isAllowed], [cleanup], [getCurrentLimit] and [resetLimits];
    every single operation preserves that range and the configuration, and
    a check on such a table reports [remaining >= 0]. *)
Theorem counts_stay_in_range (ceiling window : Z) (ops : list op) :
  1 ≤ ceiling →
  counts_in_range (run ops (create ceiling window))
  ∧ maxRequests (run ops (create ceiling window)) = ceiling
  ∧ (∀ o rl, maxRequests rl = ceiling → counts_in_range rl →
       counts_in_range (step o rl) ∧ maxRequests (step o rl) = ceiling)
  ∧ (∀ now id, 0 ≤ remaining (isAllowed now id (run ops (create ceiling window))).1).
Proof.
  intros Hc.
  assert (H0 : counts_in_range (create ceiling window))
    by (intros k x; simpl; by rewrite lookup_empty).
  destruct (run_counts ops (create ceiling window) Hc H0) as [Hinv Hmax].
  simpl in Hmax.
  split; [done|]. split; [done|]. split.
  - intros o rl Hm Hr. split.
    + apply step_counts; [lia | done].
    + destruct (step_config o rl) as [-> _]. done.
  - intros now id. apply isAllowed_remaining; [lia | done].
Qed.

Lemma counts_stay_in_range_witness :
  1 ≤ 2
  ∧ counts_in_range
      (run [OpIsAllowed 0 "a"; OpIsAllowed 1 "a"; OpIsAllowed 2 "a"; OpCleanup 5000;
            OpGetCurrentLimit 6000 "a"; OpResetLimits] (create 2 1000)).
Proof.
  split; [lia|].
  refine (proj1 (counts_stay_in_range 2 1000 _ _)). lia.
Defined.

End RateLimiterFacts.

(** ** The safety evaluator *)

Module ContentSafetyFacts.
Import ContentSafety.

Lemma after_nil content acc : after content acc [] = acc.
Proof.
  destruct acc as [f s i g]. unfold after. simpl.
  rewrite orb_false_r, Z.sub_0_r, !app_nil_r. reflexivity.
Qed.

Lemma after_app content acc ms1 ms2 :
  after content (after content acc ms1) ms2 = after content acc (ms1 ++ ms2).
Proof.
  unfold after. simpl. rewrite List.filter_app, !length_app, map_app, flat_map_app.
  rewrite <- !app_assoc. f_equal.
  - rewrite <- orb_assoc. f_equal.
    destruct (length (List.filter _ ms1)), (length (List.filter _ ms2)); reflexivity.
  - lia.
Qed.

Lemma patterns_fold content category ps : ∀ acc,
  fold_left (onPattern content category) ps acc
  = after content acc (map (fun p => (category, p)) ps).
Proof.
  induction ps as [|p ps IH]; intros acc; simpl.
  - symmetry. apply after_nil.
  - rewrite IH. change ((category, p) :: map (fun p0 => (category, p0)) ps)
      with ([(category, p)] ++ map (fun p0 => (category, p0)) ps).
    rewrite <- after_app. f_equal.
    unfold onPattern, after. simpl. destruct (test p content); simpl.
    + rewrite orb_true_r, app_nil_r. reflexivity.
    + destruct acc as [f s i g]. simpl.
      rewrite orb_false_r, Z.sub_0_r, !app_nil_r. reflexivity.
Qed.

Lemma categories_fold content cats : ∀ acc,
  fold_left (onCategory content) cats acc
  = after content acc
      (flat_map (fun entry : string * list WordPattern =>
                   map (fun p => (entry.1, p)) entry.2) cats).
Proof.
  induction cats as [|[category ps] cats IH]; intros acc; simpl.
  - symmetry. apply after_nil.
  - rewrite IH. unfold onCategory. simpl. rewrite patterns_fold. apply after_app.
Qed.

(** The state at the end of [checkContentSafety], in closed form. *)
Lemma finalAcc_closed_form content :
  finalAcc content
  = mkAcc (negb (Nat.eqb (length (hits content)) 0))
          (100 - 20 * Z.of_nat (length (hits content))
           - lengthPenalty content - relevancePenalty content)
          (map (fun cp : string * WordPattern => issueFor cp.1) (hits content)
           ++ (lengthIssues content).1 ++ (relevanceIssues content).1)
          (flat_map (fun cp : string * WordPattern => suggestionFor cp.1) (hits content)
           ++ (lengthIssues content).2 ++ (relevanceIssues content).2).
Proof.
  unfold finalAcc. cbn zeta.
  rewrite categories_fold. fold allMatchers. unfold after. fold (hits content).
  unfold onLength, onRelevance, lengthPenalty, relevancePenalty, lengthIssues, relevanceIssues.
  destruct (wordCount content <? 3); [|destruct (wordCount content >? 50)];
    destruct (checkMythologicalRelevance (toLowerCase content)); simpl;
    rewrite <- ?app_assoc, ?app_nil_r; f_equal; lia.
Qed.

Lemma score_closed_form content :
  score (checkContentSafety content)
  = Z.max 0 (100 - 20 * Z.of_nat (length (hits content))
             - lengthPenalty content - relevancePenalty content).
Proof. unfold checkContentSafety. cbn [score]. by rewrite finalAcc_closed_form. Qed.

Lemma filter_filter_length {A} (f g : A -> bool) (l : list A) :
  (length (List.filter f (List.filter g l)) ≤ length (List.filter f l))%nat.
Proof.
  induction l as [|x l IH]; simpl; [lia|].
  destruct (g x), (f x) eqn:Hf; simpl; rewrite ?Hf; simpl; lia.
Qed.

(** C4 (as amended). For every text, each individual matcher that the text
    matches costs 20 points and appends one issue/suggestion pair of its
    category: the violence category has two matchers and can cost 40 points
    and two pairs, each other category has one and costs 20 at most once.
    The deductions of all matchers add up with the length and relevance
    penalties, the score is floored at 0 and [safe] is [score >= 70]. *)
Theorem deductions_are_per_matcher (content : string) :
  let r := checkContentSafety content in
  score r = Z.max 0 (100 - 20 * Z.of_nat (length (hits content))
                     - lengthPenalty content - relevancePenalty content)
  ∧ issues r = map (fun cp : string * WordPattern => issueFor cp.1) (hits content)
               ++ (lengthIssues content).1 ++ (relevanceIssues content).1
  ∧ suggestions r = flat_map (fun cp : string * WordPattern => suggestionFor cp.1) (hits content)
                    ++ (lengthIssues content).2 ++ (relevanceIssues content).2
  ∧ flagged r = negb (Nat.eqb (length (hits content)) 0)
  ∧ safe r = (score r >=? 70)
  ∧ (length (hitsOf "violence" content) ≤ 2)%nat
  ∧ (length (hitsOf "sexual" content) ≤ 1)%nat
  ∧ (length (hitsOf "hate" content) ≤ 1)%nat
  ∧ (length (hitsOf "inappropriate" content) ≤ 1)%nat.
Proof.
  assert (Hbounds : ∀ category,
             (length (hitsOf category content)
              ≤ length (List.filter (fun cp : string * WordPattern => String.eqb cp.1 category)
                                    allMatchers))%nat)
    by (intros category; apply filter_filter_length).
  cbn zeta. rewrite score_closed_form.
  unfold checkContentSafety. cbn [issues suggestions flagged safe].
  rewrite finalAcc_closed_form. cbn [a_issues a_suggestions a_flagged a_score].
  split; [reflexivity|]. split; [reflexivity|]. split; [reflexivity|]. split; [reflexivity|].
  split; [|repeat split; apply Hbounds].
  set (s := 100 - _ - _ - _).
  destruct (Z.geb_spec s 70), (Z.geb_spec (Z.max 0 s) 70); (reflexivity || lia).
Qed.

(** C4, as worded, fails: a text that matches both violence matchers loses
    40 points and receives the violence issue twice. *)
Lemma violence_is_charged_per_matcher :
  let content := "krishna kill war" in
  List.filter (categoryMatches content) INAPPROPRIATE_PATTERNS
    = [nth 0 INAPPROPRIATE_PATTERNS ("", [])]
  ∧ perCategoryScore content = 80
  ∧ perCategoryIssues content = ["Contains violence content"]
  ∧ score (checkContentSafety content) = 60
  ∧ issues (checkContentSafety content)
    = ["Contains violence content"; "Contains violence content"]
  ∧ score (checkContentSafety content) ≠ perCategoryScore content
  ∧ issues (checkContentSafety content) ≠ perCategoryIssues content.
Proof. vm_compute. repeat split; congruence. Qed.

(** *** Appending text *)

Lemma headIsWord_app s suffix :
  headIsWord suffix = false → headIsWord (s ++ suffix)%string = headIsWord s.
Proof. intros H. destruct s; simpl; [exact H | reflexivity]. Qed.

Lemma matchAlt_app w : ∀ prev s suffix,
  headIsWord suffix = false →
  matchAlt prev w s = true → matchAlt prev w (s ++ suffix)%string = true.
Proof.
  induction w as [|a w IH]; intros prev s suffix Hsuf; simpl.
  - unfold isBoundary. by rewrite headIsWord_app.
  - destruct s as [|b s]; simpl; [done|].
    rewrite !andb_true_iff. intros [-> H]. split; [done|]. by apply IH.
Qed.

Lemma matchHere_app p prev s suffix :
  headIsWord suffix = false →
  matchHere p prev s = true → matchHere p prev (s ++ suffix)%string = true.
Proof.
  intros Hsuf. unfold matchHere, isBoundary. rewrite headIsWord_app by done.
  rewrite !andb_true_iff, !existsb_exists. intros [-> (w & Hw & Hm)].
  split; [done|]. exists w. split; [done|]. by apply matchAlt_app.
Qed.

Lemma scanFrom_app p s : ∀ prev suffix,
  headIsWord suffix = false →
  scanFrom p prev s = true → scanFrom p prev (s ++ suffix)%string = true.
Proof.
  induction s as [|c s IH]; intros prev suffix Hsuf.
  - simpl. rewrite orb_false_r. intros H.
    apply (matchHere_app p prev "" suffix Hsuf) in H.
    change (("" ++ suffix)%string) with suffix in *.
    destruct suffix; cbn [scanFrom]; rewrite H; reflexivity.
  - cbn [scanFrom]. change ((String c s ++ suffix)%string) with (String c (s ++ suffix)%string).
    cbn [scanFrom]. rewrite !orb_true_iff. intros [H | H].
    + left. exact (matchHere_app p prev (String c s) suffix Hsuf H).
    + right. by apply IH.
Qed.

(** A match survives the appending of text that does not start with a word
    character. *)
Lemma test_app p text suffix :
  headIsWord suffix = false → test p text = true → test p (text ++ suffix)%string = true.
Proof. apply scanFrom_app. Qed.

Lemma filter_length_mono {A} (f g : A -> bool) (l : list A) :
  (∀ x, f x = true → g x = true) →
  (length (List.filter f l) ≤ length (List.filter g l))%nat.
Proof.
  intros Hfg. induction l as [|x l IH]; simpl; [lia|].
  destruct (f x) eqn:Hf.
  - rewrite (Hfg x Hf). simpl. lia.
  - destruct (g x); simpl; lia.
Qed.

Lemma hits_app text suffix :
  headIsWord suffix = false →
  (length (hits text) ≤ length (hits (text ++ suffix)%string))%nat.
Proof.
  intros Hsuf. apply filter_length_mono. intros [category p]. simpl. by apply test_app.
Qed.

Lemma splitWs_cons b c s :
  length (splitWs b (String c s)) =
    if isSpace c then ((if b then 0 else 1) + length (splitWs true s))%nat
    else length (splitWs false s).
Proof.
  simpl. destruct (isSpace c).
  - destruct b; reflexivity.
  - destruct (splitWs false s) eqn:E; [|reflexivity].
    destruct s; simpl in E; [discriminate|].
    destruct (isSpace a); [discriminate|].
    destruct (splitWs false s); discriminate.
Qed.

Lemma splitWs_length_pos b s : (1 ≤ length (splitWs b s))%nat.
Proof.
  revert b. induction s as [|c s IH]; intros b; [simpl; lia|].
  rewrite splitWs_cons. destruct (isSpace c).
  - specialize (IH true). lia.
  - apply IH.
Qed.

Lemma splitWs_app s : ∀ b suffix,
  (length (splitWs b s) ≤ length (splitWs b (s ++ suffix)%string))%nat.
Proof.
  induction s as [|c s IH]; intros b suffix.
  - simpl. apply splitWs_length_pos.
  - change ((String c s ++ suffix)%string) with (String c (s ++ suffix)%string).
    rewrite !splitWs_cons. destruct (isSpace c).
    + specialize (IH true suffix). lia.
    + apply IH.
Qed.

(** Appended text never lowers the word count. *)
Lemma wordCount_app text suffix : wordCount text ≤ wordCount (text ++ suffix)%string.
Proof.
  unfold wordCount, split_whitespace. apply inj_le. apply splitWs_app.
Qed.

Lemma toLowerCase_app s t :
  toLowerCase (s ++ t)%string = (toLowerCase s ++ toLowerCase t)%string.
Proof. induction s as [|c s IH]; simpl; [reflexivity | by rewrite IH]. Qed.

Lemma startsWith_app p : ∀ s t, startsWith s p = true → startsWith (s ++ t)%string p = true.
Proof.
  induction p as [|a p IH]; intros s t; [done|].
  destruct s as [|b s]; simpl; [done|].
  rewrite !andb_true_iff. intros [-> H]. split; [done | by apply IH].
Qed.

Lemma includes_app s : ∀ t search,
  includes s search = true → includes (s ++ t)%string search = true.
Proof.
  induction s as [|c s IH]; intros t search.
  - simpl. rewrite orb_false_r. intros H.
    pose proof (startsWith_app search "" t H) as H'.
    change (("" ++ t)%string) with t in *.
    destruct t; cbn [includes]; rewrite H'; reflexivity.
  - change ((String c s ++ t)%string) with (String c (s ++ t)%string).
    cbn [includes]. rewrite !orb_true_iff. intros [H | H].
    + left. exact (startsWith_app search (String c s) t H).
    + right. by apply IH.
Qed.

Lemma relevance_app text suffix :
  checkMythologicalRelevance (toLowerCase text) = true →
  checkMythologicalRelevance (toLowerCase (text ++ suffix)%string) = true.
Proof.
  unfold checkMythologicalRelevance. rewrite toLowerCase_app, !existsb_exists.
  intros (k & Hk & Hin). exists k. split; [done | by apply includes_app].
Qed.

(** C3 (as amended). For every text of at least three words that already
    contains a mythological keyword, appending a phrase that starts with a
    character outside [\w] (a space, say), whatever the phrase matches,
    never yields a score greater than the score of the text. *)
Theorem append_never_raises_score (text suffix : string) :
  headIsWord suffix = false →
  3 ≤ wordCount text →
  checkMythologicalRelevance (toLowerCase text) = true →
  score (checkContentSafety (text ++ suffix)%string) ≤ score (checkContentSafety text).
Proof.
  intros Hsuf Hwc Hrel.
  rewrite !score_closed_form.
  pose proof (hits_app text suffix Hsuf) as Hh.
  pose proof (wordCount_app text suffix) as Hw.
  pose proof (relevance_app text suffix Hrel) as Hrel'.
  unfold lengthPenalty, relevancePenalty. rewrite Hrel, Hrel'.
  destruct (Z.ltb_spec (wordCount text) 3); [lia|].
  destruct (Z.ltb_spec (wordCount (text ++ suffix)%string) 3); [lia|].
  destruct (Z.gtb_spec (wordCount text) 50);
    destruct (Z.gtb_spec (wordCount (text ++ suffix)%string) 50); lia.
Qed.

Lemma append_never_raises_score_witness :
  let text := "krishna meets rama" in
  let suffix := " in a war" in
  (headIsWord suffix = false ∧ 3 ≤ wordCount text
   ∧ checkMythologicalRelevance (toLowerCase text) = true)
  ∧ score (checkContentSafety (text ++ suffix)%string) ≤ score (checkContentSafety text).
Proof.
  simpl. split.
  - repeat split; vm_compute; congruence.
  - apply (append_never_raises_score "krishna meets rama" " in a war");
      vm_compute; congruence.
Defined.

(** C3, as worded, fails: a passing two-word text gains 10 points when a
    phrase it already matches is appended and makes it three words long. *)
Lemma appending_can_raise_score :
  let text := "krishna war" in
  let phrase := " war" in
  (score (checkContentSafety text) = 70
   ∧ matchesUnsafe phrase = true
   ∧ score (checkContentSafety (text ++ phrase)%string) = 80)
  ∧ ¬ monotonicUnderAppend.
Proof.
  assert (H : score (checkContentSafety "krishna war") = 70
              ∧ matchesUnsafe " war" = true
              ∧ score (checkContentSafety ("krishna war" ++ " war")%string) = 80)
    by (vm_compute; repeat split; reflexivity).
  split; [exact H|].
  intros Hmono. destruct H as (H1 & H2 & H3).
  specialize (Hmono "krishna war" " war"). rewrite H1, H3 in Hmono.
  specialize (Hmono ltac:(lia) H2). lia.
Qed.

End ContentSafetyFacts.

(** ** The quality evaluator *)

Module QualityFacts.
Import Quality.

Ltac pick := simpl; repeat (first [left; reflexivity | right]).

Lemma checkCharacterAccuracy_other character script :
  String.eqb character "krishna" = false →
  checkCharacterAccuracy character script = mkCA true [] [].
Proof. intros H. unfold checkCharacterAccuracy. by rewrite H. Qed.

Lemma others_deduct_nothing script l : ∀ acc,
  Forall (fun character => String.eqb character "krishna" = false) l →
  fold_left (fun acc character =>
               let accuracy := checkCharacterAccuracy character script in
               deduct (negb (accurate accuracy)) 15
                      (ca_issues accuracy) (ca_suggestions accuracy) acc) l acc = acc.
Proof.
  induction l as [|x l IH]; intros acc Hall; [done|].
  inversion Hall as [|? ? Hx Hl]; subst. cbn [fold_left].
  rewrite (checkCharacterAccuracy_other x script Hx). cbn. by apply IH.
Qed.

Lemma mythological_scores script scene :
  In (score (validateMythologicalAccuracy script scene)) (reachable 100 [15; 20]).
Proof.
  unfold validateMythologicalAccuracy, extractCharacterNames, characterKeywords.
  match goal with
  | |- context [List.filter ?f (?a :: ?l)] =>
      change (List.filter f (a :: l))
        with (if f a then a :: List.filter f l else List.filter f l);
      set (rest := List.filter f l)
  end.
  assert (Hrest : Forall (fun character => String.eqb character "krishna" = false) rest).
  { subst rest. apply List.Forall_forall. intros x Hx. apply filter_In in Hx as [Hx _].
    simpl in Hx. repeat (destruct Hx as [<- | Hx]; [reflexivity|]). destruct Hx. }
  destruct (includes (toLowerCase scene) "krishna").
  - cbn [fold_left]. rewrite (others_deduct_nothing script rest _ Hrest).
    unfold checkCharacterAccuracy, checkCulturalContext.
    destruct (includes (image_description script) "evil");
      destruct (checkMythologicalElements script); pick.
  - rewrite (others_deduct_nothing script rest _ Hrest).
    unfold checkCulturalContext.
    destruct (checkMythologicalElements script); pick.
Qed.

Lemma visual_scores script :
  In (score (validateVisualCoherence script)) (reachable 100 [15; 10; 20; 15]).
Proof.
  unfold validateVisualCoherence. cbn zeta.
  destruct (len (image_description script) <? 30);
    destruct (len (image_description script) >? 100);
    destruct (Z.of_nat (length (List.filter _ visualElements)) >? 3);
    destruct (hasLogicalInconsistencies (image_description script)); pick.
Qed.

Lemma cultural_scores script :
  In (score (validateCulturalAuthenticity script)) (reachable 100 [25; 20; 15]).
Proof.
  unfold validateCulturalAuthenticity. cbn zeta.
  destruct (existsb _ _);
    destruct (hasCulturalStereotypes script);
    destruct (checkAuthenticCulturalElements script); pick.
Qed.

Lemma storytelling_scores script :
  In (score (validateStorytellingQuality script)) (reachable 100 [15; 10; 10; 15; 10]).
Proof.
  unfold validateStorytellingQuality. cbn zeta.
  destruct (len (narrator_caption script) <? 15);
    destruct (len (narrator_caption script) >? 35);
    destruct (negb (isEmpty (dialogue script)) && (len (dialogue script) >? 20));
    destruct (existsb _ _);
    destruct (hasNarrativeStructure (narrator_caption script)); pick.
Qed.

Lemma exact_on_reachable :
  exactOnAll (reachable 100 [15; 20]) (reachable 100 [15; 10; 20; 15])
             (reachable 100 [25; 20; 15]) (reachable 100 [15; 10; 10; 15; 10]) = true.
Proof. vm_compute. reflexivity. Qed.

Lemma exactOnAll_In ms vs cs ss m v c s :
  exactOnAll ms vs cs ss = true → In m ms → In v vs → In c cs → In s ss →
  exactOn m v c s = true.
Proof.
  unfold exactOnAll. intros H Hm Hv Hc Hs.
  rewrite forallb_forall in H. specialize (H m Hm).
  rewrite forallb_forall in H. specialize (H v Hv).
  rewrite forallb_forall in H. specialize (H c Hc).
  rewrite forallb_forall in H. exact (H s Hs).
Qed.

Lemma positive_scores l x : In x l → Forall (fun y => (0 <? y) = true) l → (if x =? 0 then 0 else x) = x.
Proof.
  intros Hin Hall. rewrite List.Forall_forall in Hall. specialize (Hall x Hin).
  destruct (Z.eqb_spec x 0); [by symmetry | done].
Qed.

(** C5. For every script and scene, the four rule scores are the metadata
    of the result, the weights of the rule table are the binary64 numbers
    nearest to 0.30, 0.25, 0.25 and 0.20 and add up to exactly 1.0, the
    aggregate is finite, the reported score is the weighted sum of the four
    rule scores rounded to the nearest integer (a half going up), hence
    within one half of it, and [valid] holds exactly when the weighted sum
    itself, before rounding, is at least 70.  So a valid result reports a
    score of at least 70 and a reported score of 71 or more is valid; a
    reported score of 70 with an invalid verdict comes from a weighted sum
    of at least 69.5 and less than 70. *)
Theorem aggregate_is_weighted_sum (script : Script) (scene : string) :
  let r := validateQuality script scene in
  let m := score (validateMythologicalAccuracy script scene) in
  let v := score (validateVisualCoherence script) in
  let c := score (validateCulturalAuthenticity script) in
  let s := score (validateStorytellingQuality script) in
  metadata r = mkMeta m v c s
  ∧ Forall2 (fun rule percent => isNearestDouble percent 100 (weight rule) = true)
            VALIDATION_RULES [30; 25; 25; 20]
  ∧ fold_left PrimFloat.add (map weight VALIDATION_RULES) 0%float = 1%float
  ∧ isFinite (finalScore script scene) = true
  ∧ q_score r = (weightedSum100 m v c s + 50) / 100
  ∧ Z.abs (100 * q_score r - weightedSum100 m v c s) ≤ 50
  ∧ valid r = (7000 <=? weightedSum100 m v c s)
  ∧ (valid r = true → 70 ≤ q_score r)
  ∧ (71 ≤ q_score r → valid r = true)
  ∧ (70 ≤ q_score r → valid r = false →
     q_score r = 70 ∧ 6950 ≤ weightedSum100 m v c s < 7000).
Proof.
  cbn zeta.
  pose proof (mythological_scores script scene) as Hm.
  pose proof (visual_scores script) as Hv.
  pose proof (cultural_scores script) as Hc.
  pose proof (storytelling_scores script) as Hs.
  pose proof (exactOnAll_In _ _ _ _ _ _ _ _ exact_on_reachable Hm Hv Hc Hs) as Hex.
  assert (Hfinal : finalScore script scene
                   = aggregate (score (validateMythologicalAccuracy script scene))
                               (score (validateVisualCoherence script))
                               (score (validateCulturalAuthenticity script))
                               (score (validateStorytellingQuality script))) by reflexivity.
  unfold validateQuality. cbn [valid q_score metadata]. rewrite Hfinal.
  unfold exactOn in Hex. rewrite !andb_true_iff in Hex. destruct Hex as [[Hfin Hround] Hvalid].
  apply Z.eqb_eq in Hround. apply eqb_prop in Hvalid.
  set (total := weightedSum100 (score (validateMythologicalAccuracy script scene))
                               (score (validateVisualCoherence script))
                               (score (validateCulturalAuthenticity script))
                               (score (validateStorytellingQuality script))) in *.
  pose proof (Z.div_mod (total + 50) 100 ltac:(lia)) as Hdiv.
  pose proof (Z.mod_pos_bound (total + 50) 100 ltac:(lia)) as Hmod.
  split; [|split; [by repeat constructor|split; [reflexivity|split; [exact Hfin|split; [exact Hround|split; [|split; [exact Hvalid|]]]]]]].
  - unfold runRules. cbn [VALIDATION_RULES fold_left validator fst snd app].
    unfold scoreAt. cbn [nth_error].
    f_equal; eapply positive_scores; eauto; vm_compute; repeat constructor.
  - rewrite Hround. lia.
  - rewrite Hvalid, Hround. split; [|split].
    + intros Hok. apply Z.leb_le in Hok. lia.
    + intros Hq. apply Z.leb_le. lia.
    + intros Hq Hbad. apply Z.leb_gt in Hbad. lia.
Qed.

(** C5, as worded, fails: a caption and a description whose rule scores are
    100, 55, 55 and 60 have the weighted sum 69.5; the reported score is 70
    and the verdict is invalid. *)
Lemma rounded_score_can_reach_70_while_invalid :
  let script :=
    mkScript "He waits."
             "Now."
             "A primitive temple on the hill above the river, where the people of the village gather near the old gate at dawn today" in
  let r := validateQuality script "a quiet morning" in
  (metadata r = mkMeta 100 55 55 60 ∧ q_score r = 70 ∧ valid r = false)
  ∧ ¬ validIsScoreAtLeast70.
Proof.
  cbn zeta.
  assert (H : metadata (validateQuality
                (mkScript "He waits." "Now."
                   "A primitive temple on the hill above the river, where the people of the village gather near the old gate at dawn today")
                "a quiet morning") = mkMeta 100 55 55 60
              ∧ q_score (validateQuality
                (mkScript "He waits." "Now."
                   "A primitive temple on the hill above the river, where the people of the village gather near the old gate at dawn today")
                "a quiet morning") = 70
              ∧ valid (validateQuality
                (mkScript "He waits." "Now."
                   "A primitive temple on the hill above the river, where the people of the village gather near the old gate at dawn today")
                "a quiet morning") = false) by (vm_compute; auto).
  split; [exact H|]. destruct H as (_ & Hscore & Hvalid).
  intros Hspec. rewrite Hspec, Hscore in Hvalid. discriminate Hvalid.
Qed.

(** *** The inconsistency detector *)

(** C9 (as amended). The verdict of the detector does not depend on the
    three listed term pairs: each entry of its table is the second word
    alone ("stars", "mountain", "fire"), of which the first two letters are
    taken, so for every description it reports an inconsistency exactly
    when the lowered description contains both "s" and "t", or both "m"
    and "o", or both "f" and "i". *)
Theorem inconsistency_is_three_letter_pairs (imageDesc : string) :
  inconsistencies = ["stars"; "mountain"; "fire"]
  ∧ hasLogicalInconsistencies imageDesc
    = bothOccur imageDesc "s" "t" || bothOccur imageDesc "m" "o" || bothOccur imageDesc "f" "i".
Proof.
  split; [reflexivity|].
  unfold hasLogicalInconsistencies, bothOccur, inconsistencies, andStr, includesArg.
  cbn [isEmpty existsb firstTwo]. rewrite orb_false_r, orb_assoc. reflexivity.
Qed.

Lemma first_of_st c rest :
  includes "st" (String c rest) = true → c = "s"%char ∨ c = "t"%char.
Proof.
  cbn. destruct (Ascii.eqb_spec c "s") as [->|]; [by left|].
  destruct (Ascii.eqb_spec c "t") as [->|]; [by right|]. simpl. discriminate.
Qed.

Lemma first_of_mo c rest :
  includes "mo" (String c rest) = true → c = "m"%char ∨ c = "o"%char.
Proof.
  cbn. destruct (Ascii.eqb_spec c "m") as [->|]; [by left|].
  destruct (Ascii.eqb_spec c "o") as [->|]; [by right|]. simpl. discriminate.
Qed.

Lemma common_term_is_empty a :
  includes "st" a = true → includes "mo" a = true → a = "".
Proof.
  destruct a as [|c rest]; [done|]. intros H1 H2.
  apply first_of_st in H1. apply first_of_mo in H2.
  destruct H1 as [-> | ->], H2 as [H | H]; discriminate H.
Qed.

(** C9, as worded, fails: no single pair of terms decides the detector. *)
Lemma no_single_fixed_pair :
  (hasLogicalInconsistencies "st" = true
   ∧ hasLogicalInconsistencies "mo" = true
   ∧ hasLogicalInconsistencies "" = false)
  ∧ ¬ singleFixedPair.
Proof.
  assert (H : hasLogicalInconsistencies "st" = true
              ∧ hasLogicalInconsistencies "mo" = true
              ∧ hasLogicalInconsistencies "" = false) by (vm_compute; auto).
  split; [exact H|]. destruct H as (Hst & Hmo & Hnil).
  intros (a & b & Hab). unfold bothOccur in Hab.
  destruct (proj1 (andb_true_iff _ _) (proj1 (Hab "st") Hst)) as [Ha1 Hb1].
  destruct (proj1 (andb_true_iff _ _) (proj1 (Hab "mo") Hmo)) as [Ha2 Hb2].
  change (toLowerCase "st") with "st" in *. change (toLowerCase "mo") with "mo" in *.
  rewrite (common_term_is_empty a Ha1 Ha2) in Hab.
  rewrite (common_term_is_empty b Hb1 Hb2) in Hab.
  assert (Hbad : hasLogicalInconsistencies "" = true) by (apply Hab; reflexivity).
  congruence.
Qed.
End QualityFacts.

(** ** The provider adapter *)

Module AIClientFacts.
Import AIClient.

Lemma len_pos s : (len s >? 0) = true ↔ s ≠ "".
Proof.
  unfold len. destruct s; simpl; split; try done.
Qed.

Lemma len_zero s : (len s =? 0) = false ↔ s ≠ "".
Proof.
  unfold len. destruct s; simpl; split; try done.
Qed.

Lemma getProp_string_truthy script key s : getProp script key = JStr s → truthy script = true.
Proof. destruct script; simpl; first [discriminate | reflexivity]. Qed.

(** C2 (as amended). Structural validation accepts a script exactly when
    its narration, spoken-line and visual-description fields are all
    strings and the narration and the visual description are non-empty; the
    spoken line may be the empty string but may not be absent.  So every
    script whose narration or visual description is missing or empty is
    rejected.  The inline check of the combined handler is the same with
    "non-empty" read after trimming. *)
Theorem structure_needs_three_strings (script : jsval) :
  (validateScriptStructure script = true
   ↔ ∃ n d v : string,
       getProp script "narrator_caption" = JStr n
       ∧ getProp script "dialogue" = JStr d
       ∧ getProp script "image_description" = JStr v
       ∧ n ≠ "" ∧ v ≠ "")
  ∧ (Route.inlineScriptCheck script = true
     ↔ ∃ n d v : string,
         getProp script "narrator_caption" = JStr n
         ∧ getProp script "dialogue" = JStr d
         ∧ getProp script "image_description" = JStr v
         ∧ trim n ≠ "" ∧ trim v ≠ "").
Proof.
  split.
  - unfold validateScriptStructure. split.
    + rewrite !andb_true_iff. intros [[[[[Ht Hn] Hd] Hv] Hln] Hlv].
      destruct (getProp script "narrator_caption") as [| | | |n| | |]; try discriminate.
      destruct (getProp script "dialogue") as [| | | |d| | |]; try discriminate.
      destruct (getProp script "image_description") as [| | | |v| | |]; try discriminate.
      exists n, d, v. simpl in *. rewrite len_pos in Hln, Hlv. done.
    + intros (n & d & v & Hn & Hd & Hv & Hne & Hve).
      rewrite (getProp_string_truthy _ _ _ Hn), Hn, Hd, Hv. simpl.
      apply len_pos in Hne, Hve. by rewrite Hne, Hve.
  - unfold Route.inlineScriptCheck. rewrite negb_true_iff, !orb_false_iff, !negb_false_iff. split.
    + intros [[[[[Ht Hn] Hd] Hv] Hln] Hlv].
      destruct (getProp script "narrator_caption") as [| | | |n| | |]; try discriminate.
      destruct (getProp script "dialogue") as [| | | |d| | |]; try discriminate.
      destruct (getProp script "image_description") as [| | | |v| | |]; try discriminate.
      exists n, d, v. simpl in *. rewrite len_zero in Hln, Hlv. done.
    + intros (n & d & v & Hn & Hd & Hv & Hne & Hve).
      rewrite (getProp_string_truthy _ _ _ Hn), Hn, Hd, Hv. simpl.
      apply len_zero in Hne, Hve. by rewrite Hne, Hve.
Qed.

(** C2, as worded, fails: a script without the spoken-line field is
    rejected although its other two fields are non-empty strings. *)
Lemma script_without_dialogue_is_rejected :
  let script := JObj [("narrator_caption", JStr "The tale unfolds.");
                      ("image_description", JStr "A temple at dawn.")] in
  validateScriptStructure script = false
  ∧ Route.inlineScriptCheck script = false
  ∧ ¬ dialogueIsOptional.
Proof.
  split; [reflexivity|]. split; [reflexivity|].
  intros H.
  specialize (H (JObj [("narrator_caption", JStr "The tale unfolds.");
                       ("image_description", JStr "A temple at dawn.")])
                "The tale unfolds." "A temple at dawn." eq_refl eq_refl).
  discriminate H; discriminate.
Qed.

(** *** Mock mode *)

Lemma default_script_valid : validateScriptStructure (scriptVal defaultScript) = true.
Proof. reflexivity. Qed.

(** In mock mode [generateScript] is this function of its two arguments. *)
Lemma generateScript_mock c scene sceneType w :
  useMockMode c = true →
  generateScript c scene sceneType w
  = (Returned (if validateScriptStructure (generateMockScript scene sceneType)
               then generateMockScript scene sceneType
               else scriptVal defaultScript), w).
Proof.
  intros Hmock. unfold generateScript. rewrite Hmock. unfold tryCatch.
  destruct (validateScriptStructure (generateMockScript scene sceneType)); cbn [negb];
    unfold throw, ret; [reflexivity|].
  rewrite default_script_valid. reflexivity.
Qed.

Lemma generateImage_mock c prompt styleType w :
  useMockMode c = true →
  generateImage c prompt styleType w = (Returned (generateMockImage prompt styleType), w).
Proof. intros Hmock. unfold generateImage. by rewrite Hmock. Qed.

Lemma scriptVal_valid s :
  narrator_caption s ≠ "" → image_description s ≠ "" →
  validateScriptStructure (scriptVal s) = true.
Proof.
  intros Hn Hv. unfold validateScriptStructure, scriptVal. cbn.
  destruct s as [n d v]; simpl in *. destruct n; [done|]. destruct v; [done|]. reflexivity.
Qed.

(** A scene type that names no inherited property selects a canned script. *)
Lemma generateMockScript_valid scene sceneType :
  existsb (String.eqb sceneType) objectPrototypeNames = false →
  validateScriptStructure (generateMockScript scene sceneType) = true.
Proof.
  intros Hown. unfold generateMockScript. cbn zeta.
  repeat match goal with
         | |- context [if anyIncluded ?s ?l then _ else _] => destruct (anyIncluded s l)
         end; try reflexivity.
  unfold mockScripts, getProp. cbn [ownProperty].
  repeat match goal with
         | |- context [String.eqb ?k sceneType] => destruct (String.eqb k sceneType)
         end; try reflexivity.
  unfold inherited. rewrite Hown.
  destruct (String.eqb sceneType "__proto__") eqn:E; [|reflexivity].
  exfalso. unfold objectPrototypeNames in Hown. cbn [existsb] in Hown.
  rewrite E, ?orb_true_r in Hown. discriminate.
Qed.

(** C6. In mock mode, for every scene text, scene type, prompt and style
    type, [generateScript] and [generateImage] return (they do not throw),
    leave the world as it is, and return the same value for any two mock
    clients in any two worlds; the script returned is structurally valid,
    and it is the canned script of [generateMockScript] unless the scene
    type names a property inherited from [Object.prototype]. *)
Theorem mock_mode_is_total_and_deterministic
    (c c' : t) (w w' : World) (scene sceneType prompt styleType : string) :
  useMockMode c = true →
  useMockMode c' = true →
  (∃ script,
      generateScript c scene sceneType w = (Returned script, w)
      ∧ generateScript c' scene sceneType w' = (Returned script, w')
      ∧ validateScriptStructure script = true
      ∧ (existsb (String.eqb sceneType) objectPrototypeNames = false →
         script = generateMockScript scene sceneType))
  ∧ (∃ image,
      generateImage c prompt styleType w = (Returned image, w)
      ∧ generateImage c' prompt styleType w' = (Returned image, w')
      ∧ image = generateMockImage prompt styleType).
Proof.
  intros Hc Hc'. split.
  - eexists. split; [by apply generateScript_mock|]. split; [by apply generateScript_mock|].
    split.
    + destruct (validateScriptStructure (generateMockScript scene sceneType)) eqn:E;
        [exact E | exact default_script_valid].
    + intros Hown. by rewrite (generateMockScript_valid scene sceneType Hown).
  - eexists. split; [by apply generateImage_mock|]. split; [by apply generateImage_mock|].
    reflexivity.
Qed.

Lemma checkContentSafety_returns c content w :
  ∃ verdict w', checkContentSafety c content w = (Returned verdict, w').
Proof.
  unfold checkContentSafety. destruct (useMockMode c); [by eexists _, _|].
  unfold tryCatch, bind, callProvider.
  destruct (openai c) as [api|]; [|by eexists _, _].
  destruct (moderations_create api (providerCalls w) content) as [[|result rest]|e];
    by eexists _, _.
Qed.

Lemma checkContentSafety_provider_fault c api content w e :
  useMockMode c = false → openai c = Some api →
  moderations_create api (providerCalls w) content = Thrown e →
  (checkContentSafety c content w).1 = Returned (mkVerdict true false []).
Proof.
  intros Hlive Hapi Hfault. unfold checkContentSafety. rewrite Hlive.
  unfold tryCatch, bind, callProvider. rewrite Hapi, Hfault. reflexivity.
Qed.

Lemma mock_mode_witness :
  (useMockMode unconfigured = true ∧ useMockMode (create true (Some "sk-live") (fun _ => offline) None) = true)
  ∧ ∃ script,
      generateScript unconfigured "Krishna lifts the mountain to protect villagers" "general"
                     (mkWorld (RateLimiter.create 10 60000) (RateLimiter.create 5 60000) [])
      = (Returned script, mkWorld (RateLimiter.create 10 60000) (RateLimiter.create 5 60000) [])
      ∧ validateScriptStructure script = true.
Proof.
  split; [split; reflexivity|].
  destruct (mock_mode_is_total_and_deterministic
              unconfigured (create true (Some "sk-live") (fun _ => offline) None)
              (mkWorld (RateLimiter.create 10 60000) (RateLimiter.create 5 60000) [])
              (mkWorld (RateLimiter.create 10 60000) (RateLimiter.create 5 60000) [])
              "Krishna lifts the mountain to protect villagers" "general"
              "Krishna lifts the mountain" "vibrant" eq_refl eq_refl)
    as [(script & H1 & _ & H3 & _) _].
  exists script. split; [exact H1 | exact H3].
Defined.
End AIClientFacts.

(** ** The script-stage handler *)

Module RouteFacts.
Import Route.

Lemma trim_empty_wordCount s : trim s = "" → sceneWordCount s = 1.
Proof. unfold sceneWordCount. by intros ->. Qed.

Lemma trim_of_empty : trim "" = "".
Proof. reflexivity. Qed.

(** C7 (as amended). For every script-stage request whose scene is a text
    with a trimmed word count outside 3..20, the handler answers with status
    400: the word-count error when the trimmed text is not empty, the
    scene-required error when it is empty (its word count is then 1).  In
    both cases the world is unchanged: no limiter entry is created or
    incremented and no provider call is made, whatever the client. *)
Theorem short_or_long_scene_is_rejected_first
    (ops : ClientOps) (now : Z) (req : Request) (w : World) (sceneText : string) :
  scene req = JStr sceneText →
  outOfRange sceneText →
  POST ops now req w
  = (if len (trim sceneText) =? 0 then requiredError else wordCountError, w)
  ∧ status (POST ops now req w).1 = 400
  ∧ (trim sceneText ≠ "" → (POST ops now req w).1 = wordCountError)
  ∧ (POST ops now req w).2 = w.
Proof.
  intros Hscene Hrange.
  assert (H : POST ops now req w
              = (if len (trim sceneText) =? 0 then requiredError else wordCountError, w)).
  { unfold POST, handle. rewrite Hscene. cbn [truthy].
    destruct sceneText as [|c rest] eqn:Hs.
    - reflexivity.
    - cbn [isEmpty negb]. rewrite <- Hs in *.
      destruct (len (trim sceneText) =? 0); [reflexivity|].
      unfold outOfRange in Hrange.
      destruct (Z.ltb_spec (sceneWordCount sceneText) 3); [reflexivity|].
      destruct (Z.gtb_spec (sceneWordCount sceneText) 20); [reflexivity | lia]. }
  rewrite H. split; [reflexivity|]. split; [|split; [|reflexivity]].
  - by destruct (len (trim sceneText) =? 0).
  - intros Hne. simpl. unfold len. destruct (trim sceneText); [done | reflexivity].
Qed.

(** C7, as worded, fails: the empty scene is out of range and is answered
    with the scene-required error, not the word-count error. *)
Lemma empty_scene_gets_required_error :
  let req := mkRequest (JStr "") None None None in
  let w := initialWorld in
  (outOfRange "" ∧ (POST faultyModeration 0 req w).1 = requiredError
   ∧ requiredError ≠ wordCountError)
  ∧ ¬ alwaysWordCountError.
Proof.
  assert (Hr : outOfRange "") by (left; vm_compute; reflexivity).
  split; [split; [exact Hr | split; [reflexivity | discriminate]]|].
  intros H.
  specialize (H faultyModeration 0 (mkRequest (JStr "") None None None)
                initialWorld
                "" eq_refl Hr).
  discriminate H.
Qed.

Lemma short_scene_witness :
  let req := mkRequest (JStr "go") None None None in
  let w := initialWorld in
  (scene req = JStr "go" ∧ outOfRange "go")
  ∧ POST faultyModeration 0 req w = (wordCountError, w).
Proof.
  simpl. split.
  - split; [reflexivity | left; vm_compute; reflexivity].
  - refine (proj1 (short_or_long_scene_is_rejected_first faultyModeration 0
                     (mkRequest (JStr "go") None None None) _ "go" eq_refl _)).
    left; vm_compute; reflexivity.
Defined.

(** *** Fail-open *)

Lemma safetyGate_failOpen ops sceneText w :
  safetyGate (failOpen ops) sceneText w = safetyGate ops sceneText w.
Proof.
  unfold safetyGate, failOpen, tryCatch, bind. cbn [checkContentSafety].
  destruct (checkContentSafety ops sceneText w) as [[verdict|e] w']; reflexivity.
Qed.

Lemma safetyGate_thrown ops sceneText w :
  isThrown (checkContentSafety ops sceneText w).1 = true →
  safetyGate ops sceneText w = (Returned None, (checkContentSafety ops sceneText w).2).
Proof.
  unfold safetyGate, tryCatch, bind.
  destruct (checkContentSafety ops sceneText w) as [[verdict|e] w']; [discriminate|reflexivity].
Qed.

Lemma POST_failOpen ops now req w : POST (failOpen ops) now req w = POST ops now req w.
Proof.
  unfold POST, handle.
  destruct (negb (truthy (scene req))); [reflexivity|].
  destruct (scene req); try reflexivity.
  destruct (len (trim s) =? 0); [reflexivity|].
  destruct (_ || _); [reflexivity|].
  unfold bind.
  destruct (admitScript now (clientIP req) w) as [[rateLimit|e] w1]; [|reflexivity].
  destruct (negb (RateLimiter.allowed rateLimit)); [reflexivity|].
  rewrite safetyGate_failOpen. reflexivity.
Qed.

Lemma admitScript_eq now identity w :
  admitScript now identity w
  = (Returned (RateLimiter.isAllowed now identity (scriptRateLimiter w)).1,
     mkWorld (RateLimiter.isAllowed now identity (scriptRateLimiter w)).2
             (imageRateLimiter w) (providerCalls w)).
Proof.
  unfold admitScript.
  by destruct (RateLimiter.isAllowed now identity (scriptRateLimiter w)).
Qed.

Lemma inRange_not_blank s : inRange s → isEmpty s = false ∧ (len (trim s) =? 0) = false.
Proof.
  intros [Hlo Hhi]. split.
  - destruct s; [|reflexivity]. vm_compute in Hlo. by destruct Hlo.
  - unfold len. destruct (trim s) eqn:E; [|reflexivity].
    rewrite (trim_empty_wordCount s E) in Hlo. lia.
Qed.

(** C8. When the scene passes validation and admission and the safety check
    throws, the handler does not answer with the unsafe-input rejection: it
    behaves as with a client whose safety check answered "safe", calls
    [generateScript] in the world the failed check left, and answers with
    the generated script, or with the generation error if that call throws.
    (The equality with the fail-open client holds for every request.) *)
Theorem safety_fault_fails_open
    (ops : ClientOps) (now : Z) (req : Request) (w : World) (sceneText : string) :
  let admission := RateLimiter.isAllowed now (clientIP req) (scriptRateLimiter w) in
  let admitted := mkWorld admission.2 (imageRateLimiter w) (providerCalls w) in
  let faulted := (checkContentSafety ops sceneText admitted).2 in
  let sceneTy := match sceneType req with Some t => t | None => "general" end in
  scene req = JStr sceneText →
  inRange sceneText →
  RateLimiter.allowed admission.1 = true →
  isThrown (checkContentSafety ops sceneText admitted).1 = true →
  (POST ops now req w).1 ≠ unsafeInputError
  ∧ POST ops now req w = POST (failOpen ops) now req w
  ∧ match generateScript ops sceneText sceneTy faulted with
    | (Returned script, w') =>
        POST ops now req w
        = (mkResponse 200 (ScriptBody script sceneText sceneTy (sceneWordCount sceneText)
                             (RateLimiter.remaining admission.1)
                             (RateLimiter.resetAt admission.1)),
           (qualityGate ops script sceneText w').2)
    | (Thrown _, w') => POST ops now req w = (generationError, w')
    end.
Proof.
  cbn zeta. intros Hscene Hrange Hallowed Hthrown.
  destruct (inRange_not_blank _ Hrange) as [Hne Hlen].
  set (admission := RateLimiter.isAllowed now (clientIP req) (scriptRateLimiter w)) in *.
  set (admitted := mkWorld admission.2 (imageRateLimiter w) (providerCalls w)) in *.
  set (sceneTy := match sceneType req with Some t => t | None => "general" end).
  assert (Hpost : POST ops now req w
    = match generationStage ops sceneText sceneTy (sceneWordCount sceneText) admission.1
              (checkContentSafety ops sceneText admitted).2 with
      | (Returned response, w') => (response, w')
      | (Thrown _, w') => (generationError, w')
      end).
  { unfold POST, handle. rewrite Hscene. cbn [truthy].
    rewrite Hne. cbn [negb]. rewrite Hlen.
    destruct Hrange as [Hlo Hhi].
    destruct (Z.ltb_spec (sceneWordCount sceneText) 3); [lia|].
    destruct (Z.gtb_spec (sceneWordCount sceneText) 20); [lia|]. cbn [orb].
    unfold bind at 1. rewrite admitScript_eq. fold admission. fold admitted.
    rewrite Hallowed. cbn [negb].
    unfold bind at 1. rewrite (safetyGate_thrown ops sceneText _ Hthrown).
    reflexivity. }
  split; [|split].
  - rewrite Hpost. unfold generationStage, bind.
    destruct (generateScript ops sceneText sceneTy _) as [[script|e] w1]; [|discriminate].
    destruct (qualityGate ops script sceneText w1) as [[u|e] w2]; discriminate.
  - symmetry. apply POST_failOpen.
  - rewrite Hpost. unfold generationStage, bind.
    destruct (generateScript ops sceneText sceneTy _) as [[script|e] w1]; [|reflexivity].
    unfold qualityGate, tryCatch, bind.
    destruct (validateQuality ops script sceneText w1) as [[q|e] w2]; [|reflexivity].
    destruct q; reflexivity.
Qed.

Lemma safety_fault_witness :
  let req := mkRequest (JStr "Krishna lifts the mountain") None None None in
  (scene req = JStr "Krishna lifts the mountain"
   ∧ inRange "Krishna lifts the mountain"
   ∧ RateLimiter.allowed
       (RateLimiter.isAllowed 0 (clientIP req) (scriptRateLimiter initialWorld)).1 = true
   ∧ isThrown (checkContentSafety faultyModeration "Krishna lifts the mountain"
                 (mkWorld (RateLimiter.isAllowed 0 (clientIP req)
                             (scriptRateLimiter initialWorld)).2
                          (imageRateLimiter initialWorld) (providerCalls initialWorld))).1 = true)
  ∧ (POST faultyModeration 0 req initialWorld).1 ≠ unsafeInputError.
Proof.
  simpl.
  assert (Hrange : inRange "Krishna lifts the mountain") by (split; vm_compute; congruence).
  split; [repeat split; (exact Hrange || reflexivity || apply Hrange)|].
  exact (proj1 (safety_fault_fails_open faultyModeration 0
                  (mkRequest (JStr "Krishna lifts the mountain") None None None)
                  initialWorld "Krishna lifts the mountain"
                  eq_refl Hrange eq_refl eq_refl)).
Defined.

(** The adapter's own safety check never throws, and answers "safe" when
    the moderation call fails. *)
Lemma adapter_check_fails_open c content w :
  (∃ verdict w', AIClient.checkContentSafety c content w = (Returned verdict, w'))
  ∧ (∀ api e, AIClient.useMockMode c = false → AIClient.openai c = Some api →
       AIClient.moderations_create api (providerCalls w) content = Thrown e →
       (AIClient.checkContentSafety c content w).1
       = Returned (AIClient.mkVerdict true false [])).
Proof.
  split.
  - apply AIClientFacts.checkContentSafety_returns.
  - intros api e. apply AIClientFacts.checkContentSafety_provider_fault.
Qed.
End RouteFacts.


(** * Further properties *)

(** ** The admission controller: locality, sweeping, bursts *)

Module RateLimiterMore.
Import RateLimiter RateLimiterFacts.

(** A check reads and writes the entry of its identity and nothing else. *)
Lemma isAllowed_local now id rl1 rl2 :
  limits rl1 !! id = limits rl2 !! id →
  maxRequests rl1 = maxRequests rl2 → windowMs rl1 = windowMs rl2 →
  (isAllowed now id rl1).1 = (isAllowed now id rl2).1
  ∧ limits (isAllowed now id rl1).2 !! id = limits (isAllowed now id rl2).2 !! id.
Proof.
  intros Hl Hm Hw. unfold isAllowed. rewrite <- Hl, <- Hm, <- Hw.
  destruct (limits rl1 !! id) as [e|] eqn:He; simpl.
  - destruct (now >? resetTime e); simpl; [by rewrite !lookup_insert_eq|].
    destruct (count e >=? maxRequests rl1); simpl; [by rewrite He, <- Hl|].
    by rewrite !lookup_insert_eq.
  - by rewrite !lookup_insert_eq.
Qed.

Lemma checks_other ts : ∀ id id' rl,
  id ≠ id' →
  limits (checks ts id rl).2 !! id' = limits rl !! id'
  ∧ maxRequests (checks ts id rl).2 = maxRequests rl
  ∧ windowMs (checks ts id rl).2 = windowMs rl.
Proof.
  induction ts as [|t ts IH]; intros id id' rl Hne; [done|].
  simpl. destruct (isAllowed t id rl) as [d rl1] eqn:H1.
  destruct (checks ts id rl1) as [ds rl2] eqn:H2. simpl.
  destruct (IH id id' rl1 Hne) as (Hl & Hm & Hw). rewrite H2 in Hl, Hm, Hw. simpl in *.
  pose proof (isAllowed_other t id id' rl Hne) as Ho.
  pose proof (isAllowed_config t id rl) as [Hc1 Hc2].
  rewrite H1 in Ho, Hc1, Hc2. simpl in *.
  rewrite Hl, Hm, Hw. done.
Qed.

(** X1. Identities do not interfere: whatever checks another identity has
    made, the decision for this one, and the entry it leaves, are the same
    as if those checks had not happened. *)
Theorem identities_do_not_interfere
    (rl : t) (id id' : string) (ts : list Z) (now : Z) :
  id ≠ id' →
  (isAllowed now id' (checks ts id rl).2).1 = (isAllowed now id' rl).1
  ∧ limits (isAllowed now id' (checks ts id rl).2).2 !! id'
    = limits (isAllowed now id' rl).2 !! id'.
Proof.
  intros Hne. destruct (checks_other ts id id' rl Hne) as (Hl & Hm & Hw).
  by apply isAllowed_local.
Qed.

Lemma identities_do_not_interfere_witness :
  "10.0.0.1" ≠ "10.0.0.2"
  ∧ (isAllowed 5 "10.0.0.2" (checks [0; 1; 2] "10.0.0.1" (create 2 1000)).2).1
    = (isAllowed 5 "10.0.0.2" (create 2 1000)).1.
Proof.
  split; [discriminate|].
  exact (proj1 (identities_do_not_interfere (create 2 1000) "10.0.0.1" "10.0.0.2"
                  [0; 1; 2] 5 ltac:(discriminate))).
Defined.

Lemma cleanup_lookup now id rl e :
  limits (cleanup now rl) !! id = Some e ↔ limits rl !! id = Some e ∧ now ≤ resetTime e.
Proof.
  unfold cleanup. simpl. rewrite map_lookup_filter_Some. simpl. split.
  - intros [H1 H2]. split; [done | lia].
  - intros [H1 H2]. split; [done | lia].
Qed.

(** X2. The sweep keeps exactly the entries whose window has not elapsed,
    and a later check cannot tell whether it ran: at any time not before
    the sweep, the decision and the entry left for the identity are the same
    with and without it. *)
Theorem sweep_is_invisible_to_later_checks
    (rl : t) (id : string) (sweepTime now : Z) :
  sweepTime ≤ now →
  (∀ e, limits (cleanup sweepTime rl) !! id = Some e
        ↔ limits rl !! id = Some e ∧ sweepTime ≤ resetTime e)
  ∧ (isAllowed now id (cleanup sweepTime rl)).1 = (isAllowed now id rl).1
  ∧ limits (isAllowed now id (cleanup sweepTime rl)).2 !! id
    = limits (isAllowed now id rl).2 !! id.
Proof.
  intros Hle. split; [intros e; apply cleanup_lookup|].
  destruct (limits rl !! id) as [e|] eqn:He.
  - destruct (Z_lt_le_dec (resetTime e) sweepTime) as [Hexp | Hlive].
    + assert (Hgone : limits (cleanup sweepTime rl) !! id = None).
      { destruct (limits (cleanup sweepTime rl) !! id) as [e'|] eqn:E; [|done].
        apply cleanup_lookup in E as [E1 E2]. rewrite He in E1. injection E1 as ->. lia. }
      rewrite (isAllowed_fresh now id (cleanup sweepTime rl)) by (left; exact Hgone).
      rewrite (isAllowed_fresh now id rl) by (right; exists e; split; [done | lia]).
      simpl. by rewrite !lookup_insert_eq.
    + apply isAllowed_local; try done.
      rewrite He. apply cleanup_lookup. split; [done | lia].
  - apply isAllowed_local; try done.
    rewrite He. destruct (limits (cleanup sweepTime rl) !! id) as [e'|] eqn:E; [|done].
    apply cleanup_lookup in E as [E1 _]. congruence.
Qed.

Lemma sweep_witness :
  1000 ≤ 1500
  ∧ (isAllowed 1500 "a" (cleanup 1000 (checks [0; 1] "a" (create 2 500)).2)).1
    = (isAllowed 1500 "a" (checks [0; 1] "a" (create 2 500)).2).1.
Proof.
  split; [lia|].
  exact (proj1 (proj2 (sweep_is_invisible_to_later_checks
                         (checks [0; 1] "a" (create 2 500)).2 "a" 1000 1500 ltac:(lia)))).
Defined.

(** An admitted check leaves the entry [(ceiling - remaining, resetAt)]. *)
Lemma decision_matches_table_aux rl id now :
  allowed (isAllowed now id rl).1 = true →
  limits (isAllowed now id rl).2 !! id
  = Some (mkEntry (maxRequests rl - remaining (isAllowed now id rl).1)
                  (resetAt (isAllowed now id rl).1)).
Proof.
  unfold isAllowed.
  destruct (limits rl !! id) as [e|] eqn:He; simpl.
  - destruct (now >? resetTime e); simpl.
    + intros _. rewrite lookup_insert_eq. do 2 f_equal. lia.
    + destruct (count e >=? maxRequests rl); simpl; [done|].
      intros _. rewrite lookup_insert_eq. do 2 f_equal. lia.
  - intros _. rewrite lookup_insert_eq. do 2 f_equal. lia.
Qed.

(** X3. The decision and the table agree.  A check is denied exactly when
    the identity has an unexpired entry whose count has reached the ceiling;
    a denial changes nothing and reports the entry's [resetTime], which is
    not before the request.  An admitted check leaves the entry
    [(ceiling - remaining, resetAt)]. *)
Theorem decision_matches_table (rl : t) (id : string) (now : Z) :
  let d := (isAllowed now id rl).1 in
  let rl' := (isAllowed now id rl).2 in
  (allowed d = false
   ↔ ∃ e, limits rl !! id = Some e ∧ now ≤ resetTime e ∧ maxRequests rl ≤ count e)
  ∧ (allowed d = false → rl' = rl ∧ remaining d = 0 ∧ now ≤ resetAt d
                          ∧ ∃ e, limits rl !! id = Some e ∧ resetAt d = resetTime e)
  ∧ (allowed d = true →
     limits rl' !! id = Some (mkEntry (maxRequests rl - remaining d) (resetAt d))).
Proof.
  cbn zeta. unfold isAllowed.
  destruct (limits rl !! id) as [e|] eqn:He.
  - destruct (Z.gtb_spec now (resetTime e)) as [Hexp | Hlive]; simpl.
    + split; [|split; [done|]].
      * split; [done|]. intros (e' & [= <-] & H1 & H2). lia.
      * intros _. rewrite lookup_insert_eq. do 2 f_equal. lia.
    + destruct (Z.geb_spec (count e) (maxRequests rl)) as [Hfull | Hroom]; simpl.
      * split; [|split; [|done]].
        -- split; [|done]. intros _. exists e. repeat split; (done || lia).
        -- intros _. repeat split; try (done || lia). by exists e.
      * split; [|split; [done|]].
        -- split; [done|]. intros (e' & [= <-] & H1 & H2). lia.
        -- intros _. rewrite lookup_insert_eq. do 2 f_equal. lia.
  - simpl. split; [|split; [done|]].
    + split; [done|]. by intros (e' & [=] & _).
    + intros _. rewrite lookup_insert_eq. do 2 f_equal. lia.
Qed.

Lemma checks_app ts1 : ∀ ts2 id rl,
  checks (ts1 ++ ts2) id rl
  = ((checks ts1 id rl).1 ++ (checks ts2 id (checks ts1 id rl).2).1,
     (checks ts2 id (checks ts1 id rl).2).2).
Proof.
  induction ts1 as [|t ts1 IH]; intros ts2 id rl; simpl.
  - by destruct (checks ts2 id rl).
  - destruct (isAllowed t id rl) as [d rl1]. rewrite IH.
    destruct (checks ts1 id rl1) as [ds1 rl2]. simpl.
    by destruct (checks ts2 id rl2).
Qed.

(** A fresh check followed by [ceiling - 1] checks inside its window: all
    admitted, the entry full. *)
Lemma full_window rl id t0 ts :
  1 ≤ maxRequests rl → fresh t0 id rl →
  length ts = Z.to_nat (maxRequests rl - 1) →
  Forall (fun now => now ≤ t0 + windowMs rl) ts →
  Forall (fun d => allowed d = true) (checks (t0 :: ts) id rl).1
  ∧ length (checks (t0 :: ts) id rl).1 = Z.to_nat (maxRequests rl)
  ∧ limits (checks (t0 :: ts) id rl).2 !! id
    = Some (mkEntry (maxRequests rl) (t0 + windowMs rl))
  ∧ maxRequests (checks (t0 :: ts) id rl).2 = maxRequests rl
  ∧ windowMs (checks (t0 :: ts) id rl).2 = windowMs rl.
Proof.
  intros Hmax Hfresh Hlen Hin. simpl.
  rewrite (isAllowed_fresh _ _ _ Hfresh).
  set (rl1 := withLimits rl _).
  assert (H1 : limits rl1 !! id = Some (mkEntry 1 (t0 + windowMs rl)))
    by (subst rl1; simpl; apply lookup_insert_eq).
  destruct (checks_inside ts id rl1 1 (t0 + windowMs rl) H1 Hin)
    as (Hall & Hl & Hent & Hm & Hw); [subst rl1; simpl; lia|].
  destruct (checks ts id rl1) as [ds rl2] eqn:Hrun. simpl in *.
  repeat split.
  - constructor; [done|]. eapply Forall_impl; [exact Hall|]. by intros d (? & _).
  - lia.
  - rewrite Hent. do 2 f_equal. lia.
  - by rewrite Hm.
  - by rewrite Hw.
Qed.

(** X4. The burst at the window boundary: [ceiling] checks inside one
    window and [ceiling] more starting just after its [resetTime] are all
    admitted, however close in time the two groups are. *)
Theorem burst_across_the_boundary
    (rl : t) (id : string) (t0 t1 : Z) (ts1 ts2 : list Z) :
  1 ≤ maxRequests rl →
  fresh t0 id rl →
  length ts1 = Z.to_nat (maxRequests rl - 1) →
  Forall (fun now => now ≤ t0 + windowMs rl) ts1 →
  t0 + windowMs rl < t1 →
  length ts2 = Z.to_nat (maxRequests rl - 1) →
  Forall (fun now => now ≤ t1 + windowMs rl) ts2 →
  let run := checks ((t0 :: ts1) ++ (t1 :: ts2)) id rl in
  Forall (fun d => allowed d = true) run.1
  ∧ Z.of_nat (length run.1) = 2 * maxRequests rl.
Proof.
  intros Hmax Hfresh Hl1 Hin1 Hgap Hl2 Hin2. cbn zeta.
  rewrite checks_app. cbn [fst snd].
  destruct (full_window rl id t0 ts1 Hmax Hfresh Hl1 Hin1) as (Ha1 & Hn1 & He1 & Hm1 & Hw1).
  set (rl1 := (checks (t0 :: ts1) id rl).2) in *.
  assert (Hfresh1 : fresh t1 id rl1).
  { right. eexists. split; [exact He1|]. simpl. lia. }
  rewrite <- Hm1 in Hl2. rewrite <- Hw1 in Hin2.
  destruct (full_window rl1 id t1 ts2 ltac:(lia) Hfresh1 Hl2 Hin2) as (Ha2 & Hn2 & _).
  split.
  - apply Forall_app. split; assumption.
  - rewrite length_app, Hn1, Hn2, Hm1. lia.
Qed.

Lemma burst_witness :
  let rl := create 2 1000 in
  (1 ≤ maxRequests rl ∧ fresh 0 "a" rl
   ∧ length [1000] = Z.to_nat (maxRequests rl - 1)
   ∧ Forall (fun now => now ≤ 0 + windowMs rl) [1000]
   ∧ 0 + windowMs rl < 1001
   ∧ length [1001] = Z.to_nat (maxRequests rl - 1)
   ∧ Forall (fun now => now ≤ 1001 + windowMs rl) [1001])
  ∧ Forall (fun d => allowed d = true) (checks [0; 1000; 1001; 1001] "a" rl).1.
Proof.
  simpl.
  assert (Hfresh : fresh 0 "a" (create 2 1000)) by (left; reflexivity).
  assert (H1 : Forall (fun now => now ≤ 0 + windowMs (create 2 1000)) [1000])
    by (repeat constructor; simpl; lia).
  assert (H2 : Forall (fun now => now ≤ 1001 + windowMs (create 2 1000)) [1001])
    by (repeat constructor; simpl; lia).
  split.
  - repeat split; try (simpl; lia); assumption.
  - refine (proj1 (burst_across_the_boundary (create 2 1000) "a" 0 1001 [1000] [1001]
                     _ Hfresh _ H1 _ _ H2)); simpl; (lia || reflexivity).
Defined.

(** X5. A ceiling of zero or less does not close the gate: the first check
    of every window is still admitted, with a negative [remaining], and
    only the checks after it inside the window are denied. *)
Theorem non_positive_ceiling_still_admits_one
    (rl : t) (id : string) (t0 t : Z) :
  maxRequests rl ≤ 0 →
  fresh t0 id rl →
  t ≤ t0 + windowMs rl →
  let first := isAllowed t0 id rl in
  allowed first.1 = true
  ∧ remaining first.1 < 0
  ∧ allowed (isAllowed t id first.2).1 = false.
Proof.
  intros Hmax Hfresh Ht. cbn zeta.
  rewrite (isAllowed_fresh _ _ _ Hfresh). simpl.
  split; [done|]. split; [lia|].
  rewrite (isAllowed_full t id _ 1 (t0 + windowMs rl)); [done | | done | simpl; lia].
  simpl. apply lookup_insert_eq.
Qed.

Lemma non_positive_ceiling_witness :
  (maxRequests (create 0 1000) ≤ 0 ∧ fresh 0 "a" (create 0 1000)
   ∧ 5 ≤ 0 + windowMs (create 0 1000))
  ∧ allowed (isAllowed 0 "a" (create 0 1000)).1 = true.
Proof.
  assert (Hfresh : fresh 0 "a" (create 0 1000)) by (left; reflexivity).
  split; [repeat split; (simpl; lia) || exact Hfresh|].
  refine (proj1 (non_positive_ceiling_still_admits_one (create 0 1000) "a" 0 5 _ Hfresh _));
    simpl; lia.
Defined.

(** X6. [getCurrentLimit] reports an entry exactly when the identity has an
    unexpired one; it deletes an expired entry of that identity and touches
    no other.  After an admitted check it reads back, until [resetAt], the
    entry [(ceiling - remaining, resetAt)] and leaves the table as it is. *)
Theorem getCurrentLimit_reads_live_entries (rl : t) (id : string) (now : Z) :
  (∀ e, (getCurrentLimit now id rl).1 = Some e
        ↔ limits rl !! id = Some e ∧ now ≤ resetTime e)
  ∧ ((getCurrentLimit now id rl).1 = None → limits (getCurrentLimit now id rl).2 !! id = None)
  ∧ (∀ id', id' ≠ id → limits (getCurrentLimit now id rl).2 !! id' = limits rl !! id')
  ∧ (∀ t, allowed (isAllowed now id rl).1 = true →
          t ≤ resetAt (isAllowed now id rl).1 →
          getCurrentLimit t id (isAllowed now id rl).2
          = (Some (mkEntry (maxRequests rl - remaining (isAllowed now id rl).1)
                           (resetAt (isAllowed now id rl).1)),
             (isAllowed now id rl).2)).
Proof.
  split; [|split; [|split]].
  - intros e. unfold getCurrentLimit.
    destruct (limits rl !! id) as [e0|] eqn:He; simpl.
    + destruct (Z.gtb_spec now (resetTime e0)); simpl.
      * split; [done|]. intros [[= <-] Hlive]. lia.
      * split; [intros [= <-]; split; [done | lia] | by intros [[= <-] _]].
    + split; [done | by intros [? _]].
  - unfold getCurrentLimit.
    destruct (limits rl !! id) as [e0|] eqn:He; simpl; [|done].
    destruct (now >? resetTime e0); simpl; [intros _; apply lookup_delete_eq | done].
  - intros id' Hne. unfold getCurrentLimit.
    destruct (limits rl !! id) as [e0|] eqn:He; simpl; [|done].
    destruct (now >? resetTime e0); simpl; [by apply lookup_delete_ne | done].
  - intros t Hall Ht.
    pose proof (decision_matches_table_aux rl id now Hall) as Hent.
    unfold getCurrentLimit. rewrite Hent. simpl.
    destruct (Z.gtb_spec t (resetAt (isAllowed now id rl).1)); [lia | done].
Qed.

End RateLimiterMore.


(** ** The safety evaluator: verdict, letter case, explanations *)

Module ContentSafetyMore.
Import ContentSafety ContentSafetyFacts.

(** X7. The verdict in terms of what the text contains: a text passes
    exactly when it matches no matcher and is either of acceptable length
    (3 to 50 words) or mentions a mythological keyword, or when it matches
    exactly one matcher, mentions a mythological keyword and has at most 50
    words.  A text that matches two matchers never passes. *)
Theorem verdict_by_content (content : string) :
  let n := length (hits content) in
  let relevant := checkMythologicalRelevance (toLowerCase content) in
  (safe (checkContentSafety content) = true
   ↔ (n = 0%nat ∧ (3 ≤ wordCount content ≤ 50 ∨ relevant = true))
     ∨ (n = 1%nat ∧ relevant = true ∧ wordCount content ≤ 50))
  ∧ ((2 ≤ n)%nat → safe (checkContentSafety content) = false).
Proof.
  cbn zeta. unfold checkContentSafety. cbn [safe]. rewrite finalAcc_closed_form. cbn [a_score].
  unfold lengthPenalty, relevancePenalty.
  destruct (checkMythologicalRelevance (toLowerCase content));
    destruct (Z.ltb_spec (wordCount content) 3);
    try destruct (Z.gtb_spec (wordCount content) 50);
    match goal with
    | |- context [(?x >=? 70)] => destruct (Z.geb_spec x 70)
    end;
    (split; [split; [first [intros _; lia | discriminate] | first [reflexivity | intros Hc; exfalso; destruct Hc as [[? [?|?]] | (? & ? & ?)]; (lia || discriminate)]]
            | intros ?; first [reflexivity | exfalso; lia]]).
Qed.

(** *** Letter case *)

Ltac by_cases_on_char c :=
  destruct c as [[] [] [] [] [] [] [] []]; reflexivity.

Lemma lowerChar_idem c : lowerChar (lowerChar c) = lowerChar c.
Proof. by_cases_on_char c. Qed.

Lemma isWordChar_lower c : isWordChar (lowerChar c) = isWordChar c.
Proof. by_cases_on_char c. Qed.

Lemma isSpace_lower c : isSpace (lowerChar c) = isSpace c.
Proof. by_cases_on_char c. Qed.

Lemma toLowerCase_idem s : toLowerCase (toLowerCase s) = toLowerCase s.
Proof. induction s as [|c s IH]; simpl; [done | by rewrite lowerChar_idem, IH]. Qed.

Lemma headIsWord_lower s : headIsWord (toLowerCase s) = headIsWord s.
Proof. destruct s; simpl; [done | apply isWordChar_lower]. Qed.

Lemma matchAlt_lower w : ∀ prev s, matchAlt prev w (toLowerCase s) = matchAlt prev w s.
Proof.
  induction w as [|a w IH]; intros prev s; simpl.
  - unfold isBoundary. by rewrite headIsWord_lower.
  - destruct s as [|b s]; simpl; [done|].
    unfold eqCI. by rewrite lowerChar_idem, isWordChar_lower, IH.
Qed.

Lemma scanFrom_lower p s : ∀ prev, scanFrom p prev (toLowerCase s) = scanFrom p prev s.
Proof.
  assert (Hhere : ∀ prev s, matchHere p prev (toLowerCase s) = matchHere p prev s).
  { intros prev s'. unfold matchHere, isBoundary. rewrite headIsWord_lower. f_equal.
    induction (alternatives p) as [|w ws IHw]; simpl; [done|]. by rewrite matchAlt_lower, IHw. }
  induction s as [|c s IH]; intros prev.
  - reflexivity.
  - change (toLowerCase (String c s)) with (String (lowerChar c) (toLowerCase s)).
    cbn [scanFrom]. rewrite isWordChar_lower, IH.
    f_equal. exact (Hhere prev (String c s)).
Qed.

Lemma test_lower p s : test p (toLowerCase s) = test p s.
Proof. apply scanFrom_lower. Qed.

Lemma splitWs_lower s : ∀ b, length (splitWs b (toLowerCase s)) = length (splitWs b s).
Proof.
  induction s as [|c s IH]; intros b; [done|].
  change (toLowerCase (String c s)) with (String (lowerChar c) (toLowerCase s)).
  rewrite !splitWs_cons, isSpace_lower, !IH. done.
Qed.

Lemma wordCount_lower s : wordCount (toLowerCase s) = wordCount s.
Proof. unfold wordCount, split_whitespace. by rewrite splitWs_lower. Qed.

Lemma filter_ext_bool {A} (f g : A -> bool) (l : list A) :
  (∀ x, f x = g x) → List.filter f l = List.filter g l.
Proof. intros H. induction l as [|x l IH]; simpl; [done | by rewrite H, IH]. Qed.

Lemma hits_lower s : hits (toLowerCase s) = hits s.
Proof. apply filter_ext_bool. intros [c p]. apply test_lower. Qed.

(** X8. On ASCII text the evaluator is blind to letter case: a text and
    its lower-case form get the same score, verdict, flags, issues and
    suggestions.  (Outside ASCII the lower-casing of JavaScript can turn a
    character into a letter the matchers see, such as the Kelvin sign into
    "k"; the statement is about texts without such characters.) *)
Theorem safety_ignores_letter_case (content : string) :
  Observations.isAsciiText content = true →
  checkContentSafety (toLowerCase content) = checkContentSafety content.
Proof.
  intros _.
  unfold checkContentSafety. rewrite !finalAcc_closed_form.
  unfold lengthPenalty, relevancePenalty, lengthIssues, relevanceIssues.
  by rewrite hits_lower, wordCount_lower, !toLowerCase_idem.
Qed.

Lemma safety_ignores_letter_case_witness :
  Observations.isAsciiText "Krishna will KILL the Demon" = true
  ∧ checkContentSafety (toLowerCase "Krishna will KILL the Demon")
    = checkContentSafety "Krishna will KILL the Demon".
Proof.
  split; [reflexivity|].
  exact (safety_ignores_letter_case "Krishna will KILL the Demon" eq_refl).
Defined.

(** *** Every deduction is explained *)

Lemma suggestion_per_hit content :
  length (flat_map (fun cp : string * WordPattern => suggestionFor cp.1) (hits content))
  = length (hits content).
Proof.
  unfold hits.
  assert (Hall : Forall (fun cp : string * WordPattern => length (suggestionFor cp.1) = 1%nat)
                        allMatchers) by (repeat constructor).
  induction allMatchers as [|cp l IH]; [done|].
  inversion Hall as [|? ? H1 H2]; subst. simpl.
  destruct (test cp.2 content); simpl; [|by apply IH].
  rewrite length_app, H1, IH; done.
Qed.

(** X9. Every deduction comes with its explanation: the score is 100
    exactly when no issue is reported, issues and suggestions come in equal
    numbers, the text is flagged exactly when a matcher matched, and the
    score stays within 0..100. *)
Theorem deductions_are_explained (content : string) :
  let r := checkContentSafety content in
  (score r = 100 ↔ issues r = [])
  ∧ length (issues r) = length (suggestions r)
  ∧ (flagged r = true ↔ hits content ≠ [])
  ∧ 0 ≤ score r ≤ 100.
Proof.
  cbn zeta. unfold checkContentSafety. cbn [score issues suggestions flagged].
  rewrite finalAcc_closed_form. cbn [a_score a_issues a_suggestions a_flagged].
  rewrite !length_app, length_map, suggestion_per_hit.
  unfold lengthPenalty, relevancePenalty, lengthIssues, relevanceIssues.
  destruct (hits content) as [|h hs] eqn:Hh;
    destruct (checkMythologicalRelevance (toLowerCase content));
    destruct (wordCount content <? 3); try destruct (wordCount content >? 50);
    cbn [length map app fst snd Nat.eqb negb];
    (split; [split; [intros ?; first [reflexivity | exfalso; lia] | first [reflexivity | discriminate]]
            | split; [reflexivity | split; [split; [first [discriminate | done] | first [reflexivity | intros Hne; by destruct Hne]] | lia]]]).
Qed.

End ContentSafetyMore.

(** ** Accuracy checks *)

Module ContentAccuracyFacts.
Import ContentAccuracy.

Lemma violate_issues issue suggestion r :
  issues (violate issue suggestion r) ≠ [].
Proof. unfold violate. simpl. by destruct (issues r). Qed.

(** X10. A text is reported accurate exactly when no issue is listed, for
    every text and every character hint; a mention of an idol only adds a
    suggestion.  [validateContent] passes no character, so it is valid
    exactly when the text is safe and mentions neither "caste" nor
    "untouchable": the character-specific rules never apply there. *)
Theorem accurate_iff_no_issue (content : string) (character : option string) :
  let r := checkMythologyAccuracy content character in
  (accurate r = true ↔ issues r = [])
  ∧ (length (issues r) ≤ length (suggestions r))%nat
  ∧ valid (validateContent content)
    = ContentSafety.safe (ContentSafety.checkContentSafety content)
      && negb (includes (toLowerCase content) "caste"
               || includes (toLowerCase content) "untouchable").
Proof.
  cbn zeta. split; [|split].
  - unfold checkMythologyAccuracy, characterBlock. cbn zeta.
    destruct character as [ch|]; [destruct (isEmpty ch)|];
      repeat match goal with
             | |- context [if ?b then _ else _] =>
                 match b with
                 | context [if _ then _ else _] => fail 1
                 | _ => destruct b
                 end
             end; cbn; split; (reflexivity || discriminate).
  - unfold checkMythologyAccuracy, characterBlock. cbn zeta.
    destruct character as [ch|]; [destruct (isEmpty ch)|];
      repeat match goal with
             | |- context [if ?b then _ else _] =>
                 match b with
                 | context [if _ then _ else _] => fail 1
                 | _ => destruct b
                 end
             end; cbn; lia.
  - unfold validateContent, checkMythologyAccuracy. cbn [valid]. cbn zeta.
    destruct (includes (toLowerCase content) "caste" || includes (toLowerCase content) "untouchable");
      destruct (includes (toLowerCase content) "idol" || includes (toLowerCase content) "idol worship");
      reflexivity.
Qed.

End ContentAccuracyFacts.


(** ** The quality evaluator: the aggregate against the rule verdicts *)

Module QualityMore.
Import Quality QualityFacts.

Lemma finish_passed acc : passed (finish acc) = (score (finish acc) >=? 70).
Proof.
  unfold finish. simpl.
  destruct (Z.geb_spec (a_score acc) 70), (Z.geb_spec (Z.max 0 (a_score acc)) 70);
    (reflexivity || lia).
Qed.

Lemma aggregate_exact script scene :
  q_score (validateQuality script scene)
  = (weightedSum100 (score (validateMythologicalAccuracy script scene))
                    (score (validateVisualCoherence script))
                    (score (validateCulturalAuthenticity script))
                    (score (validateStorytellingQuality script)) + 50) / 100
  ∧ valid (validateQuality script scene)
    = (7000 <=? weightedSum100 (score (validateMythologicalAccuracy script scene))
                               (score (validateVisualCoherence script))
                               (score (validateCulturalAuthenticity script))
                               (score (validateStorytellingQuality script))).
Proof.
  pose proof (exactOnAll_In _ _ _ _ _ _ _ _ exact_on_reachable
                (mythological_scores script scene) (visual_scores script)
                (cultural_scores script) (storytelling_scores script)) as Hex.
  unfold exactOn in Hex. rewrite !andb_true_iff in Hex. destruct Hex as [[_ Hround] Hvalid].
  apply Z.eqb_eq in Hround. apply eqb_prop in Hvalid.
  split; [exact Hround | exact Hvalid].
Qed.

(** X11. The aggregate never contradicts the rules: the reported score lies
    between the lowest and the highest of the four rule scores, each rule
    passes exactly when its score is at least 70, the verdict is valid when
    all four rules pass and invalid when all four fail. *)
Theorem aggregate_respects_rule_verdicts (script : Script) (scene : string) :
  let rm := validateMythologicalAccuracy script scene in
  let rv := validateVisualCoherence script in
  let rc := validateCulturalAuthenticity script in
  let rs := validateStorytellingQuality script in
  let r := validateQuality script scene in
  Z.min (Z.min (score rm) (score rv)) (Z.min (score rc) (score rs)) ≤ q_score r
  ∧ q_score r ≤ Z.max (Z.max (score rm) (score rv)) (Z.max (score rc) (score rs))
  ∧ Forall (fun x : ValidationResult => passed x = (score x >=? 70)) [rm; rv; rc; rs]
  ∧ (Forall (fun x : ValidationResult => passed x = true) [rm; rv; rc; rs] → valid r = true)
  ∧ (Forall (fun x : ValidationResult => passed x = false) [rm; rv; rc; rs] → valid r = false).
Proof.
  cbn zeta. destruct (aggregate_exact script scene) as [Hq Hv].
  assert (Hp : Forall (fun x : ValidationResult => passed x = (score x >=? 70))
                 [validateMythologicalAccuracy script scene; validateVisualCoherence script;
                  validateCulturalAuthenticity script; validateStorytellingQuality script])
    by (repeat constructor; apply finish_passed).
  set (m := score (validateMythologicalAccuracy script scene)) in *.
  set (v := score (validateVisualCoherence script)) in *.
  set (c := score (validateCulturalAuthenticity script)) in *.
  set (s := score (validateStorytellingQuality script)) in *.
  pose proof (Z.div_mod (weightedSum100 m v c s + 50) 100 ltac:(lia)) as Hdm.
  pose proof (Z.mod_pos_bound (weightedSum100 m v c s + 50) 100 ltac:(lia)) as Hmb.
  unfold weightedSum100 in *.
  split; [rewrite Hq; lia|]. split; [rewrite Hq; lia|]. split; [exact Hp|].
  inversion Hp as [|? ? Hpm Hp1]; subst. inversion Hp1 as [|? ? Hpv Hp2]; subst.
  inversion Hp2 as [|? ? Hpc Hp3]; subst. inversion Hp3 as [|? ? Hps _]; subst.
  fold m in Hpm. fold v in Hpv. fold c in Hpc. fold s in Hps.
  split; intros Hall;
    inversion Hall as [|? ? Hm Hall1]; subst; inversion Hall1 as [|? ? Hv' Hall2]; subst;
    inversion Hall2 as [|? ? Hc' Hall3]; subst; inversion Hall3 as [|? ? Hs' _]; subst;
    rewrite Hm in Hpm; rewrite Hv' in Hpv; rewrite Hc' in Hpc; rewrite Hs' in Hps;
    symmetry in Hpm, Hpv, Hpc, Hps;
    rewrite Hv.
  - apply Z.geb_le in Hpm, Hpv, Hpc, Hps. apply Z.leb_le. lia.
  - destruct (Z.geb_spec m 70); [discriminate|]. destruct (Z.geb_spec v 70); [discriminate|].
    destruct (Z.geb_spec c 70); [discriminate|]. destruct (Z.geb_spec s 70); [discriminate|].
    apply Z.leb_gt. lia.
Qed.

End QualityMore.

(** ** Substrings *)

Module StringFacts.

Lemma startsWith_spec p : ∀ s, startsWith s p = true ↔ ∃ post, s = (p ++ post)%string.
Proof.
  induction p as [|a p IH]; intros s.
  - split; [intros _; by exists s | done].
  - destruct s as [|b s]; simpl.
    + split; [done | intros [post H]; discriminate].
    + rewrite andb_true_iff, IH. split.
      * intros [Hab [post ->]]. apply Ascii.eqb_eq in Hab as ->. by exists post.
      * intros [post H]. injection H as -> ->. split; [apply Ascii.eqb_refl | by exists post].
Qed.

Lemma includes_spec s : ∀ t,
  includes s t = true ↔ ∃ pre post, s = (pre ++ t ++ post)%string.
Proof.
  induction s as [|c s IH]; intros t.
  - simpl. rewrite orb_false_r, startsWith_spec. split.
    + intros [post H]. by exists EmptyString, post.
    + intros (pre & post & H). destruct pre; [by exists post | discriminate].
  - cbn [includes]. rewrite orb_true_iff, startsWith_spec, IH. split.
    + intros [[post H] | (pre & post & H)].
      * by exists EmptyString, post.
      * exists (String c pre), post. simpl. by rewrite H.
    + intros (pre & post & H). destruct pre as [|c' pre].
      * left. by exists post.
      * right. injection H as -> ->. by exists pre, post.
Qed.

Lemma append_assoc_s (a b c : string) : ((a ++ b) ++ c = a ++ (b ++ c))%string.
Proof.
  induction a as [|x a IH]; [done|].
  change (String x ((a ++ b) ++ c)%string = String x (a ++ (b ++ c))%string). by rewrite IH.
Qed.

(** A text that contains a phrase contains every part of the phrase. *)
Lemma includes_trans s t u :
  includes s t = true → includes t u = true → includes s u = true.
Proof.
  rewrite !includes_spec. intros (p1 & q1 & ->) (p2 & q2 & ->).
  exists (p1 ++ p2)%string, (q2 ++ q1)%string.
  by rewrite !append_assoc_s.
Qed.





End StringFacts.

(** ** Characters and prompts *)

Module CharactersFacts.
Import Characters Prompts StringFacts.

Lemma firstWithAlias_spec lowerScene entries :
  match firstWithAlias lowerScene entries with
  | Some p =>
      ∃ before key after,
        entries = before ++ (key, p) :: after
        ∧ hasAlias lowerScene p = true
        ∧ Forall (fun e : string * CharacterProfile => hasAlias lowerScene e.2 = false) before
  | None =>
      Forall (fun e : string * CharacterProfile => hasAlias lowerScene e.2 = false) entries
  end.
Proof.
  induction entries as [|[key p] rest IH]; simpl; [constructor|].
  destruct (hasAlias lowerScene p) eqn:Hp.
  - exists [], key, rest. repeat split; (done || constructor).
  - destruct (firstWithAlias lowerScene rest) as [q|].
    + destruct IH as (before & k & after & -> & Hq & Hb).
      exists ((key, p) :: before), k, after. repeat split; try done. by constructor.
    + by constructor.
Qed.

(** X12. [recognizeCharacter] answers with the first profile of the
    database, in its written order, one of whose aliases occurs in the
    lower-cased scene, and with nothing exactly when no alias of any profile
    occurs.  Since "ram" is an alias of Rama, a scene that contains "ram"
    anywhere (also inside "rama's wife", an alias of Sita) is never
    recognised as Ganesha, Arjuna or Sita. *)
Theorem recognition_takes_the_first_match (scene : string) :
  match recognizeCharacter scene with
  | Some p =>
      ∃ before key after,
        CHARACTER_DATABASE = before ++ (key, p) :: after
        ∧ hasAlias (toLowerCase scene) p = true
        ∧ Forall (fun e : string * CharacterProfile =>
                    hasAlias (toLowerCase scene) e.2 = false) before
  | None =>
      Forall (fun e : string * CharacterProfile =>
                hasAlias (toLowerCase scene) e.2 = false) CHARACTER_DATABASE
  end
  ∧ (∀ phrase, includes (toLowerCase scene) phrase = true → includes phrase "ram" = true →
       ∃ p, recognizeCharacter scene = Some p
            ∧ In (name p) ["Krishna"; "Hanuman"; "Shiva"; "Durga"; "Rama"])
  ∧ includes "rama's wife" "ram" = true.
Proof.
  split; [apply firstWithAlias_spec|]. split; [|reflexivity].
  intros phrase Hphrase Hram.
  pose proof (includes_trans _ _ _ Hphrase Hram) as H.
  unfold recognizeCharacter, CHARACTER_DATABASE. cbn [firstWithAlias].
  repeat match goal with
         | |- context [if hasAlias ?s ?p then _ else _] =>
             lazymatch p with
             | context ["Rama"] => fail
             | _ => destruct (hasAlias s p); [eexists; split; [reflexivity | simpl; tauto]|]
             end
         end.
  assert (Hrama : ∀ p, In "ram" (aliases p) → hasAlias (toLowerCase scene) p = true).
  { intros p Hin. unfold hasAlias. apply existsb_exists. exists "ram". split; [done | exact H]. }
  rewrite Hrama by (simpl; tauto).
  eexists; split; [reflexivity | simpl; tauto].
Qed.






End CharactersFacts.


(** ** The provider adapter in live mode *)

Module AIClientMore.
Import AIClient AIClientFacts Observations.

Lemma completeScript_with_api c api model scene sceneType noContent invalid w :
  openai c = Some api →
  completeScript c model scene sceneType noContent invalid w
  = (match chat_completions_create api (providerCalls w) model (ScriptPrompt scene sceneType) with
     | Thrown e => Thrown e
     | Returned NoContent => Thrown (newError noContent)
     | Returned (Content (Thrown e)) => Thrown e
     | Returned (Content (Returned script)) =>
         if validateScriptStructure script then Returned script
         else Thrown (newError invalid)
     end,
     logged w [ChatCompletion model (ScriptPrompt scene sceneType)]).
Proof.
  intros Hapi. unfold completeScript, bind, callProvider, logged. rewrite Hapi.
  destruct (chat_completions_create api (providerCalls w) model (ScriptPrompt scene sceneType))
    as [[|[script|e]]|e]; try reflexivity.
  destruct (validateScriptStructure script); reflexivity.
Qed.

Lemma completeScript_without_api c model scene sceneType noContent invalid w :
  openai c = None →
  ∃ e, completeScript c model scene sceneType noContent invalid w = (Thrown e, w)
       ∧ isModelNotFound e = false.
Proof.
  intros Hapi. unfold completeScript, bind, callProvider. rewrite Hapi.
  eexists. split; reflexivity.
Qed.

Lemma logged_logged w a b : logged (logged w a) b = logged w (a ++ b).
Proof. unfold logged. simpl. by rewrite app_assoc. Qed.

Lemma logged_nil w : logged w [] = w.
Proof. destruct w. unfold logged. simpl. by rewrite app_nil_r. Qed.

(** The live path of [generateScript], by the replies of the provider. *)
Lemma generateScript_live c api scene sceneType w :
  useMockMode c = false → openai c = Some api →
  let primary := ChatCompletion (primaryModel c) (ScriptPrompt scene sceneType) in
  let fallback := ChatCompletion "gpt-3.5-turbo" (ScriptPrompt scene sceneType) in
  let first := chat_completions_create api (providerCalls w) (primaryModel c)
                 (ScriptPrompt scene sceneType) in
  let second := chat_completions_create api (providerCalls w ++ [primary]) "gpt-3.5-turbo"
                  (ScriptPrompt scene sceneType) in
  generateScript c scene sceneType w
  = if modelNotFound first
    then (attempt second, logged w [primary; fallback])
    else (attempt first, logged w [primary]).
Proof.
  intros Hlive Hapi. cbn zeta. unfold generateScript. rewrite Hlive.
  unfold tryCatch at 1. rewrite (completeScript_with_api c api _ _ _ _ _ w Hapi).
  unfold modelNotFound, attempt.
  destruct (chat_completions_create api (providerCalls w) (primaryModel c)
              (ScriptPrompt scene sceneType)) as [[|[script|e]]|e].
  - reflexivity.
  - destruct (validateScriptStructure script); reflexivity.
  - destruct (isModelNotFound e); cbn [negb]; [|reflexivity].
    unfold tryCatch. rewrite (completeScript_with_api c api _ _ _ _ _ _ Hapi).
    rewrite logged_logged. cbn [app]. unfold logged at 1. cbn [providerCalls].
    destruct (chat_completions_create api _ "gpt-3.5-turbo" _) as [[|[s2|e2]]|e2];
      try reflexivity.
    destruct (validateScriptStructure s2); reflexivity.
  - destruct (isModelNotFound e); cbn [negb]; [|reflexivity].
    unfold tryCatch. rewrite (completeScript_with_api c api _ _ _ _ _ _ Hapi).
    rewrite logged_logged. cbn [app]. unfold logged at 1. cbn [providerCalls].
    destruct (chat_completions_create api _ "gpt-3.5-turbo" _) as [[|[s2|e2]]|e2];
      try reflexivity.
    destruct (validateScriptStructure s2); reflexivity.
Qed.

Lemma generateScript_no_api c scene sceneType w :
  useMockMode c = false → openai c = None →
  generateScript c scene sceneType w = (Thrown scriptFailure, w).
Proof.
  intros Hlive Hapi. unfold generateScript. rewrite Hlive. unfold tryCatch at 1.
  destruct (completeScript_without_api c (primaryModel c) scene sceneType
              "No response content from AI" "Invalid script structure from AI" w Hapi)
    as (e & -> & ->). reflexivity.
Qed.

Lemma attempt_outcome reply :
  match attempt reply with
  | Returned script => validateScriptStructure script = true
  | Thrown e => e = scriptFailure
  end.
Proof.
  unfold attempt. destruct reply as [[|[script|e]]|e]; try reflexivity.
  destruct (validateScriptStructure script) eqn:E; [exact E | reflexivity].
Qed.

(** What [generateScript] can do, in any mode. *)
Lemma generateScript_outcome c scene sceneType w :
  ∃ calls,
    (generateScript c scene sceneType w).2 = logged w calls
    ∧ (length calls ≤ 2)%nat
    ∧ (useMockMode c = true → calls = [])
    ∧ match (generateScript c scene sceneType w).1 with
      | Returned script => validateScriptStructure script = true
      | Thrown e => e = scriptFailure
      end.
Proof.
  destruct (useMockMode c) eqn:Hmode.
  - exists []. rewrite (generateScript_mock c scene sceneType w Hmode). cbn [fst snd].
    rewrite logged_nil. repeat split; try done; try (simpl; lia).
    destruct (validateScriptStructure (generateMockScript scene sceneType)) eqn:E;
      [exact E | exact default_script_valid].
  - destruct (openai c) as [api|] eqn:Hapi.
    + rewrite (generateScript_live c api scene sceneType w Hmode Hapi). cbn zeta.
      destruct (modelNotFound _); eexists; cbn [fst snd];
        (split; [reflexivity|]; split; [simpl; lia|]; split; [done|]; apply attempt_outcome).
    + exists []. rewrite (generateScript_no_api c scene sceneType w Hmode Hapi).
      cbn [fst snd]. rewrite logged_nil. repeat split; try done. simpl; lia.
Qed.

(** X14. Whatever the provider does, [generateScript] either returns a
    structurally valid script or throws the one fixed error "Failed to
    generate script. Please try again." (no provider message or code gets
    through); it leaves both limiters alone and makes at most two provider
    calls, none in mock mode. *)
Theorem script_is_valid_or_fails_with_fixed_error
    (c : t) (scene sceneType : string) (w : World) :
  ∃ calls,
    (generateScript c scene sceneType w).2 = logged w calls
    ∧ (length calls ≤ 2)%nat
    ∧ (useMockMode c = true → calls = [])
    ∧ match (generateScript c scene sceneType w).1 with
      | Returned script => validateScriptStructure script = true
      | Thrown e => e = scriptFailure
      end.
Proof. apply generateScript_outcome. Qed.

(** X15. The fallback model is tried exactly when the first attempt fails
    with [model_not_found], and then exactly once: in that case the result
    is that of the second reply, after two calls; in every other case
    (another failure, no content, an invalid or a valid script) the result
    is that of the first reply, after one call. *)
Theorem fallback_only_on_model_not_found
    (c : t) (api : OpenAI) (scene sceneType : string) (w : World) :
  useMockMode c = false →
  openai c = Some api →
  let primary := ChatCompletion (primaryModel c) (ScriptPrompt scene sceneType) in
  let fallback := ChatCompletion "gpt-3.5-turbo" (ScriptPrompt scene sceneType) in
  let first := chat_completions_create api (providerCalls w) (primaryModel c)
                 (ScriptPrompt scene sceneType) in
  let second := chat_completions_create api (providerCalls w ++ [primary]) "gpt-3.5-turbo"
                  (ScriptPrompt scene sceneType) in
  (modelNotFound first = true →
     generateScript c scene sceneType w = (attempt second, logged w [primary; fallback]))
  ∧ (modelNotFound first = false →
     generateScript c scene sceneType w = (attempt first, logged w [primary]))
  ∧ (∀ script, first = Returned (Content (Returned script)) →
       validateScriptStructure script = false →
       generateScript c scene sceneType w = (Thrown scriptFailure, logged w [primary])).
Proof.
  intros Hlive Hapi. cbn zeta.
  pose proof (generateScript_live c api scene sceneType w Hlive Hapi) as H. cbn zeta in H.
  split; [|split].
  - intros Hm. by rewrite H, Hm.
  - intros Hm. by rewrite H, Hm.
  - intros script Hfirst Hbad. rewrite H, Hfirst. cbn [modelNotFound attempt]. by rewrite Hbad.
Qed.

Lemma fallback_witness :
  let c := liveClient fallbackOnly None in
  (useMockMode c = false ∧ openai c = Some fallbackOnly)
  ∧ (generateScript c "Rama draws his bow" "action" Route.initialWorld).1
    = Returned (scriptVal defaultScript).
Proof.
  split; [split; reflexivity|].
  pose proof (proj1 (fallback_only_on_model_not_found (liveClient fallbackOnly None) fallbackOnly
                       "Rama draws his bow" "action" Route.initialWorld eq_refl eq_refl)
                eq_refl) as H.
  rewrite H. reflexivity.
Defined.

(** X16. The quality review never throws and fails neutral: in mock mode,
    and in live mode when the provider call fails, answers nothing, or
    answers something that is not JSON, the verdict is [valid: true] with no
    issues; a reply that parses is handed on as it is. *)
Theorem quality_review_fails_neutral (c : t) (script : jsval) (scene : string) (w : World) :
  ∃ verdict w',
    validateQuality c script scene w = (Returned verdict, w')
    ∧ (useMockMode c = true →
       w' = w ∧ getProp verdict "valid" = JBool true ∧ getProp verdict "issues" = JArr [])
    ∧ (useMockMode c = false →
       match openai c with
       | None => w' = w ∧ getProp verdict "valid" = JBool true
       | Some api =>
           w' = logged w [ChatCompletion (primaryModel c) (QualityPrompt script scene)]
           ∧ match chat_completions_create api (providerCalls w) (primaryModel c)
                     (QualityPrompt script scene) with
             | Returned (Content (Returned v)) => verdict = v
             | _ => getProp verdict "valid" = JBool true
                    ∧ getProp verdict "issues" = JArr []
             end
       end).
Proof.
  unfold validateQuality. destruct (useMockMode c).
  - eexists _, _. split; [reflexivity|]. split; [done | discriminate].
  - unfold tryCatch, bind, callProvider, logged.
    destruct (openai c) as [api|].
    + destruct (chat_completions_create api (providerCalls w) (primaryModel c)
                  (QualityPrompt script scene)) as [[|[v|e]]|e];
        eexists _, _; (split; [reflexivity|]; split; [discriminate|]; intros _; done).
    + eexists _, _. split; [reflexivity|]. split; [discriminate | done].
Qed.

(** X17. [generateImage] throws only the fixed error "Failed to generate
    image. Please try again."; in live mode a returned value is a non-empty
    URL string.  With content safety disabled, as the constructor sets it,
    it makes no moderation call: at most the one image call. *)
Theorem image_is_url_or_fails_with_fixed_error
    (c : t) (prompt styleType : string) (w : World) :
  match (generateImage c prompt styleType w).1 with
  | Returned v =>
      if useMockMode c then v = generateMockImage prompt styleType
      else ∃ url, v = JStr url ∧ url ≠ EmptyString
  | Thrown e => e = imageFailure
  end
  ∧ (contentSafetyEnabled c = false →
     (generateImage c prompt styleType w).2 = w
     ∨ (generateImage c prompt styleType w).2
       = logged w [ImageGeneration prompt styleType])
  ∧ (∀ isBrowser apiKey connect model,
       contentSafetyEnabled (create isBrowser apiKey connect model) = false).
Proof.
  split; [|split].
  - unfold generateImage. destruct (useMockMode c) eqn:Hmode; [reflexivity|].
    unfold tryCatch, bind, callProvider.
    destruct (contentSafetyEnabled c).
    + destruct (checkContentSafety c prompt w) as [[verdict|e] w1]; [|reflexivity].
      destruct (safe verdict); cbn [negb ret throw]; [|reflexivity].
      destruct (openai c) as [api|]; [|reflexivity].
      destruct (images_generate api (providerCalls w1) prompt styleType) as [[url|]|e];
        try reflexivity.
      destruct url as [|ch rest]; [reflexivity|]. cbn.
      eexists. split; [reflexivity | discriminate].
    + cbn [ret]. destruct (openai c) as [api|]; [|reflexivity].
      destruct (images_generate api (providerCalls w) prompt styleType) as [[url|]|e];
        try reflexivity.
      destruct url as [|ch rest]; [reflexivity|]. cbn.
      eexists. split; [reflexivity | discriminate].
  - intros Hoff. unfold generateImage. destruct (useMockMode c); [by left|].
    rewrite Hoff. unfold tryCatch, bind, ret, throw, callProvider, logged.
    destruct (openai c) as [api|]; [|by left].
    right.
    destruct (images_generate api (providerCalls w) prompt styleType) as [[url|]|e];
      try reflexivity.
    destruct url; reflexivity.
  - intros isBrowser apiKey connect model. unfold create.
    destruct isBrowser, apiKey as [key|]; try reflexivity;
      destruct (isEmpty key || String.eqb key "your_openai_api_key_here"); reflexivity.
Qed.

End AIClientMore.


(** ** The script-stage handler, stage by stage *)

Module RouteMore.
Import Route RouteFacts Observations.

Lemma safetyGate_cases ops sceneText w :
  ∃ w', safetyGate ops sceneText w = (Returned None, w')
        ∨ safetyGate ops sceneText w = (Returned (Some unsafeInputError), w').
Proof.
  unfold safetyGate, tryCatch, bind.
  destruct (checkContentSafety ops sceneText w) as [[verdict|e] w'].
  - destruct (negb (AIClient.safe verdict)); eexists; [right | left]; reflexivity.
  - eexists. left. reflexivity.
Qed.

Lemma qualityGate_returns ops script sceneText w :
  ∃ w', qualityGate ops script sceneText w = (Returned tt, w').
Proof.
  unfold qualityGate, tryCatch, bind.
  destruct (validateQuality ops script sceneText w) as [[q|e] w']; [|by eexists].
  destruct q; by eexists.
Qed.

(** The handler on a scene that passes validation. *)
Lemma POST_valid_scene ops now req w sceneText :
  scene req = JStr sceneText → inRange sceneText →
  let d := (RateLimiter.isAllowed now (clientIP req) (scriptRateLimiter w)).1 in
  let w1 := afterScriptCheck now (clientIP req) w in
  let sceneTy := match sceneType req with Some t => t | None => "general" end in
  POST ops now req w
  = if RateLimiter.allowed d then
      match safetyGate ops sceneText w1 with
      | (Returned (Some response), w2) => (response, w2)
      | (Returned None, w2) =>
          match generateScript ops sceneText sceneTy w2 with
          | (Returned script, w3) =>
              (mkResponse 200
                 (ScriptBody script sceneText sceneTy (sceneWordCount sceneText)
                    (RateLimiter.remaining d) (RateLimiter.resetAt d)),
               (qualityGate ops script sceneText w3).2)
          | (Thrown _, w3) => (generationError, w3)
          end
      | (Thrown _, w2) => (generationError, w2)
      end
    else (rateLimitError (RateLimiter.resetAt d), w1).
Proof.
  intros Hscene Hrange. cbn zeta.
  destruct (inRange_not_blank _ Hrange) as [Hne Hlen].
  unfold POST, handle. rewrite Hscene. cbn [truthy]. rewrite Hne. cbn [negb]. rewrite Hlen.
  destruct Hrange as [Hlo Hhi].
  destruct (Z.ltb_spec (sceneWordCount sceneText) 3); [lia|].
  destruct (Z.gtb_spec (sceneWordCount sceneText) 20); [lia|]. cbn [orb].
  unfold bind at 1. rewrite admitScript_eq. fold (afterScriptCheck now (clientIP req) w).
  destruct (RateLimiter.allowed _); cbn [negb]; [|reflexivity].
  unfold bind at 1.
  destruct (safetyGate ops sceneText _) as [[[response|]|e] w2]; try reflexivity.
  unfold generationStage, bind.
  destruct (generateScript ops sceneText _ w2) as [[script|e] w3]; [|reflexivity].
  destruct (qualityGate_returns ops script sceneText w3) as [w4 ->]. reflexivity.
Qed.

Lemma out_of_range_response ops now req w sceneText :
  scene req = JStr sceneText → outOfRange sceneText →
  POST ops now req w
  = (if len (trim sceneText) =? 0 then requiredError else wordCountError, w).
Proof.
  intros Hscene Hrange.
  unfold POST, handle. rewrite Hscene. cbn [truthy].
  destruct sceneText as [|c rest] eqn:Hs.
  - reflexivity.
  - cbn [isEmpty negb]. rewrite <- Hs in *.
    destruct (len (trim sceneText) =? 0); [reflexivity|].
    unfold outOfRange in Hrange.
    destruct (Z.ltb_spec (sceneWordCount sceneText) 3); [reflexivity|].
    destruct (Z.gtb_spec (sceneWordCount sceneText) 20); [reflexivity | lia].
Qed.

(** X18. The script handler answers only with its own fixed responses: a
    success (status 200), or one of the five rejections (scene required,
    word count, rate limit with the reset time, unsafe input, generation
    failed), whatever the request and whatever the client throws. *)
Theorem script_handler_answers_are_fixed
    (ops : ClientOps) (now : Z) (req : Request) (w : World) :
  let r := (POST ops now req w).1 in
  (status r = 200 ∧ ∃ script s t n rem reset, body r = ScriptBody script s t n rem reset)
  ∨ In r [requiredError; wordCountError; unsafeInputError; generationError]
  ∨ ∃ resetTime, r = rateLimitError resetTime.
Proof.
  cbn zeta. destruct (scene req) as [| |b|z|s|items|fields|] eqn:Hscene;
    try (right; left; unfold POST, handle; rewrite Hscene; cbn; tauto).
  - destruct b; right; left; unfold POST, handle; rewrite Hscene; cbn; tauto.
  - right; left; unfold POST, handle; rewrite Hscene; cbn.
    destruct (z =? 0); cbn; tauto.
  - destruct (Z_lt_le_dec (sceneWordCount s) 3) as [Hlo|Hlo];
      [|destruct (Z_lt_le_dec 20 (sceneWordCount s)) as [Hhi|Hhi]].
    + right; left.
      rewrite (out_of_range_response ops now req w s Hscene (or_introl Hlo)).
      destruct (len (trim s) =? 0); simpl; tauto.
    + right; left.
      rewrite (out_of_range_response ops now req w s Hscene (or_intror Hhi)).
      destruct (len (trim s) =? 0); simpl; tauto.
    + rewrite (POST_valid_scene ops now req w s Hscene (conj Hlo Hhi)). cbn zeta.
      destruct (RateLimiter.allowed _); [|right; right; by eexists].
      destruct (safetyGate_cases ops s (afterScriptCheck now (clientIP req) w))
        as [w2 [-> | ->]]; [|right; left; simpl; tauto].
      destruct (generateScript ops s _ w2) as [[script|e] w3];
        [left; split; [reflexivity | by eexists _, _, _, _, _, _]
        | right; left; simpl; tauto].
Qed.

(** Past validation the handler never answers with a validation rejection. *)
Lemma script_handler_stage_exclusion ops now req w sceneText :
  scene req = JStr sceneText → inRange sceneText →
  ¬ ((POST ops now req w).1 = requiredError ∨ (POST ops now req w).1 = wordCountError)
  ∧ True.
Proof.
  intros Hscene Hrange. split; [|done].
  rewrite (POST_valid_scene ops now req w sceneText Hscene Hrange). cbn zeta.
  destruct (RateLimiter.allowed _); [|intros [H|H]; discriminate H].
  destruct (safetyGate_cases ops sceneText (afterScriptCheck now (clientIP req) w))
    as [w2 [-> | ->]]; [|intros [H|H]; discriminate H].
  destruct (generateScript ops sceneText _ w2) as [[script|e] w3];
    intros [H|H]; discriminate H.
Qed.

Lemma denied_state_unchanged now id rl :
  RateLimiter.allowed (RateLimiter.isAllowed now id rl).1 = false →
  (RateLimiter.isAllowed now id rl).2 = rl.
Proof.
  unfold RateLimiter.isAllowed.
  destruct (RateLimiter.limits rl !! id) as [e|]; [|discriminate].
  destruct (now >? RateLimiter.resetTime e); [discriminate|].
  destruct (RateLimiter.count e >=? RateLimiter.maxRequests rl); [done | discriminate].
Qed.

Lemma world_eta w : mkWorld (scriptRateLimiter w) (imageRateLimiter w) (providerCalls w) = w.
Proof. by destruct w. Qed.

(** X19. A request over its quota is turned away at the gate: the answer is
    the 429 rejection carrying the [resetTime] of the caller's entry, and
    nothing at all changes (no count, no provider call, no client call). *)
Theorem over_quota_request_changes_nothing
    (ops : ClientOps) (now : Z) (req : Request) (w : World) (sceneText : string) :
  scene req = JStr sceneText →
  inRange sceneText →
  RateLimiter.allowed (RateLimiter.isAllowed now (clientIP req) (scriptRateLimiter w)).1 = false →
  POST ops now req w
  = (rateLimitError
       (RateLimiter.resetAt (RateLimiter.isAllowed now (clientIP req) (scriptRateLimiter w)).1),
     w)
  ∧ ∃ e, RateLimiter.limits (scriptRateLimiter w) !! clientIP req = Some e
         ∧ RateLimiter.resetAt
             (RateLimiter.isAllowed now (clientIP req) (scriptRateLimiter w)).1
           = RateLimiter.resetTime e
         ∧ now ≤ RateLimiter.resetTime e.
Proof.
  intros Hscene Hrange Hdenied.
  rewrite (POST_valid_scene ops now req w sceneText Hscene Hrange). cbn zeta.
  rewrite Hdenied. unfold afterScriptCheck. rewrite (denied_state_unchanged _ _ _ Hdenied).
  rewrite world_eta. split; [reflexivity|].
  revert Hdenied. unfold RateLimiter.isAllowed.
  destruct (RateLimiter.limits (scriptRateLimiter w) !! clientIP req) as [e|]; [|discriminate].
  destruct (Z.gtb_spec now (RateLimiter.resetTime e)); [discriminate|].
  destruct (RateLimiter.count e >=? RateLimiter.maxRequests (scriptRateLimiter w));
    [|discriminate].
  intros _. exists e. simpl. repeat split; (done || lia).
Qed.

Lemma over_quota_witness :
  let req := mkRequest (JStr "Krishna lifts the mountain") None (Some "10.0.0.7") None in
  let w := afterScriptCheck 0 "10.0.0.7"
             (mkWorld (RateLimiter.create 1 60000) (RateLimiter.create 5 60000) []) in
  (scene req = JStr "Krishna lifts the mountain"
   ∧ inRange "Krishna lifts the mountain"
   ∧ RateLimiter.allowed
       (RateLimiter.isAllowed 10 (clientIP req) (scriptRateLimiter w)).1 = false)
  ∧ POST faultyModeration 10 req w = (rateLimitError 60000, w).
Proof.
  cbn zeta.
  assert (Hrange : inRange "Krishna lifts the mountain") by (split; vm_compute; congruence).
  split; [repeat split; (apply Hrange || reflexivity)|].
  exact (proj1 (over_quota_request_changes_nothing faultyModeration 10
                  (mkRequest (JStr "Krishna lifts the mountain") None (Some "10.0.0.7") None)
                  (afterScriptCheck 0 "10.0.0.7"
                     (mkWorld (RateLimiter.create 1 60000) (RateLimiter.create 5 60000) []))
                  "Krishna lifts the mountain" eq_refl Hrange eq_refl)).
Defined.

(** X20. A request rejected as unsafe has still been counted: the answer is
    the unsafe-input rejection, the caller's quota entry is the one the
    admission left (its count incremented), and the script generator has not
    been called (the world is the one the safety check left). *)
Theorem unsafe_request_is_still_counted
    (ops : ClientOps) (now : Z) (req : Request) (w : World) (sceneText : string)
    (verdict : AIClient.SafetyVerdict) (w2 : World) :
  scene req = JStr sceneText →
  inRange sceneText →
  RateLimiter.allowed (RateLimiter.isAllowed now (clientIP req) (scriptRateLimiter w)).1 = true →
  checkContentSafety ops sceneText (afterScriptCheck now (clientIP req) w)
  = (Returned verdict, w2) →
  AIClient.safe verdict = false →
  POST ops now req w = (unsafeInputError, w2)
  ∧ RateLimiter.limits (scriptRateLimiter (afterScriptCheck now (clientIP req) w))
      !! clientIP req
    = Some (RateLimiter.mkEntry
              (RateLimiter.maxRequests (scriptRateLimiter w)
               - RateLimiter.remaining
                   (RateLimiter.isAllowed now (clientIP req) (scriptRateLimiter w)).1)
              (RateLimiter.resetAt
                 (RateLimiter.isAllowed now (clientIP req) (scriptRateLimiter w)).1)).
Proof.
  intros Hscene Hrange Hallowed Hcheck Hunsafe.
  rewrite (POST_valid_scene ops now req w sceneText Hscene Hrange). cbn zeta.
  rewrite Hallowed. unfold safetyGate, tryCatch, bind. rewrite Hcheck, Hunsafe. cbn [negb ret].
  split; [reflexivity|].
  unfold afterScriptCheck. cbn [scriptRateLimiter].
  by apply RateLimiterMore.decision_matches_table_aux.
Qed.

(** A client whose moderation finds everything unsafe. *)
Lemma unsafe_request_witness :
  let ops := mkOps (fun _ => ret (AIClient.mkVerdict false true []))
                   (generateScript faultyModeration) (validateQuality faultyModeration) in
  let req := mkRequest (JStr "Krishna lifts the mountain") None None None in
  (scene req = JStr "Krishna lifts the mountain"
   ∧ inRange "Krishna lifts the mountain"
   ∧ RateLimiter.allowed
       (RateLimiter.isAllowed 0 (clientIP req) (scriptRateLimiter initialWorld)).1 = true
   ∧ checkContentSafety ops "Krishna lifts the mountain"
       (afterScriptCheck 0 (clientIP req) initialWorld)
     = (Returned (AIClient.mkVerdict false true []),
        afterScriptCheck 0 (clientIP req) initialWorld)
   ∧ AIClient.safe (AIClient.mkVerdict false true []) = false)
  ∧ (POST ops 0 req initialWorld).1 = unsafeInputError.
Proof.
  cbn zeta.
  assert (Hrange : inRange "Krishna lifts the mountain") by (split; vm_compute; congruence).
  split; [repeat split; (apply Hrange || reflexivity)|].
  pose proof (proj1 (unsafe_request_is_still_counted
                  (mkOps (fun _ => ret (AIClient.mkVerdict false true []))
                         (generateScript faultyModeration) (validateQuality faultyModeration))
                  0 (mkRequest (JStr "Krishna lifts the mountain") None None None)
                  initialWorld "Krishna lifts the mountain" _ _
                  eq_refl Hrange eq_refl eq_refl eq_refl)) as H.
  by rewrite H.
Defined.

(** X21. In mock mode every scene that passes validation and admission is
    served: the answer is a success carrying the mock script for the scene,
    which is structurally valid, and the remaining quota of the admission;
    no safety rejection is possible, no provider call is made and the image
    limiter is untouched. *)
Theorem mock_mode_serves_every_admitted_scene
    (c : AIClient.t) (now : Z) (req : Request) (w : World) (sceneText : string) :
  AIClient.useMockMode c = true →
  scene req = JStr sceneText →
  inRange sceneText →
  RateLimiter.allowed (RateLimiter.isAllowed now (clientIP req) (scriptRateLimiter w)).1 = true →
  let d := (RateLimiter.isAllowed now (clientIP req) (scriptRateLimiter w)).1 in
  let sceneTy := match sceneType req with Some t => t | None => "general" end in
  POST (aiClient c) now req w
  = (mkResponse 200
       (ScriptBody (mockScript sceneText sceneTy) sceneText sceneTy (sceneWordCount sceneText)
                   (RateLimiter.remaining d) (RateLimiter.resetAt d)),
     afterScriptCheck now (clientIP req) w)
  ∧ AIClient.validateScriptStructure (mockScript sceneText sceneTy) = true.
Proof.
  intros Hmock Hscene Hrange Hallowed. cbn zeta.
  rewrite (POST_valid_scene (aiClient c) now req w sceneText Hscene Hrange). cbn zeta.
  rewrite Hallowed.
  unfold safetyGate, tryCatch, bind, aiClient. cbn [checkContentSafety generateScript].
  unfold AIClient.checkContentSafety. rewrite Hmock. cbn [ret AIClient.safe negb].
  rewrite (AIClientFacts.generateScript_mock c _ _ _ Hmock). fold (mockScript sceneText
    (match sceneType req with Some t => t | None => "general" end)).
  unfold qualityGate, tryCatch, bind. cbn [validateQuality].
  unfold AIClient.validateQuality. rewrite Hmock. cbn [ret snd].
  split; [reflexivity|].
  unfold mockScript.
  destruct (AIClient.validateScriptStructure (AIClient.generateMockScript sceneText _)) eqn:E;
    [exact E | exact AIClientFacts.default_script_valid].
Qed.

Lemma mock_mode_serves_witness :
  let req := mkRequest (JStr "Krishna lifts the mountain") None None None in
  (AIClient.useMockMode AIClient.unconfigured = true
   ∧ scene req = JStr "Krishna lifts the mountain"
   ∧ inRange "Krishna lifts the mountain"
   ∧ RateLimiter.allowed
       (RateLimiter.isAllowed 0 (clientIP req) (scriptRateLimiter initialWorld)).1 = true)
  ∧ status (POST (aiClient AIClient.unconfigured) 0 req initialWorld).1 = 200.
Proof.
  cbn zeta.
  assert (Hrange : inRange "Krishna lifts the mountain") by (split; vm_compute; congruence).
  split; [repeat split; (apply Hrange || reflexivity)|].
  pose proof (proj1 (mock_mode_serves_every_admitted_scene AIClient.unconfigured 0
                  (mkRequest (JStr "Krishna lifts the mountain") None None None)
                  initialWorld "Krishna lifts the mountain"
                  eq_refl eq_refl Hrange eq_refl)) as H.
  by rewrite H.
Defined.

(** X22. The quality review is advisory: replacing it by any other review
    (one that fails, throws, or rewrites the world) leaves the answer of the
    script handler unchanged, for every request. *)
Theorem quality_review_is_advisory
    (ops : ClientOps) (review : jsval -> string -> M jsval)
    (now : Z) (req : Request) (w : World) :
  (POST (withQuality ops review) now req w).1 = (POST ops now req w).1.
Proof.
  destruct (scene req) as [| | b | z | s | l | o |] eqn:Hscene;
    try (unfold POST, handle; rewrite Hscene;
         destruct (negb (truthy _)); reflexivity).
  destruct (Z_lt_le_dec (sceneWordCount s) 3) as [Hlo | Hlo].
  { by rewrite !(out_of_range_response _ now req w s Hscene (or_introl Hlo)). }
  destruct (Z_lt_le_dec 20 (sceneWordCount s)) as [Hhi | Hhi].
  { by rewrite !(out_of_range_response _ now req w s Hscene (or_intror Hhi)). }
  assert (Hrange : inRange s) by (split; lia).
  rewrite !(POST_valid_scene _ now req w s Hscene Hrange). cbn zeta.
  destruct (RateLimiter.allowed _); [|reflexivity].
  change (safetyGate (withQuality ops review) s) with (safetyGate ops s).
  destruct (safetyGate ops s _) as [[[response|]|e] w2]; try reflexivity.
  change (generateScript (withQuality ops review)) with (generateScript ops).
  destruct (generateScript ops s _ w2) as [[script|e] w3]; reflexivity.
Qed.

(** X23. The check the browser runs before sending agrees with the server:
    [validateSceneInput] refuses a scene exactly when the script handler
    answers it with the scene-required or the word-count rejection, and
    those are the rejections that leave the world unchanged. *)
Theorem client_and_server_validation_agree
    (ops : ClientOps) (now : Z) (req : Request) (w : World) (sceneText : string) :
  scene req = JStr sceneText →
  (ApiClient.isValid (ApiClient.validateSceneInput sceneText) = false
   ↔ In (POST ops now req w).1 [requiredError; wordCountError])
  ∧ (ApiClient.isValid (ApiClient.validateSceneInput sceneText) = false →
     (POST ops now req w).2 = w)
  ∧ (ApiClient.isValid (ApiClient.validateSceneInput sceneText) = true ↔ inRange sceneText).
Proof.
  intros Hscene.
  assert (Hiff : ApiClient.isValid (ApiClient.validateSceneInput sceneText) = true
                 ↔ inRange sceneText).
  { unfold ApiClient.validateSceneInput, inRange.
    fold (sceneWordCount sceneText).
    destruct (isEmpty sceneText) eqn:He.
    - destruct sceneText; [|discriminate]. cbn. split; [discriminate|].
      intros [H _]. vm_compute in H. by destruct H.
    - cbn [orb]. destruct (len (trim sceneText) =? 0) eqn:Hl.
      + cbn. split; [discriminate|]. intros Hr.
        destruct (inRange_not_blank _ Hr) as [_ Hl']. congruence.
      + destruct (Z.ltb_spec (sceneWordCount sceneText) 3); cbn; [split; [discriminate | lia]|].
        destruct (Z.gtb_spec (sceneWordCount sceneText) 20); cbn; [split; [discriminate | lia]|].
        split; [lia | done]. }
  destruct (ApiClient.isValid (ApiClient.validateSceneInput sceneText)).
  - assert (Hrange : inRange sceneText) by (by apply Hiff).
    split; [|split; [discriminate | by split]].
    split; [discriminate|]. intros Hin. exfalso.
    pose proof (proj1 (script_handler_stage_exclusion ops now req w sceneText Hscene Hrange))
      as Hex.
    apply Hex. destruct Hin as [H | [H | []]]; rewrite <- H; tauto.
  - assert (Hout : outOfRange sceneText).
    { unfold outOfRange. destruct (Z_lt_le_dec (sceneWordCount sceneText) 3); [by left|].
      destruct (Z_lt_le_dec 20 (sceneWordCount sceneText)); [by right|].
      assert (inRange sceneText) as Hr by (split; lia). apply Hiff in Hr. discriminate Hr. }
    rewrite (out_of_range_response ops now req w sceneText Hscene Hout).
    split; [|split; [done | split; [discriminate | intros Hr; apply Hiff in Hr; discriminate Hr]]].
    split; [|done]. intros _. destruct (len (trim sceneText) =? 0); simpl; tauto.
Qed.

Lemma client_and_server_witness :
  let req := mkRequest (JStr "Krishna") None None None in
  scene req = JStr "Krishna"
  ∧ (ApiClient.isValid (ApiClient.validateSceneInput "Krishna") = false
     ↔ In (POST faultyModeration 0 req initialWorld).1 [requiredError; wordCountError]).
Proof.
  cbn zeta. split; [reflexivity|].
  exact (proj1 (client_and_server_validation_agree faultyModeration 0
                  (mkRequest (JStr "Krishna") None None None) initialWorld "Krishna" eq_refl)).
Defined.

End RouteMore.

(** ** The image-stage, combined and reset handlers *)

Module HandlersFacts.
Import Route RouteFacts Handlers Observations.

(** *** What the adapter does to the world *)

Lemma onlyLogs_ret {A} (a : A) : onlyLogs (ret a).
Proof. intros w. exists []. destruct w. unfold logged. simpl. by rewrite app_nil_r. Qed.

Lemma onlyLogs_throw {A} e : onlyLogs (@throw A e).
Proof. intros w. exists []. destruct w. unfold logged. simpl. by rewrite app_nil_r. Qed.

Lemma onlyLogs_bind {A B} (m : M A) (k : A -> M B) :
  onlyLogs m → (∀ a, onlyLogs (k a)) → onlyLogs (bind m k).
Proof.
  intros Hm Hk w. unfold bind. destruct (Hm w) as [c1 H1].
  destruct (m w) as [[a|e] w1]; simpl in H1; subst w1.
  - destruct (Hk a (logged w c1)) as [c2 H2]. exists (c1 ++ c2). rewrite H2.
    unfold logged. simpl. by rewrite app_assoc.
  - by exists c1.
Qed.

Lemma onlyLogs_tryCatch {A} (m : M A) (handler : exn -> M A) :
  onlyLogs m → (∀ e, onlyLogs (handler e)) → onlyLogs (tryCatch m handler).
Proof.
  intros Hm Hk w. unfold tryCatch. destruct (Hm w) as [c1 H1].
  destruct (m w) as [[a|e] w1]; simpl in H1; subst w1.
  - by exists c1.
  - destruct (Hk e (logged w c1)) as [c2 H2]. exists (c1 ++ c2). rewrite H2.
    unfold logged. simpl. by rewrite app_assoc.
Qed.

Lemma onlyLogs_callProvider {A} c call (endpoint : AIClient.OpenAI -> list ProviderCall -> outcome A) :
  onlyLogs (AIClient.callProvider c call endpoint).
Proof.
  intros w. unfold AIClient.callProvider. destruct (AIClient.openai c).
  - by exists [call].
  - exists []. destruct w. unfold logged. simpl. by rewrite app_nil_r.
Qed.

Ltac logs :=
  repeat first
    [ apply onlyLogs_ret | apply onlyLogs_throw | apply onlyLogs_callProvider
    | apply onlyLogs_bind | apply onlyLogs_tryCatch
    | match goal with
      | |- ∀ _, _ => intro; cbv beta
      | |- onlyLogs (if ?b then _ else _) => destruct b
      | |- onlyLogs (match ?x with _ => _ end) => destruct x
      end ].

Lemma checkContentSafety_logs c content : onlyLogs (AIClient.checkContentSafety c content).
Proof. unfold AIClient.checkContentSafety. logs. Qed.




Lemma generateImage_logs c prompt styleType : onlyLogs (AIClient.generateImage c prompt styleType).
Proof.
  unfold AIClient.generateImage. destruct (AIClient.useMockMode c); [apply onlyLogs_ret|].
  apply onlyLogs_tryCatch; [|intros; apply onlyLogs_throw].
  apply onlyLogs_bind.
  - destruct (AIClient.contentSafetyEnabled c); [|apply onlyLogs_ret].
    apply onlyLogs_bind; [apply checkContentSafety_logs|]. intros v.
    destruct (negb _); [apply onlyLogs_throw | apply onlyLogs_ret].
  - intros _. apply onlyLogs_bind; [apply onlyLogs_callProvider|].
    intros [url|]; [|apply onlyLogs_throw].
    destruct (isEmpty url); [apply onlyLogs_throw | apply onlyLogs_ret].
Qed.

(** [generateImage] throws nothing but its fixed error. *)
Lemma generateImage_throws c prompt styleType w e w' :
  AIClient.generateImage c prompt styleType w = (Thrown e, w') → e = imageFailure.
Proof.
  unfold AIClient.generateImage. destruct (AIClient.useMockMode c); [discriminate|].
  unfold tryCatch.
  destruct (bind _ _ w) as [[v|e0] w0]; [discriminate|].
  unfold throw. by intros [= <- _].
Qed.

Lemma generateScript_throws c scene sceneType w e w' :
  AIClient.generateScript c scene sceneType w = (Thrown e, w') → e = scriptFailure.
Proof.
  intros H.
  destruct (AIClientMore.generateScript_outcome c scene sceneType w) as (calls & _ & _ & _ & Hout).
  rewrite H in Hout. exact Hout.
Qed.

(** *** The stages of the combined handler *)

Lemma panelSafetyGate_cases ops sceneText w :
  ∃ w', (panelSafetyGate ops sceneText w = (Returned None, w')
         ∨ panelSafetyGate ops sceneText w = (Returned (Some panelUnsafe), w'))
        ∧ w' = (checkContentSafety (base ops) sceneText w).2.
Proof.
  unfold panelSafetyGate, tryCatch, bind.
  destruct (checkContentSafety (base ops) sceneText w) as [[verdict|e] w'].
  - destruct (negb (AIClient.safe verdict)); eexists; (split; [|reflexivity]);
      [right | left]; reflexivity.
  - eexists. split; [left|]; reflexivity.
Qed.

Lemma panelScript_cases ops sceneText sceneTy w :
  let result := generateScript (base ops) sceneText sceneTy w in
  panelScript ops sceneText sceneTy w
  = (match result.1 with
     | Returned script =>
         if inlineScriptCheck script then Returned (inl script)
         else Returned (inr panelScriptIncomplete)
     | Thrown e => Returned (inr (mkPanelResponse 500 (PanelFailure (exn_message e) true)))
     end, result.2).
Proof.
  cbn zeta. unfold panelScript, tryCatch, bind.
  destruct (generateScript (base ops) sceneText sceneTy w) as [[script|e] w']; cbn [fst snd];
    [|reflexivity].
  destruct (inlineScriptCheck script); reflexivity.
Qed.

(** The combined handler on a scene that passes validation. *)
Lemma panelPOST_valid_scene ops now later req w sceneText :
  p_scene req = JStr sceneText → inRange sceneText →
  let id := panelClientIP req in
  let sceneTy := match p_sceneType req with Some t => t | None => "general" end in
  let styleTy := match p_styleType req with Some t => t | None => "vibrant" end in
  let d := (RateLimiter.isAllowed now id (scriptRateLimiter w)).1 in
  let w1 := afterScriptCheck now id w in
  panelPOST ops now later req w
  = if RateLimiter.allowed d then
      match panelSafetyGate ops sceneText w1 with
      | (Returned (Some response), w2) => (response, w2)
      | (Returned None, w2) =>
          let result := generateScript (base ops) sceneText sceneTy w2 in
          match result.1 with
          | Thrown e => (mkPanelResponse 500 (PanelFailure (exn_message e) true), result.2)
          | Returned script =>
              if inlineScriptCheck script then
                let w4 := (qualityGate (base ops) script sceneText result.2).2 in
                let d' := (RateLimiter.isAllowed later id (imageRateLimiter w4)).1 in
                let w5 := afterImageCheck later id w4 in
                if RateLimiter.allowed d' then
                  match generateImage ops (imageDescriptionOf script) styleTy w5 with
                  | (Returned imageUrl, w6) =>
                      (mkPanelResponse 200
                         (PanelOk script imageUrl sceneText sceneTy styleTy
                            (RateLimiter.remaining d) (RateLimiter.remaining d')
                            (Z.max (RateLimiter.resetAt d) (RateLimiter.resetAt d'))), w6)
                  | (Thrown e, w6) =>
                      (mkPanelResponse 500 (PanelFailure (exn_message e) false), w6)
                  end
                else (panelImageLimited (RateLimiter.resetAt d'), w5)
              else (panelScriptIncomplete, result.2)
          end
      | (Thrown e, w2) => (mkPanelResponse 500 (PanelFailure (exn_message e) false), w2)
      end
    else (panelScriptLimited (RateLimiter.resetAt d), w1).
Proof.
  intros Hscene Hrange. cbn zeta.
  destruct (inRange_not_blank _ Hrange) as [Hne Hlen].
  destruct Hrange as [Hlo Hhi].
  unfold panelPOST, handlePanel. rewrite Hscene. cbn [truthy]. rewrite Hne. cbn [negb].
  rewrite Hlen.
  destruct (Z.ltb_spec (sceneWordCount sceneText) 3); [lia|].
  destruct (Z.gtb_spec (sceneWordCount sceneText) 20); [lia|]. cbn [orb].
  unfold bind at 1. rewrite admitScript_eq.
  fold (afterScriptCheck now (panelClientIP req) w).
  destruct (RateLimiter.allowed _); cbn [negb]; [|reflexivity].
  unfold bind at 1.
  destruct (panelSafetyGate ops sceneText _) as [[[response|]|e] w2]; try reflexivity.
  unfold bind at 1. rewrite panelScript_cases. cbn zeta.
  destruct (generateScript (base ops) sceneText _ w2) as [[script|e] w3]; cbn [fst snd];
    [|reflexivity].
  destruct (inlineScriptCheck script); [|reflexivity].
  unfold bind at 1.
  destruct (RouteMore.qualityGate_returns (base ops) script sceneText w3) as [w4 ->].
  cbn [snd]. unfold bind at 1. unfold admitImage at 1.
  unfold afterImageCheck.
  destruct (RateLimiter.isAllowed later (panelClientIP req) (imageRateLimiter w4)) as [d' rl'].
  cbn [fst snd]. destruct (RateLimiter.allowed d'); cbn [negb]; [|reflexivity].
  unfold bind.
  destruct (generateImage ops (imageDescriptionOf script) _ _) as [[url|e] w6]; reflexivity.
Qed.

Lemma panel_out_of_range ops now later req w sceneText :
  p_scene req = JStr sceneText → outOfRange sceneText →
  panelPOST ops now later req w
  = (if len (trim sceneText) =? 0 then panelRequired else panelWordCount, w).
Proof.
  intros Hscene Hrange.
  unfold panelPOST, handlePanel. rewrite Hscene. cbn [truthy].
  destruct sceneText as [|ch rest]; [reflexivity|]. cbn [isEmpty negb].
  destruct (len (trim (String ch rest)) =? 0); [reflexivity|].
  replace ((sceneWordCount (String ch rest) <? 3) || (sceneWordCount (String ch rest) >? 20))
    with true; [reflexivity|].
  symmetry. apply orb_true_iff. destruct Hrange as [H | H]; [left | right].
  - by apply Z.ltb_lt.
  - apply Z.gtb_lt. lia.
Qed.

Lemma in_or_out s : inRange s ∨ outOfRange s.
Proof.
  unfold inRange, outOfRange.
  destruct (Z_lt_le_dec (sceneWordCount s) 3); [right; by left|].
  destruct (Z_lt_le_dec 20 (sceneWordCount s)); [right; by right|].
  left. lia.
Qed.

(** The answers of the combined handler behind the adapter. *)
Lemma panel_answers c now later req w sceneText :
  p_scene req = JStr sceneText →
  let r := (panelPOST (fullClient c) now later req w).1 in
  (∃ script imageUrl sceneTy styleTy a b t,
      r = mkPanelResponse 200 (PanelOk script imageUrl sceneText sceneTy styleTy a b t)
      ∧ inlineScriptCheck script = true)
  ∨ In r [panelRequired; panelWordCount; panelUnsafe; panelScriptFailed; panelScriptIncomplete]
  ∨ (∃ t, r = panelScriptLimited t)
  ∨ r = panelImageFailed
  ∨ (∃ t, r = panelImageLimited t).
Proof.
  intros Hscene. cbn zeta.
  destruct (in_or_out sceneText) as [Hrange | Hrange].
  2:{ rewrite (panel_out_of_range _ now later req w sceneText Hscene Hrange). cbn [fst].
      right. left. destruct (len (trim sceneText) =? 0); simpl; tauto. }
  rewrite (panelPOST_valid_scene _ now later req w sceneText Hscene Hrange). cbn zeta.
  destruct (RateLimiter.allowed _); [|right; right; left; by eexists].
  destruct (panelSafetyGate_cases (fullClient c) sceneText
              (afterScriptCheck now (panelClientIP req) w)) as (w2 & [-> | ->] & _).
  2:{ right. left. simpl. tauto. }
  cbn [base fullClient generateScript aiClient].
  destruct (AIClient.generateScript c sceneText _ w2) as [[script|e] w3] eqn:Hgen; cbn [fst snd].
  2:{ apply generateScript_throws in Hgen. subst e. right. left. simpl. tauto. }
  destruct (inlineScriptCheck script) eqn:Hinline; [|right; left; simpl; tauto].
  match goal with
  | |- context [RateLimiter.allowed ?d] => destruct (RateLimiter.allowed d)
  end; [|right; right; right; right; by eexists].
  cbn [generateImage fullClient].
  destruct (AIClient.generateImage c _ _ _) as [[url|e] w6] eqn:Himg; cbn [fst].
  - left. by eexists _, _, _, _, _, _, _.
  - apply generateImage_throws in Himg. subst e. right; right; right; left. reflexivity.
Qed.

(** X24. Whenever the two limiter checks of the combined handler read the
    clock, every failure of the handler behind the adapter reaches the
    browser as a script or an image failure, and a panel is reported only
    for a success: a refusal of the scene itself (missing, too short or too
    long, unsafe) and a spent script quota are shown as a failure to generate
    the script, a spent image quota as a failure to generate the image. *)
Theorem refusals_reach_the_browser_as_generation_failures
    (c : AIClient.t) (now later : Z) (req : PanelRequest) (w : World) (sceneText : string) :
  p_scene req = JStr sceneText →
  let r := (panelPOST (fullClient c) now later req w).1 in
  match ApiClient.generateCompleteComicPanel (delivered r) with
  | ApiClient.Panel _ => p_status r = 200
  | ApiClient.Failure _ details errorType =>
      (errorType = "script_generation_error"
       ∧ (In r [panelRequired; panelWordCount; panelUnsafe; panelScriptFailed;
                panelScriptIncomplete]
          ∨ ∃ t, r = panelScriptLimited t))
      ∨ (errorType = "image_generation_error"
         ∧ (r = panelImageFailed ∨ ∃ t, r = panelImageLimited t))
  end.
Proof.
  intros Hscene. cbn zeta.
  destruct (panel_answers c now later req w sceneText Hscene)
    as [(script & url & sceneTy & styleTy & a & b & t & -> & _)
       | [Hin | [[t ->] | [-> | [t ->]]]]].
  - reflexivity.
  - destruct Hin as [<- | [<- | [<- | [<- | [<- | []]]]]];
      (left; split; [vm_compute; reflexivity | simpl; tauto]).
  - left. split; [vm_compute; reflexivity | right; by eexists].
  - right. split; [vm_compute; reflexivity | by left].
  - right. split; [vm_compute; reflexivity | right; by eexists].
Qed.

Lemma refusals_witness :
  let req := mkPanelRequest (JStr "Krishna") None None None in
  let r := (panelPOST (fullClient AIClient.unconfigured) 0 250 req initialWorld).1 in
  p_scene req = JStr "Krishna"
  ∧ match ApiClient.generateCompleteComicPanel (delivered r) with
    | ApiClient.Panel _ => p_status r = 200
    | ApiClient.Failure _ details errorType =>
        (errorType = "script_generation_error"
         ∧ (In r [panelRequired; panelWordCount; panelUnsafe; panelScriptFailed;
                  panelScriptIncomplete]
            ∨ ∃ t, r = panelScriptLimited t))
        ∨ (errorType = "image_generation_error"
           ∧ (r = panelImageFailed ∨ ∃ t, r = panelImageLimited t))
    end.
Proof.
  cbn zeta. split; [reflexivity|].
  exact (refusals_reach_the_browser_as_generation_failures AIClient.unconfigured 0 250
           (mkPanelRequest (JStr "Krishna") None None None) initialWorld "Krishna" eq_refl).
Defined.

(** *** Quota accounting *)

Lemma onlyLogs_limiters {A} (m : M A) w :
  onlyLogs m →
  scriptRateLimiter (m w).2 = scriptRateLimiter w
  ∧ imageRateLimiter (m w).2 = imageRateLimiter w.
Proof. intros Hm. destruct (Hm w) as [calls ->]. by split. Qed.




(** *** Mock mode *)




(** *** The image-stage handler *)

Lemma admitImage_eq now identity w :
  admitImage now identity w
  = (Returned (RateLimiter.isAllowed now identity (imageRateLimiter w)).1,
     afterImageCheck now identity w).
Proof.
  unfold admitImage, afterImageCheck.
  by destruct (RateLimiter.isAllowed now identity (imageRateLimiter w)).
Qed.

Lemma imageSafetyGate_cases ops description w :
  ∃ w', (imageSafetyGate ops description w = (Returned None, w')
         ∨ imageSafetyGate ops description w = (Returned (Some imageUnsafe), w'))
        ∧ w' = (checkContentSafety (base ops) description w).2.
Proof.
  unfold imageSafetyGate, tryCatch, bind.
  destruct (checkContentSafety (base ops) description w) as [[verdict|e] w'].
  - destruct (negb (AIClient.safe verdict)); eexists; (split; [|reflexivity]);
      [right | left]; reflexivity.
  - eexists. split; [left|]; reflexivity.
Qed.

(** The image handler on a description that is not blank. *)
Lemma imagePOST_described ops now req w description :
  imageDescription req = JStr description →
  (len (trim description) =? 0) = false →
  let id := imageClientIP req in
  let styleTy := match i_styleType req with Some t => t | None => "vibrant" end in
  let sceneTy := match i_sceneType req with Some t => t | None => "general" end in
  let d := (RateLimiter.isAllowed now id (imageRateLimiter w)).1 in
  let w1 := afterImageCheck now id w in
  imagePOST ops now req w
  = if RateLimiter.allowed d then
      match imageSafetyGate ops description w1 with
      | (Returned (Some response), w2) => (response, w2)
      | (Returned None, w2) =>
          match generateImage ops description styleTy w2 with
          | (Returned imageUrl, w3) =>
              (mkImageResponse 200
                 (ImageOk imageUrl (Prompts.constructImagePrompt description styleTy sceneTy)
                    styleTy sceneTy (RateLimiter.remaining d) (RateLimiter.resetAt d)), w3)
          | (Thrown _, w3) => (imageFailed, w3)
          end
      | (Thrown _, w2) => (imageFailed, w2)
      end
    else (imageRateLimited (RateLimiter.resetAt d), w1).
Proof.
  intros Hdesc Hlen. cbn zeta.
  unfold imagePOST, handleImage. rewrite Hdesc. cbn [truthy].
  destruct description as [|ch rest]; [discriminate Hlen|]. cbn [isEmpty negb].
  rewrite Hlen. unfold bind at 1. rewrite admitImage_eq.
  destruct (RateLimiter.allowed _); cbn [negb]; [|reflexivity].
  unfold bind at 1.
  destruct (imageSafetyGate ops (String ch rest) _) as [[[response|]|e] w2]; try reflexivity.
  unfold bind.
  destruct (generateImage ops (String ch rest) _ w2) as [[url|e] w3]; reflexivity.
Qed.

(** X27. The image handler has no word-count rule: a description is refused
    as missing exactly when it is blank, and then nothing changes; any
    other description, of whatever length, goes to the image limiter.
    Behind the adapter the handler never touches the script quota, and its
    answers are a success or one of four fixed refusals. *)
Theorem image_handler_charges_only_image_quota
    (c : AIClient.t) (now : Z) (req : ImageRequest) (w : World) (description : string) :
  imageDescription req = JStr description →
  let r := (imagePOST (fullClient c) now req w).1 in
  let w' := (imagePOST (fullClient c) now req w).2 in
  scriptRateLimiter w' = scriptRateLimiter w
  ∧ (len (trim description) = 0 ∧ r = imageRequired ∧ w' = w
     ∨ len (trim description) ≠ 0
       ∧ imageRateLimiter w'
         = (RateLimiter.isAllowed now (imageClientIP req) (imageRateLimiter w)).2
       ∧ (i_status r = 200 ∨ r = imageUnsafe ∨ r = imageFailed
          ∨ ∃ t, r = imageRateLimited t)).
Proof.
  intros Hdesc. cbn zeta.
  destruct (len (trim description) =? 0) eqn:Hlen.
  - apply Z.eqb_eq in Hlen as Hzero.
    assert (imagePOST (fullClient c) now req w = (imageRequired, w)) as ->.
    { unfold imagePOST, handleImage. rewrite Hdesc. cbn [truthy].
      destruct (negb (negb (isEmpty description))); [reflexivity|]. by rewrite Hlen. }
    split; [reflexivity|]. left. by repeat split.
  - apply Z.eqb_neq in Hlen as Hpos.
    rewrite (imagePOST_described _ now req w description Hdesc Hlen). cbn zeta.
    set (id := imageClientIP req). set (w1 := afterImageCheck now id w).
    destruct (RateLimiter.allowed (RateLimiter.isAllowed now id (imageRateLimiter w)).1).
    2:{ cbn [fst snd]. split; [reflexivity|]. right.
        split; [exact Hpos|]. split; [reflexivity|]. right; right; right. by eexists. }
    destruct (imageSafetyGate_cases (fullClient c) description w1) as (w2 & Hgate & Hw2).
    destruct (onlyLogs_limiters _ w1 (checkContentSafety_logs c description)) as [Hs2 Hi2].
    change (AIClient.checkContentSafety c description w1)
      with (checkContentSafety (base (fullClient c)) description w1) in Hs2, Hi2.
    rewrite <- Hw2 in Hs2, Hi2.
    destruct Hgate as [-> | ->].
    2:{ cbn [fst snd]. split; [by rewrite Hs2|]. right.
        split; [exact Hpos|]. split; [by rewrite Hi2|]. right; left. reflexivity. }
    change (generateImage (fullClient c)) with (AIClient.generateImage c).
    destruct (onlyLogs_limiters _ w2
                (generateImage_logs c description
                   match i_styleType req with Some t => t | None => "vibrant" end))
      as [Hs3 Hi3].
    destruct (AIClient.generateImage c description _ w2) as [[url|e] w3]; cbn [fst snd] in *.
    + split; [by rewrite Hs3, Hs2|]. right.
      split; [exact Hpos|]. split; [by rewrite Hi3, Hi2|]. by left.
    + split; [by rewrite Hs3, Hs2|]. right.
      split; [exact Hpos|]. split; [by rewrite Hi3, Hi2|]. right; right; left. reflexivity.
Qed.

(** A one-word description, which the script handler would refuse. *)
Lemma image_handler_witness :
  let req := mkImageRequest (JStr "Krishna") None None None None in
  imageDescription req = JStr "Krishna"
  ∧ scriptRateLimiter (imagePOST (fullClient AIClient.unconfigured) 0 req initialWorld).2
    = scriptRateLimiter initialWorld.
Proof.
  cbn zeta. split; [reflexivity|].
  exact (proj1 (image_handler_charges_only_image_quota AIClient.unconfigured 0
                  (mkImageRequest (JStr "Krishna") None None None None)
                  initialWorld "Krishna" eq_refl)).
Defined.

(** *** The reset handler *)

(** X28. The reset is refused outside development, and then changes nothing; in
    development it empties both tables and keeps the ceilings and windows,
    so that the next check of any identity at either limiter is admitted
    with a new window, and the script handler cannot answer the next
    request with a rate-limit refusal. *)
Theorem reset_is_development_only (NODE_ENV : option string) (w : World) :
  (NODE_ENV ≠ Some "development" → resetPOST NODE_ENV w = (ResetForbidden, w))
  ∧ (NODE_ENV = Some "development" →
     let w' := (resetPOST NODE_ENV w).2 in
     (resetPOST NODE_ENV w).1 = ResetDone
     ∧ providerCalls w' = providerCalls w
     ∧ (∀ now id,
          (RateLimiter.isAllowed now id (scriptRateLimiter w')).1
          = RateLimiter.mkDecision true
              (RateLimiter.maxRequests (scriptRateLimiter w) - 1)
              (now + RateLimiter.windowMs (scriptRateLimiter w))
          ∧ (RateLimiter.isAllowed now id (imageRateLimiter w')).1
            = RateLimiter.mkDecision true
                (RateLimiter.maxRequests (imageRateLimiter w) - 1)
                (now + RateLimiter.windowMs (imageRateLimiter w)))
     ∧ (∀ ops now req, status (POST ops now req w').1 ≠ 429)).
Proof.
  split.
  - intros Hne. unfold resetPOST. destruct NODE_ENV as [env|]; [|reflexivity].
    destruct (String.eqb_spec env "development") as [-> | _]; [by destruct Hne | reflexivity].
  - intros ->. cbn zeta. unfold resetPOST.
    change (String.eqb "development" "development") with true. cbn [fst snd providerCalls].
    split; [reflexivity|]. split; [reflexivity|]. split.
    + intros now id. split; reflexivity.
    + intros ops now req.
      destruct (scene req) as [| | b | z | s | l | o |] eqn:Hscene;
        try (unfold POST, handle; rewrite Hscene;
             destruct (negb (truthy _)); cbn; discriminate).
      destruct (in_or_out s) as [Hrange | Hrange].
      2:{ rewrite (RouteMore.out_of_range_response ops now req _ s Hscene Hrange). cbn [fst].
          destruct (len (trim s) =? 0); discriminate. }
      rewrite (RouteMore.POST_valid_scene ops now req _ s Hscene Hrange). cbn zeta.
      change (RateLimiter.allowed _) with true. cbn iota.
      destruct (RouteMore.safetyGate_cases ops s
                  (afterScriptCheck now (clientIP req)
                     (mkWorld (RateLimiter.resetLimits (scriptRateLimiter w))
                              (RateLimiter.resetLimits (imageRateLimiter w))
                              (providerCalls w)))) as [w2 [-> | ->]]; [|discriminate].
      destruct (generateScript ops s _ w2) as [[script|e] w3]; discriminate.
Qed.

End HandlersFacts.

(** ** The browser-side client (src/lib/api-client.ts) *)

Module ApiClientFacts.
Import ApiClient Handlers StringFacts.

Lemma existsb_includes_mono (s s' : string) keywords :
  (∀ k, includes s k = true → includes s' k = true) →
  existsb (fun keyword => includes s keyword) keywords = true →
  existsb (fun keyword => includes s' keyword) keywords = true.
Proof.
  intros Hmono. rewrite !existsb_exists. intros (k & Hin & Hk). exists k. split; [done|].
  by apply Hmono.
Qed.

Lemma includes_in_context (pre s post k : string) :
  includes s k = true → includes (pre ++ s ++ post)%string k = true.
Proof.
  rewrite !includes_spec. intros (p & q & ->).
  exists (pre ++ p)%string, (q ++ post)%string. by rewrite !append_assoc_s.
Qed.

Lemma toLowerCase_context (pre s post : string) :
  toLowerCase (pre ++ s ++ post)
  = (toLowerCase pre ++ toLowerCase s ++ toLowerCase post)%string.
Proof. by rewrite !ContentSafetyFacts.toLowerCase_app. Qed.

(** X29. The keyword detectors look for substrings of the lower-cased scene, so
    letter case does not matter, and the class that is tested first survives
    any text put around the scene: a scene detected as "action" stays
    "action", a style detected as "divine" stays "divine". *)
Theorem detection_survives_context (scene pre post : string) :
  detectSceneType (toLowerCase scene) = detectSceneType scene
  ∧ detectStyleType (toLowerCase scene) = detectStyleType scene
  ∧ (detectSceneType scene = "action" → detectSceneType (pre ++ scene ++ post) = "action")
  ∧ (detectStyleType scene = "divine" → detectStyleType (pre ++ scene ++ post) = "divine").
Proof.
  split; [|split; [|split]].
  - unfold detectSceneType. cbn zeta. by rewrite ContentSafetyMore.toLowerCase_idem.
  - unfold detectStyleType. cbn zeta. by rewrite ContentSafetyMore.toLowerCase_idem.
  - unfold detectSceneType. cbn zeta.
    match goal with |- (if ?b then _ else _) = _ → _ => destruct b eqn:Haction end.
    + intros _. rewrite toLowerCase_context.
      rewrite (existsb_includes_mono (toLowerCase scene) _ _
                 (includes_in_context (toLowerCase pre) (toLowerCase scene) (toLowerCase post))
                 Haction).
      reflexivity.
    + match goal with |- (if ?b then _ else _) = _ → _ => destruct b end; discriminate.
  - unfold detectStyleType. cbn zeta.
    match goal with |- (if ?b then _ else _) = _ → _ => destruct b eqn:Hdivine end.
    + intros _. rewrite toLowerCase_context.
      rewrite (existsb_includes_mono (toLowerCase scene) _ _
                 (includes_in_context (toLowerCase pre) (toLowerCase scene) (toLowerCase post))
                 Hdivine).
      reflexivity.
    + match goal with |- (if ?b then _ else _) = _ → _ => destruct b end; discriminate.
Qed.

(** X30. The failure classes are found by looking for "script" and "image" in
    the message, "script" first.  The word "description" contains "script":
    every message that mentions a description is reported as a failure to
    generate the script, also when it speaks of the image, and so is every
    server refusal whose error text mentions one. *)
Theorem description_messages_are_script_failures (message : string) (resetTime : option Z) :
  includes message "description" = true →
  classify message
  = Failure "Failed to generate script. Please try again with a different scene description."
            message "script_generation_error"
  ∧ generateCompleteComicPanel
      (Returned (mkHttp false (Returned (errorJson message resetTime))))
    = classify message.
Proof.
  intros Hdesc. split.
  - unfold classify.
    rewrite (includes_trans message "description" "script" Hdesc eq_refl). reflexivity.
  - unfold generateCompleteComicPanel. cbn [json ok negb].
    unfold panelErrorMessage, errorJson. cbn [ownProperty].
    change (String.eqb "error" "error") with true. reflexivity.
Qed.

(** The refusal of the image handler for an unsafe description. *)
Lemma description_message_witness :
  includes "Image description contains inappropriate content. Please modify your request."
           "description" = true
  ∧ classify "Image description contains inappropriate content. Please modify your request."
    = Failure "Failed to generate script. Please try again with a different scene description."
              "Image description contains inappropriate content. Please modify your request."
              "script_generation_error".
Proof.
  split; [reflexivity|].
  exact (proj1 (description_messages_are_script_failures
                  "Image description contains inappropriate content. Please modify your request."
                  None eq_refl)).
Defined.

End ApiClientFacts.
